(** * Portfolio backend: token service, resource handlers and API client

    A shallow embedding of the JavaScript sources

    - [utils/jwt.js]       (token service),
    - [routes/auth.js]     (register / login / refresh / logout),
    - [routes/projects.js] (project listings and soft delete),
    - [routes/contacts.js] (contact messages),
      the four modules that follow the text of [backend/README.md],
    - [backend/middleware/validators.js] (express-validator chains),
    - [js/api.js]          (browser API client),

    together with the properties the specification states about them.

    Conventions.  A JavaScript [Date] is the number of milliseconds since
    the epoch, a [Z].  Database identifiers (Prisma [cuid] strings) are
    natural numbers drawn from a counter kept with the tables: only their
    equality and freshness matter.  The database itself is reliable: an
    operation fails only when a declared constraint is violated.  The two
    third-party libraries the code calls, [jsonwebtoken] and
    [express-validator], are modelled in the modules [Jwt] and (for the
    validators used) [Validators]. *)

From Stdlib Require Import String Ascii DecimalString ZArith Lia Bool Arith
  PeanoNat List.
Import ListNotations.
Local Open Scope string_scope.
Local Open Scope list_scope.
Local Open Scope nat_scope.

Set Implicit Arguments.

(* ------------------------------------------------------------------ *)
(** * JavaScript values the code manipulates *)

(** An [Error] object: its [name] and its [message]. *)
Record JsError : Type := mkError { err_name : string; err_message : string }.

(** [new Error(msg)] *)
Definition Error (msg : string) : JsError := mkError "Error" msg.

(** A computation that returns or throws. *)
Inductive Result (A : Type) : Type :=
| Ok (a : A)
| Throw (e : JsError).
Arguments Ok {A} a.
Arguments Throw {A} e.

Definition bind {A B : Type} (r : Result A) (k : A -> Result B) : Result B :=
  match r with
  | Ok a => k a
  | Throw e => Throw e
  end.

Notation "'let*' x ':=' r 'in' k" := (bind r (fun x => k))
  (at level 10, x pattern, r at level 100, k at level 200).

(** [try { r } catch (error) { throw e }] *)
Definition catch_rethrow {A : Type} (r : Result A) (e : JsError) : Result A :=
  match r with
  | Ok a => Ok a
  | Throw _ => Throw e
  end.

(** Truthiness of a string-or-undefined value: [undefined], [null] and
    the empty string are falsy. *)
Definition truthy (v : option string) : bool :=
  match v with
  | Some EmptyString => false
  | Some _ => true
  | None => false
  end.

(** A count inside a template string. *)
Definition decimal (n : nat) : string := NilZero.string_of_uint (Nat.to_uint n).

(** [a || b] on string-or-undefined values with a string default. *)
Definition or_default (a : option string) (b : string) : string :=
  match a with
  | Some EmptyString => b
  | Some s => s
  | None => b
  end.

(* ------------------------------------------------------------------ *)
(** * Ordering query results *)

(** [ORDER BY]: a stable insertion sort; [before a b] says that [a] may
    stand in front of [b].  Rows with equal keys keep the order of the
    table; the database leaves their order open, and nothing below
    depends on it. *)
Section Sorting.
Variable A : Type.
Variable before : A -> A -> bool.

Fixpoint insert_sorted (a : A) (l : list A) : list A :=
  match l with
  | [] => [a]
  | b :: l' => if before a b then a :: b :: l' else b :: insert_sorted a l'
  end.

Definition sort_by (l : list A) : list A := fold_right insert_sorted [] l.
End Sorting.

(* ------------------------------------------------------------------ *)
(** * The [jsonwebtoken] library *)

Inductive Role : Type := ADMIN | USER.

(** A token is either a string that is no well-formed JWT, or a payload
    signed under a key.  The signature is ideal: it verifies under the
    signing key and under no other.  Signing the same payload under the
    same key at the same second gives the same token, as in the library.

    [ms] is the time-span parser of the [ms] package, as [jsonwebtoken]
    uses it for [expiresIn]: the span in seconds, or [None] when the string
    is rejected. *)
Module Jwt.

Record Payload : Type := mkPayload {
  userId : nat;
  email : option string;
  role : option Role;
  name : option string;
  tokenType : option string;
  iss : option string;
  aud : option string;
  iat : Z;
  exp : Z
}.

Inductive Token : Type :=
| Malformed (s : string)
| Signed (key : string) (p : Payload).

(** The fields the caller passes to [jwt.sign]. *)
Record Fields : Type := mkFields {
  f_userId : nat;
  f_email : option string;
  f_role : option Role;
  f_name : option string;
  f_tokenType : option string
}.

Record SignOptions : Type := mkSignOptions {
  expiresIn : string;
  issuer : option string;
  audience : option string
}.

Record VerifyOptions : Type := mkVerifyOptions {
  v_issuer : option string;
  v_audience : option string
}.

Definition JsonWebTokenError (msg : string) : JsError :=
  mkError "JsonWebTokenError" msg.
Definition TokenExpiredError : JsError :=
  mkError "TokenExpiredError" "jwt expired".

(** Seconds since the epoch at the instant [now] (milliseconds). *)
Definition clock (now : Z) : Z := (now / 1000)%Z.

Section WithMs.
Variable ms : string -> option Z.

(** [jwt.sign(payload, secret, options)] at the instant [now]. *)
Definition sign (f : Fields) (secret : option string) (o : SignOptions)
           (now : Z) : Result Token :=
  match secret with
  | None | Some EmptyString =>
      Throw (Error "secretOrPrivateKey must have a value")
  | Some key =>
      match ms (expiresIn o) with
      | None =>
          Throw (Error "expiresIn should be a number of seconds or string representing a timespan")
      | Some span =>
          Ok (Signed key
                (mkPayload (f_userId f) (f_email f) (f_role f) (f_name f)
                   (f_tokenType f) (issuer o) (audience o)
                   (clock now) (clock now + span)%Z))
      end
  end.
End WithMs.

Definition opt_matches (expected actual : option string) : bool :=
  match expected with
  | None => true
  | Some e =>
      match actual with
      | Some a => String.eqb e a
      | None => false
      end
  end.

(** [jwt.verify(token, secret, options)] at the instant [now]: the shape
    of the token first, then the signature, then the expiry, then
    audience and issuer. *)
Definition verify (t : Token) (secret : option string) (o : VerifyOptions)
           (now : Z) : Result Payload :=
  match t with
  | Malformed _ => Throw (JsonWebTokenError "jwt malformed")
  | Signed k p =>
      match secret with
      | None | Some EmptyString =>
          Throw (JsonWebTokenError "secret or public key must be provided")
      | Some key =>
          if negb (String.eqb k key) then
            Throw (JsonWebTokenError "invalid signature")
          else if (exp p <=? clock now)%Z then
            Throw TokenExpiredError
          else if negb (opt_matches (v_audience o) (aud p)) then
            Throw (JsonWebTokenError "jwt audience invalid")
          else if negb (opt_matches (v_issuer o) (iss p)) then
            Throw (JsonWebTokenError "jwt issuer invalid")
          else Ok p
      end
  end.

Definition Role_eq_dec (a b : Role) : {a = b} + {a <> b}.
Proof. decide equality. Defined.

Definition Payload_eq_dec (a b : Payload) : {a = b} + {a <> b}.
Proof.
  decide equality;
    try apply Z.eq_dec; try apply Nat.eq_dec;
    decide equality; try apply string_dec; apply Role_eq_dec.
Defined.

Definition Token_eq_dec (a b : Token) : {a = b} + {a <> b}.
Proof.
  decide equality; try apply string_dec; apply Payload_eq_dec.
Defined.

Definition eqb (a b : Token) : bool :=
  if Token_eq_dec a b then true else false.

End Jwt.

(* ------------------------------------------------------------------ *)
(** * The persistence boundary *)

(** [process.env], as far as the code reads it. *)
Record Env : Type := mkEnv {
  JWT_SECRET : option string;
  JWT_REFRESH_SECRET : option string;
  REFRESH_TOKEN_SECRET : option string;
  JWT_EXPIRES_IN : option string;
  JWT_REFRESH_EXPIRES_IN : option string;
  REFRESH_TOKEN_EXPIRES_IN : option string
}.

Record User : Type := mkUser {
  u_id : nat;
  u_name : string;
  u_email : string;
  u_password : string;
  u_role : Role;
  u_isActive : bool;
  u_createdAt : Z;
  u_updatedAt : Z
}.

Record RefreshToken : Type := mkRefreshToken {
  rt_id : nat;
  rt_token : Jwt.Token;
  rt_userId : nat;
  rt_expiresAt : Z;
  rt_createdAt : Z
}.

Record Project : Type := mkProject {
  p_id : nat;
  p_title : string;
  p_description : string;
  p_videoUrl : option string;
  p_videoTitle : option string;
  p_repositoryUrl : option string;
  p_technologies : list string;
  p_isFeatured : bool;
  p_isActive : bool;
  p_order : Z;
  p_authorId : nat;
  p_createdAt : Z;
  p_updatedAt : Z
}.

Record Contact : Type := mkContact {
  c_id : nat;
  c_name : string;
  c_email : string;
  c_subject : option string;
  c_message : string;
  c_phone : option string;
  c_status : string;
  c_adminNotes : option string;
  c_respondedAt : option Z;
  c_createdAt : Z;
  c_updatedAt : Z
}.

(** The tables and the identifier counter. *)
Record Db : Type := mkDb {
  users : list User;
  refreshTokens : list RefreshToken;
  projects : list Project;
  contacts : list Contact;
  nextId : nat
}.

Definition set_refreshTokens (db : Db) (l : list RefreshToken) : Db :=
  mkDb (users db) l (projects db) (contacts db) (nextId db).

(** [deleteMany({ where })]: the table without the matching rows. *)
Definition deleteMany {A : Type} (where_ : A -> bool) (rows : list A) : list A :=
  filter (fun r => negb (where_ r)) rows.

(** [result.count] of that [deleteMany]. *)
Definition deleteCount {A : Type} (where_ : A -> bool) (rows : list A) : nat :=
  length (filter where_ rows).

(** [findMany({ where, orderBy })] *)
Definition findMany {A : Type} (where_ : A -> bool) (before : A -> A -> bool)
           (rows : list A) : list A :=
  sort_by before (filter where_ rows).

(** The unique-constraint error of Prisma. *)
Definition P2002 : JsError :=
  mkError "PrismaClientKnownRequestError" "Unique constraint failed".

(** [prisma.refreshToken.create({ data: { token, userId, expiresAt } })]:
    [token] is a unique column, [id] and [createdAt] take their defaults. *)
Definition createRefreshToken (db : Db) (token : Jwt.Token) (userId : nat)
           (expiresAt now : Z) : Result (RefreshToken * Db) :=
  if existsb (fun r => Jwt.eqb (rt_token r) token) (refreshTokens db) then
    Throw P2002
  else
    let r := mkRefreshToken (nextId db) token userId expiresAt now in
    Ok (r, mkDb (users db) (refreshTokens db ++ [r]) (projects db)
                (contacts db) (S (nextId db))).

(* ------------------------------------------------------------------ *)
(** * [parseInt] and dates *)

Definition is_js_space (c : ascii) : bool :=
  let n := nat_of_ascii c in
  ((9 <=? n) && (n <=? 13)) || (n =? 32) || (n =? 160).

Fixpoint skip_spaces (s : string) : string :=
  match s with
  | String c s' => if is_js_space c then skip_spaces s' else s
  | EmptyString => s
  end.

(** The value of [c] as a digit in [radix], if it is one. *)
Definition digit_value (radix : Z) (c : ascii) : option Z :=
  let n := Z.of_nat (nat_of_ascii c) in
  let v :=
    if ((48 <=? n) && (n <=? 57))%Z then Some (n - 48)%Z
    else if ((97 <=? n) && (n <=? 122))%Z then Some (n - 87)%Z
    else if ((65 <=? n) && (n <=? 90))%Z then Some (n - 55)%Z
    else None in
  match v with
  | Some d => if (d <? radix)%Z then Some d else None
  | None => None
  end.

(** The longest prefix of digits, accumulated; [None] without a digit. *)
Fixpoint parse_digits (radix : Z) (s : string) (acc : option Z) : option Z :=
  match s with
  | String c s' =>
      match digit_value radix c with
      | Some d =>
          parse_digits radix s'
            (Some (match acc with Some a => a * radix + d | None => d end)%Z)
      | None => acc
      end
  | EmptyString => acc
  end.

(** [parseInt(s)] without a radix argument; [None] is [NaN]. *)
Definition parseInt (s : string) : option Z :=
  let s := skip_spaces s in
  let '(sign, s) :=
    match s with
    | String "-" s' => ((-1)%Z, s')
    | String "+" s' => (1%Z, s')
    | _ => (1%Z, s)
    end in
  let '(radix, s) :=
    match s with
    | String "0" (String "x" s') => (16%Z, s')
    | String "0" (String "X" s') => (16%Z, s')
    | _ => (10%Z, s)
    end in
  option_map (Z.mul sign) (parse_digits radix s None).

(** [s.slice(-1)] *)
Fixpoint last_char (s : string) : string :=
  match s with
  | EmptyString => EmptyString
  | String c EmptyString => s
  | String _ s' => last_char s'
  end.

(** A [Date]: its time value, or [None] for an invalid date.  The process
    runs in UTC, so calendar arithmetic is arithmetic on milliseconds;
    time values stay within the range of [Date]. *)
Definition Date : Type := option Z.

Definition ms_per_minute : Z := 60000.
Definition ms_per_hour : Z := 3600000.
Definition ms_per_day : Z := 86400000.

(** [d.setX(d.getX() + n)] for a unit of [unit_ms] milliseconds. *)
Definition date_add (d : Z) (n : option Z) (unit_ms : Z) : Date :=
  match n with
  | Some v => Some (d + v * unit_ms)%Z
  | None => None
  end.

(* ------------------------------------------------------------------ *)
(** * The token service, [utils/jwt.js] *)

Module TokenService.
Section WithEnv.
Variable ms : string -> option Z.
Variable env : Env.

Definition portfolio_issuer : string := "joseluiscastro-portfolio".
Definition portfolio_audience : string := "portfolio-users".

Definition generateAccessToken (payload : User) (now : Z) : Result Jwt.Token :=
  Jwt.sign ms
    (Jwt.mkFields (u_id payload) (Some (u_email payload))
       (Some (u_role payload)) (Some (u_name payload)) None)
    (JWT_SECRET env)
    (Jwt.mkSignOptions (or_default (JWT_EXPIRES_IN env) "15m")
       (Some portfolio_issuer) (Some portfolio_audience))
    now.

Definition generateRefreshToken (payload : User) (now : Z) : Result Jwt.Token :=
  Jwt.sign ms
    (Jwt.mkFields (u_id payload) (Some (u_email payload)) None None
       (Some "refresh"))
    (JWT_REFRESH_SECRET env)
    (Jwt.mkSignOptions (or_default (JWT_REFRESH_EXPIRES_IN env) "7d")
       (Some portfolio_issuer) (Some portfolio_audience))
    now.

Definition verifyOptions : Jwt.VerifyOptions :=
  Jwt.mkVerifyOptions (Some portfolio_issuer) (Some portfolio_audience).

Definition access_error : JsError :=
  Error "Token de acceso inválido o expirado".
Definition refresh_error : JsError :=
  Error "Token de refresco inválido o expirado".

Definition verifyAccessToken (token : Jwt.Token) (now : Z) : Result Jwt.Payload :=
  catch_rethrow (Jwt.verify token (JWT_SECRET env) verifyOptions now)
                access_error.

Definition verifyRefreshToken (token : Jwt.Token) (now : Z) : Result Jwt.Payload :=
  catch_rethrow (Jwt.verify token (JWT_REFRESH_SECRET env) verifyOptions now)
                refresh_error.

(** [where: { userId, expiresAt: { lt: new Date() } }] *)
Definition expired_of (userId : nat) (now : Z) (r : RefreshToken) : bool :=
  (rt_userId r =? userId) && (rt_expiresAt r <? now)%Z.

Definition owned_by (userId : nat) (r : RefreshToken) : bool :=
  rt_userId r =? userId.

(** [orderBy: { createdAt: 'desc' }] *)
Definition newer_first (a b : RefreshToken) : bool :=
  (rt_createdAt b <=? rt_createdAt a)%Z.

(** [where: { id: { in: ids } }] *)
Definition id_in (ids : list nat) (r : RefreshToken) : bool :=
  existsb (Nat.eqb (rt_id r)) ids.

Definition internal_error : JsError := Error "Error interno del servidor".

(** [new Date()] is [now].  The deletions stay in the database when the
    final [create] throws. *)
Definition saveRefreshToken (db : Db) (userId : nat) (token : Jwt.Token)
           (expiresAt : Date) (now : Z) : Result RefreshToken * Db :=
  let rows1 := deleteMany (expired_of userId now) (refreshTokens db) in
  let existingTokens := findMany (owned_by userId) newer_first rows1 in
  let rows2 :=
    if 5 <=? length existingTokens then
      let tokensToDelete := skipn 4 existingTokens in
      deleteMany (id_in (map rt_id tokensToDelete)) rows1
    else rows1 in
  let db2 := set_refreshTokens db rows2 in
  match expiresAt with
  | None => (Throw internal_error, db2)
  | Some e =>
      match createRefreshToken db2 token userId e now with
      | Ok (r, db3) => (Ok r, db3)
      | Throw _ => (Throw internal_error, db2)
      end
  end.

(** [where: { token, expiresAt: { gt: new Date() } }, include: { user }] *)
Definition findRefreshToken (db : Db) (token : Jwt.Token) (now : Z)
  : option (RefreshToken * option User) :=
  match find (fun r => Jwt.eqb (rt_token r) token && (now <? rt_expiresAt r)%Z)
             (refreshTokens db) with
  | Some r => Some (r, find (fun u => u_id u =? rt_userId r) (users db))
  | None => None
  end.

Definition deleteRefreshToken (db : Db) (token : Jwt.Token) : bool * Db :=
  (true, set_refreshTokens db
           (deleteMany (fun r => Jwt.eqb (rt_token r) token) (refreshTokens db))).

Definition deleteAllUserRefreshTokens (db : Db) (userId : nat) : bool * Db :=
  (true, set_refreshTokens db (deleteMany (owned_by userId) (refreshTokens db))).

(** [where: { expiresAt: { lt: new Date() } }] *)
Definition expired (now : Z) (r : RefreshToken) : bool :=
  (rt_expiresAt r <? now)%Z.

Definition cleanExpiredTokens (db : Db) (now : Z) : nat * Db :=
  (deleteCount (expired now) (refreshTokens db),
   set_refreshTokens db (deleteMany (expired now) (refreshTokens db))).

Record TokenPair : Type := mkTokenPair {
  tp_accessToken : Jwt.Token;
  tp_refreshToken : Jwt.Token;
  tp_expiresAt : Date
}.

Definition pair_error : JsError :=
  Error "Error generando tokens de autenticación".

(** The expiry date computed from [JWT_REFRESH_EXPIRES_IN]. *)
Definition refreshExpiresAt (now : Z) : Date :=
  let refreshExpiresIn := or_default (JWT_REFRESH_EXPIRES_IN env) "7d" in
  let timeValue := parseInt refreshExpiresIn in
  let timeUnit := last_char refreshExpiresIn in
  if String.eqb timeUnit "d" then date_add now timeValue ms_per_day
  else if String.eqb timeUnit "h" then date_add now timeValue ms_per_hour
  else if String.eqb timeUnit "m" then date_add now timeValue ms_per_minute
  else date_add now (Some 7%Z) ms_per_day.

Definition generateTokenPair (db : Db) (user : User) (now : Z)
  : Result TokenPair * Db :=
  match generateAccessToken user now with
  | Throw _ => (Throw pair_error, db)
  | Ok accessToken =>
      match generateRefreshToken user now with
      | Throw _ => (Throw pair_error, db)
      | Ok refreshToken =>
          let expiresAt := refreshExpiresAt now in
          match saveRefreshToken db (u_id user) refreshToken expiresAt now with
          | (Throw _, db') => (Throw pair_error, db')
          | (Ok _, db') =>
              (Ok (mkTokenPair accessToken refreshToken expiresAt), db')
          end
      end
  end.

(** [jwt.decode(token)]: the payload without any check, [null] when the
    string is no JWT. *)
Definition decodeToken (token : Jwt.Token) : option Jwt.Payload :=
  match token with
  | Jwt.Malformed _ => None
  | Jwt.Signed _ p => Some p
  end.

(** [isTokenNearExpiry(token, thresholdMinutes)] at the instant [now];
    the caller's default for [thresholdMinutes] is 5. *)
Definition isTokenNearExpiry (token : Jwt.Token) (thresholdMinutes : Z) (now : Z)
  : bool :=
  match decodeToken token with
  | None => true
  | Some decoded =>
      if (Jwt.exp decoded =? 0)%Z then true
      else
        let expirationTime := (Jwt.exp decoded * 1000)%Z in
        let currentTime := now in
        let thresholdTime := (thresholdMinutes * 60 * 1000)%Z in
        (expirationTime - currentTime <=? thresholdTime)%Z
  end.

End WithEnv.
End TokenService.

(* ------------------------------------------------------------------ *)
(** * JSON bodies and HTTP responses *)

#[local] Set Warnings "-register-all".
Inductive Json : Type :=
| JNull
| JBool (b : bool)
| JNum (z : Z)
| JStr (s : string)
| JTok (t : Jwt.Token)      (* a string that holds a token *)
| JId (n : nat)             (* a string that holds an identifier *)
| JDate (d : Z)
| JArr (l : list Json)
| JObj (fields : list (string * Json)).

(** [o.key]; [None] is [undefined]. *)
Definition jget (key : string) (o : Json) : option Json :=
  match o with
  | JObj fields =>
      match find (fun kv => String.eqb (fst kv) key) fields with
      | Some kv => Some (snd kv)
      | None => None
      end
  | _ => None
  end.

Definition jopt (v : option string) : Json :=
  match v with
  | Some s => JStr s
  | None => JNull
  end.

Record Response : Type := mkResponse { status : nat; body : Json }.

(** [res.status(code).json({ success: false, error })] *)
Definition fail (code : nat) (error : string) : Response :=
  mkResponse code (JObj [("success", JBool false); ("error", JStr error)]).

Definition role_json (r : Role) : Json :=
  match r with
  | ADMIN => JStr "ADMIN"
  | USER => JStr "USER"
  end.

(* ------------------------------------------------------------------ *)
(** * Authentication routes, [routes/auth.js] *)

Module AuthRoutes.
Section WithEnv.
Variable ms : string -> option Z.
Variable env : Env.
(** [bcrypt.hash] and [bcrypt.compare] *)
Variable bcrypt_hash : string -> string.
Variable bcrypt_compare : string -> string -> bool.

Definition userId_only (userId : nat) : Jwt.Fields :=
  Jwt.mkFields userId None None None None.

Definition accessOptions : Jwt.SignOptions :=
  Jwt.mkSignOptions (or_default (JWT_EXPIRES_IN env) "24h") None None.

Definition refreshOptions : Jwt.SignOptions :=
  Jwt.mkSignOptions (or_default (REFRESH_TOKEN_EXPIRES_IN env) "7d") None None.

Definition generateTokens (userId : nat) (now : Z)
  : Result (Jwt.Token * Jwt.Token) :=
  let* accessToken := Jwt.sign ms (userId_only userId) (JWT_SECRET env)
                        accessOptions now in
  let* refreshToken := Jwt.sign ms (userId_only userId)
                         (REFRESH_TOKEN_SECRET env) refreshOptions now in
  Ok (accessToken, refreshToken).

Definition server_error : Response := fail 500 "Error interno del servidor".

(** [Date.now() + 7 * 24 * 60 * 60 * 1000] *)
Definition in_seven_days (now : Z) : Z := (now + 7 * 24 * 60 * 60 * 1000)%Z.

Definition findUserByEmail (db : Db) (email : string) : option User :=
  find (fun u => String.eqb (u_email u) email) (users db).

Definition findUserById (db : Db) (id : nat) : option User :=
  find (fun u => u_id u =? id) (users db).

(** [prisma.user.create] with the defaults of the schema. *)
Definition createUser (db : Db) (name email password : string) (now : Z)
  : User * Db :=
  let u := mkUser (nextId db) name email password USER true now now in
  (u, mkDb (users db ++ [u]) (refreshTokens db) (projects db) (contacts db)
           (S (nextId db))).

Record RegisterBody : Type := mkRegisterBody {
  reg_name : string; reg_email : string; reg_password : string
}.

(** [POST /api/auth/register], after [validateRegister]. *)
Definition register (db : Db) (b : RegisterBody) (now : Z) : Response * Db :=
  match findUserByEmail db (reg_email b) with
  | Some _ => (fail 400 "El usuario ya existe con este email", db)
  | None =>
      let hashedPassword := bcrypt_hash (reg_password b) in
      let '(user, db1) :=
        createUser db (reg_name b) (reg_email b) hashedPassword now in
      match generateTokens (u_id user) now with
      | Throw _ => (server_error, db1)
      | Ok (accessToken, refreshToken) =>
          match createRefreshToken db1 refreshToken (u_id user)
                  (in_seven_days now) now with
          | Throw _ => (server_error, db1)
          | Ok (_, db2) =>
              (mkResponse 201
                 (JObj [("success", JBool true);
                        ("message", JStr "Usuario registrado exitosamente");
                        ("data", JObj [
                           ("user", JObj [("id", JId (u_id user));
                                          ("name", JStr (u_name user));
                                          ("email", JStr (u_email user));
                                          ("role", role_json (u_role user));
                                          ("createdAt", JDate (u_createdAt user))]);
                           ("accessToken", JTok accessToken);
                           ("refreshToken", JTok refreshToken)])]),
               db2)
          end
      end
  end.

Record LoginBody : Type := mkLoginBody {
  login_email : string; login_password : string
}.

(** [POST /api/auth/login], after [validateLogin]. *)
Definition login (db : Db) (b : LoginBody) (now : Z) : Response * Db :=
  match findUserByEmail db (login_email b) with
  | None => (fail 401 "Credenciales inválidas", db)
  | Some user =>
      if negb (u_isActive user) then
        (fail 401 "Cuenta desactivada. Contacta al administrador", db)
      else if negb (bcrypt_compare (login_password b) (u_password user)) then
        (fail 401 "Credenciales inválidas", db)
      else
        match generateTokens (u_id user) now with
        | Throw _ => (server_error, db)
        | Ok (accessToken, refreshToken) =>
            let db1 :=
              set_refreshTokens db
                (deleteMany (TokenService.expired_of (u_id user) now)
                            (refreshTokens db)) in
            match createRefreshToken db1 refreshToken (u_id user)
                    (in_seven_days now) now with
            | Throw _ => (server_error, db1)
            | Ok (_, db2) =>
                (mkResponse 200
                   (JObj [("success", JBool true);
                          ("message", JStr "Inicio de sesión exitoso");
                          ("data", JObj [
                             ("user", JObj [("id", JId (u_id user));
                                            ("name", JStr (u_name user));
                                            ("email", JStr (u_email user));
                                            ("role", role_json (u_role user));
                                            ("isActive", JBool (u_isActive user));
                                            ("createdAt", JDate (u_createdAt user));
                                            ("updatedAt", JDate (u_updatedAt user))]);
                             ("accessToken", JTok accessToken);
                             ("refreshToken", JTok refreshToken)])]),
                 db2)
            end
        end
  end.

(** Truthiness of the [refreshToken] field of a request body. *)
Definition token_given (t : option Jwt.Token) : bool :=
  match t with
  | None => false
  | Some (Jwt.Malformed EmptyString) => false
  | Some _ => true
  end.

Definition noVerifyOptions : Jwt.VerifyOptions := Jwt.mkVerifyOptions None None.

Definition findStoredToken (db : Db) (t : Jwt.Token) : option RefreshToken :=
  find (fun r => Jwt.eqb (rt_token r) t) (refreshTokens db).

(** [POST /api/auth/refresh].  Every exception inside the handler is
    answered with 401. *)
Definition refresh (db : Db) (refreshToken : option Jwt.Token) (now : Z)
  : Response * Db :=
  match refreshToken with
  | Some t =>
      if negb (token_given refreshToken) then
        (fail 401 "Refresh token requerido", db)
      else
        match Jwt.verify t (REFRESH_TOKEN_SECRET env) noVerifyOptions now with
        | Throw _ => (fail 401 "Refresh token inválido", db)
        | Ok decoded =>
            let storedToken := findStoredToken db t in
            match storedToken with
            | None => (fail 401 "Refresh token inválido o expirado", db)
            | Some stored =>
                if (rt_expiresAt stored <? now)%Z then
                  (fail 401 "Refresh token inválido o expirado", db)
                else
                  match findUserById db (Jwt.userId decoded) with
                  | None => (fail 401 "Usuario no encontrado o inactivo", db)
                  | Some user =>
                      if negb (u_isActive user) then
                        (fail 401 "Usuario no encontrado o inactivo", db)
                      else
                        match Jwt.sign ms (userId_only (u_id user))
                                (JWT_SECRET env) accessOptions now with
                        | Throw _ => (fail 401 "Refresh token inválido", db)
                        | Ok newAccessToken =>
                            (mkResponse 200
                               (JObj [("success", JBool true);
                                      ("message", JStr "Token renovado exitosamente");
                                      ("data", JObj [
                                         ("accessToken", JTok newAccessToken);
                                         ("user", JObj [
                                            ("id", JId (u_id user));
                                            ("name", JStr (u_name user));
                                            ("email", JStr (u_email user));
                                            ("role", role_json (u_role user));
                                            ("isActive", JBool (u_isActive user))])])]),
                             db)
                        end
                  end
            end
        end
  | None => (fail 401 "Refresh token requerido", db)
  end.

(** [POST /api/auth/logout], after [authenticate] has set [req.user]. *)
Definition logout (db : Db) (reqUser : User) (refreshToken : option Jwt.Token)
  : Response * Db :=
  let where_ :=
    if token_given refreshToken then
      fun r => match refreshToken with
               | Some t => Jwt.eqb (rt_token r) t && (rt_userId r =? u_id reqUser)
               | None => false
               end
    else fun r => rt_userId r =? u_id reqUser in
  (mkResponse 200 (JObj [("success", JBool true);
                         ("message", JStr "Sesión cerrada exitosamente")]),
   set_refreshTokens db (deleteMany where_ (refreshTokens db))).

(** [GET /api/auth/me], after [authenticate] has set [req.user]. *)
Definition me (db : Db) (reqUser : User) : Response :=
  mkResponse 200
    (JObj [("success", JBool true);
           ("data", JObj [("user",
                           match findUserById db (u_id reqUser) with
                           | Some user =>
                               JObj [("id", JId (u_id user));
                                     ("name", JStr (u_name user));
                                     ("email", JStr (u_email user));
                                     ("role", role_json (u_role user));
                                     ("isActive", JBool (u_isActive user));
                                     ("createdAt", JDate (u_createdAt user));
                                     ("updatedAt", JDate (u_updatedAt user))]
                           | None => JNull
                           end)])]).

End WithEnv.
End AuthRoutes.

(* ------------------------------------------------------------------ *)
(** * Access control, [middleware/auth.js] *)

(** The [Authorization] header of a request: absent or empty, a string
    that does not start with ["Bearer "], or ["Bearer "] followed by a
    token string. *)
Inductive AuthHeader : Type :=
| NoHeader
| OtherScheme (s : string)
| Bearer (t : Jwt.Token).

Module AuthMiddleware.
Section WithEnv.
Variable env : Env.

(** [authHeader.substring(7)] is the empty string. *)
Definition empty_token (t : Jwt.Token) : bool :=
  match t with
  | Jwt.Malformed EmptyString => true
  | _ => false
  end.

(** [authenticate]: the response that ends the request, or the stored
    account that becomes [req.user] (its id, email, name, role and
    isActive). *)
Definition authenticate (db : Db) (authHeader : AuthHeader) (now : Z)
  : Response + User :=
  match authHeader with
  | NoHeader | OtherScheme _ => inl (fail 401 "Token de acceso requerido")
  | Bearer token =>
      if empty_token token then inl (fail 401 "Token no proporcionado")
      else
        match Jwt.verify token (JWT_SECRET env) AuthRoutes.noVerifyOptions now with
        | Ok decoded =>
            match AuthRoutes.findUserById db (Jwt.userId decoded) with
            | None => inl (fail 401 "Usuario no encontrado")
            | Some user =>
                if negb (u_isActive user) then inl (fail 401 "Usuario inactivo")
                else inr user
            end
        | Throw error =>
            if String.eqb (err_name error) "JsonWebTokenError" then
              inl (fail 401 "Token inválido")
            else if String.eqb (err_name error) "TokenExpiredError" then
              inl (fail 401 "Token expirado")
            else inl (fail 500 "Error interno del servidor")
        end
  end.

(** [requireAdmin]: the response that ends the request, if any. *)
Definition requireAdmin (reqUser : User) : option Response :=
  match u_role reqUser with
  | ADMIN => None
  | USER =>
      Some (fail 403 "Acceso denegado. Se requieren permisos de administrador")
  end.

(** [optionalAuth]: [req.user], when it is set; the request always goes
    on. *)
Definition optionalAuth (db : Db) (authHeader : AuthHeader) (now : Z)
  : option User :=
  match authHeader with
  | NoHeader | OtherScheme _ => None
  | Bearer token =>
      if empty_token token then None
      else
        match Jwt.verify token (JWT_SECRET env) AuthRoutes.noVerifyOptions now with
        | Ok decoded =>
            match AuthRoutes.findUserById db (Jwt.userId decoded) with
            | Some user => if u_isActive user then Some user else None
            | None => None
            end
        | Throw _ => None
        end
  end.

End WithEnv.
End AuthMiddleware.

(* ------------------------------------------------------------------ *)
(** * The error handler, [middleware/errorHandler.js] *)

Module ErrorHandler.





End ErrorHandler.

(* ------------------------------------------------------------------ *)
(** * Text search *)

Definition lower_ascii (c : ascii) : ascii :=
  let n := nat_of_ascii c in
  if (65 <=? n) && (n <=? 90) then ascii_of_nat (n + 32) else c.

Fixpoint lower (s : string) : string :=
  match s with
  | EmptyString => EmptyString
  | String c s' => String (lower_ascii c) (lower s')
  end.

Fixpoint contains (needle hay : string) : bool :=
  String.prefix needle hay ||
  match hay with
  | EmptyString => false
  | String _ hay' => contains needle hay'
  end.

(** [{ contains: search, mode: 'insensitive' }] *)
Definition contains_insensitive (search field : string) : bool :=
  contains (lower search) (lower field).


(* ------------------------------------------------------------------ *)
(** * Project routes, [routes/projects.js] *)

Module ProjectRoutes.

(** [req.query] *)
Record Query : Type := mkQuery {
  q_page : option string;
  q_limit : option string;
  q_search : option string;
  q_featured : option string
}.

(** [parseInt(v) || dflt] *)
Definition int_or (v : option string) (dflt : Z) : Z :=
  match v with
  | Some s =>
      match parseInt s with
      | Some 0%Z | None => dflt
      | Some n => n
      end
  | None => dflt
  end.

Definition page_of (q : Query) : Z := int_or (q_page q) 1.
Definition limit_of (q : Query) : Z := int_or (q_limit q) 10.
Definition search_of (q : Query) : string := or_default (q_search q) "".
Definition skip_of (q : Query) : Z := ((page_of q - 1) * limit_of q)%Z.

Definition nonempty (s : string) : bool :=
  match s with
  | EmptyString => false
  | _ => true
  end.



(** The [where] of [GET /api/projects/admin/all]. *)
Definition adminWhere (q : Query) (p : Project) : bool :=
  if nonempty (search_of q) then
    contains_insensitive (search_of q) (p_title p)
    || contains_insensitive (search_of q) (p_description p)
  else true.

(** [orderBy: [{ isFeatured: 'desc' }, { order: 'asc' }, { createdAt: 'desc' }]] *)
Definition listOrder (a b : Project) : bool :=
  if Bool.eqb (p_isFeatured a) (p_isFeatured b) then
    if (p_order a =? p_order b)%Z then (p_createdAt b <=? p_createdAt a)%Z
    else (p_order a <? p_order b)%Z
  else p_isFeatured a.


(** [findMany({ where, orderBy, skip, take })].  After
    [validatePagination], [skip] and [take] are not negative. *)
Definition findPage (where_ : Project -> bool) (before : Project -> Project -> bool)
           (skip take : Z) (rows : list Project) : list Project :=
  firstn (Z.to_nat take) (skipn (Z.to_nat skip) (findMany where_ before rows)).

(** [prisma.project.count({ where })] *)
Definition count (where_ : Project -> bool) (rows : list Project) : Z :=
  Z.of_nat (length (filter where_ rows)).

Definition author_json (db : Db) (p : Project) : Json :=
  match find (fun u => u_id u =? p_authorId p) (users db) with
  | Some u => JObj [("id", JId (u_id u)); ("name", JStr (u_name u))]
  | None => JNull
  end.

(** The [select] of the public listing. *)
Definition select_public (db : Db) (p : Project) : Json :=
  JObj [("id", JId (p_id p)); ("title", JStr (p_title p));
        ("description", JStr (p_description p));
        ("videoUrl", jopt (p_videoUrl p));
        ("videoTitle", jopt (p_videoTitle p));
        ("repositoryUrl", jopt (p_repositoryUrl p));
        ("technologies", JArr (map JStr (p_technologies p)));
        ("isFeatured", JBool (p_isFeatured p));
        ("order", JNum (p_order p));
        ("createdAt", JDate (p_createdAt p));
        ("updatedAt", JDate (p_updatedAt p));
        ("author", author_json db p)].



(** [Math.ceil(total / limit)] for a positive [limit]. *)
Definition ceil_div (total limit : Z) : Z := ((total + limit - 1) / limit)%Z.






Definition set_projects (db : Db) (l : list Project) : Db :=
  mkDb (users db) (refreshTokens db) l (contacts db) (nextId db).

(** [data: { isActive: false, updatedAt: new Date() }] *)
Definition deactivate (now : Z) (p : Project) : Project :=
  mkProject (p_id p) (p_title p) (p_description p) (p_videoUrl p)
    (p_videoTitle p) (p_repositoryUrl p) (p_technologies p) (p_isFeatured p)
    false (p_order p) (p_authorId p) (p_createdAt p) now.

(** [prisma.project.update({ where: { id }, data })] *)
Definition updateProject (id : nat) (f : Project -> Project) (rows : list Project)
  : list Project :=
  map (fun p => if p_id p =? id then f p else p) rows.

(** [DELETE /api/projects/:id], after [authenticate], [requireAdmin] and
    [validateId]. *)
Definition deleteProject (db : Db) (id : nat) (now : Z) : Response * Db :=
  match find (fun p => p_id p =? id) (projects db) with
  | None => (fail 404 "Proyecto no encontrado", db)
  | Some _ =>
      (mkResponse 200 (JObj [("success", JBool true);
                             ("message", JStr "Proyecto eliminado exitosamente")]),
       set_projects db (updateProject id (deactivate now) (projects db)))
  end.

(** [GET /api/projects/:id], after [validateId]. *)
Definition getProject (db : Db) (id : nat) : Response :=
  match find (fun p => (p_id p =? id) && p_isActive p) (projects db) with
  | None => fail 404 "Proyecto no encontrado"
  | Some project =>
      mkResponse 200
        (JObj [("success", JBool true);
               ("data", JObj [("project", select_public db project)])])
  end.



(** [data: { isFeatured, updatedAt: new Date() }] *)
Definition set_featured (v : bool) (now : Z) (p : Project) : Project :=
  mkProject (p_id p) (p_title p) (p_description p) (p_videoUrl p)
    (p_videoTitle p) (p_repositoryUrl p) (p_technologies p) v
    (p_isActive p) (p_order p) (p_authorId p) (p_createdAt p) now.

(** [PATCH /api/projects/:id/toggle-featured], after [authenticate],
    [requireAdmin] and [validateId]. *)
Definition toggleFeatured (db : Db) (id : nat) (now : Z) : Response * Db :=
  match find (fun p => p_id p =? id) (projects db) with
  | None => (fail 404 "Proyecto no encontrado", db)
  | Some project =>
      let db' :=
        set_projects db
          (updateProject id (set_featured (negb (p_isFeatured project)) now)
                         (projects db)) in
      match find (fun p => p_id p =? id) (projects db') with
      | Some updatedProject =>
          (mkResponse 200
             (JObj [("success", JBool true);
                    ("message",
                     JStr (if p_isFeatured updatedProject
                           then "Proyecto marcado como destacado"
                           else "Proyecto removido de destacados"));
                    ("data", JObj [("project",
                       JObj [("id", JId (p_id updatedProject));
                             ("title", JStr (p_title updatedProject));
                             ("isFeatured",
                              JBool (p_isFeatured updatedProject))])])]),
           db')
      | None => (fail 500 "Error interno del servidor", db')
      end
  end.

End ProjectRoutes.

(* ------------------------------------------------------------------ *)
(** * Validation chains, [middleware/validators.js]

    Request fields are strings or absent ([None] is [undefined]); a
    string is a sequence of 8-bit characters, so its length is the one
    [isLength] counts.  A route parameter is always a non-empty string,
    so the chain on [param('id')] never fails and is left out. *)

Module Validators.

Record ValidationError : Type := mkValidationError {
  ve_field : string;
  ve_message : string;
  ve_value : option string
}.

(** The string a validator or sanitizer sees. *)
Definition toString (v : option string) : string :=
  match v with
  | Some s => s
  | None => EmptyString
  end.





(** [.isIn(values)] *)
Definition isIn (values : list string) (s : string) : bool :=
  existsb (String.eqb s) values.

(** [.isBoolean()] *)
Definition isBoolean (s : string) : bool :=
  isIn ["true"; "false"; "1"; "0"] s.

(** One validator of a chain: an error unless [ok]. *)
Definition check (ok : bool) (field message : string) (value : option string)
  : list ValidationError :=
  if ok then [] else [mkValidationError field message value].

Definition error_json (e : ValidationError) : Json :=
  JObj [("field", JStr (ve_field e)); ("message", JStr (ve_message e));
        ("value", jopt (ve_value e))].

(** [handleValidationErrors]: the 400 response when there are errors. *)
Definition handleValidationErrors (errors : list ValidationError)
  : option Response :=
  match errors with
  | [] => None
  | _ =>
      Some (mkResponse 400
              (JObj [("success", JBool false);
                     ("error", JStr "Errores de validación");
                     ("details", JArr (map error_json errors))]))
  end.


Section WithValidatorJs.
(** [isEmail] and [normalizeEmail] of validator.js *)
Variable isEmail : string -> bool.
Variable normalizeEmail : string -> string.

End WithValidatorJs.

Record UpdateContactBody : Type := mkUpdateContactBody {
  ub_status : option string;
  ub_adminNotes : option string;
  ub_isRead : option string
}.

Definition update_statuses : list string :=
  ["PENDING"; "IN_PROGRESS"; "RESOLVED"; "CLOSED"].

(** [validateUpdateContact] *)
Definition validateUpdateContact (b : UpdateContactBody) : list ValidationError :=
  let e_status :=
    match ub_status b with
    | Some s => check (isIn update_statuses s) "status" "Estado inválido" (Some s)
    | None => []
    end in
  let e_isRead :=
    match ub_isRead b with
    | Some s => check (isBoolean s) "isRead"
                      "isRead debe ser un valor booleano" (Some s)
    | None => []
    end in
  e_status ++ e_isRead.






End Validators.

(* ------------------------------------------------------------------ *)
(** * Contact routes, [routes/contacts.js] *)

Module ContactRoutes.
Import Validators.

Definition set_contacts (db : Db) (l : list Contact) (next : nat) : Db :=
  mkDb (users db) (refreshTokens db) (projects db) l next.



Section WithValidatorJs.
Variable isEmail : string -> bool.
Variable normalizeEmail : string -> string.

End WithValidatorJs.

(** The [data] of a contact update: the fields it sets. *)
Record UpdateData : Type := mkUpdateData {
  upd_status : option string;
  upd_respondedAt : option Z;
  upd_adminNotes : option string;
  upd_updatedAt : Z
}.

Definition apply_update (d : UpdateData) (c : Contact) : Contact :=
  mkContact (c_id c) (c_name c) (c_email c) (c_subject c) (c_message c)
    (c_phone c)
    (match upd_status d with Some s => s | None => c_status c end)
    (match upd_adminNotes d with Some n => Some n | None => c_adminNotes c end)
    (match upd_respondedAt d with Some t => Some t | None => c_respondedAt c end)
    (c_createdAt c) (upd_updatedAt d).

Definition findContact (db : Db) (id : nat) : option Contact :=
  find (fun c => c_id c =? id) (contacts db).

(** [prisma.contact.update({ where: { id }, data })] *)
Definition updateContact (db : Db) (id : nat) (d : UpdateData) : Db :=
  set_contacts db
    (map (fun c => if c_id c =? id then apply_update d c else c) (contacts db))
    (nextId db).

(** [prisma.contact.updateMany({ where: { id: { in: ids } }, data })] *)
Definition updateManyContacts (db : Db) (ids : list nat) (d : UpdateData) : Db :=
  set_contacts db
    (map (fun c => if existsb (Nat.eqb (c_id c)) ids then apply_update d c else c)
         (contacts db))
    (nextId db).

Definition contact_json (c : Contact) : Json :=
  JObj [("id", JId (c_id c)); ("name", JStr (c_name c));
        ("email", JStr (c_email c)); ("subject", jopt (c_subject c));
        ("message", JStr (c_message c)); ("phone", jopt (c_phone c));
        ("status", JStr (c_status c)); ("createdAt", JDate (c_createdAt c));
        ("updatedAt", JDate (c_updatedAt c));
        ("respondedAt", match c_respondedAt c with
                        | Some t => JDate t
                        | None => JNull
                        end);
        ("adminNotes", jopt (c_adminNotes c))].

Definition not_found : Response := fail 404 "Mensaje de contacto no encontrado".

(** The [updateData] that [PUT /api/contacts/:id] builds. *)
Definition putUpdateData (b : UpdateContactBody) (now : Z) : UpdateData :=
  let respondedAt :=
    if truthy (ub_status b) then
      if String.eqb (toString (ub_status b)) "RESPONDED" then Some now else None
    else None in
  mkUpdateData (if truthy (ub_status b) then ub_status b else None)
               respondedAt (ub_adminNotes b) now.

(** The handler of [PUT /api/contacts/:id]. *)
Definition putContactHandler (db : Db) (id : nat) (b : UpdateContactBody)
           (now : Z) : Response * Db :=
  match findContact db id with
  | None => (not_found, db)
  | Some _ =>
      let db' := updateContact db id (putUpdateData b now) in
      (mkResponse 200
         (JObj [("success", JBool true);
                ("message", JStr "Mensaje de contacto actualizado exitosamente");
                ("data", JObj [("contact",
                                match findContact db' id with
                                | Some c => contact_json c
                                | None => JNull
                                end)])]),
       db')
  end.

(** [PUT /api/contacts/:id], after [authenticate] and [requireAdmin]:
    [validateUpdateContact], then the handler. *)
Definition putContact (db : Db) (id : nat) (b : UpdateContactBody) (now : Z)
  : Response * Db :=
  match handleValidationErrors (validateUpdateContact b) with
  | Some r => (r, db)
  | None => putContactHandler db id b now
  end.

Definition patch_statuses : list string :=
  ["PENDING"; "IN_PROGRESS"; "RESPONDED"; "ARCHIVED"].

(** The [updateData] that [PATCH /api/contacts/:id/status] builds for a
    contact whose stored status is [stored]. *)
Definition patchUpdateData (status stored : string) (now : Z) : UpdateData :=
  mkUpdateData (Some status)
    (if String.eqb status "RESPONDED" && negb (String.eqb stored "RESPONDED")
     then Some now else None)
    None now.

(** [PATCH /api/contacts/:id/status], after [authenticate],
    [requireAdmin] and [validateId]. *)
Definition patchStatus (db : Db) (id : nat) (status : option string) (now : Z)
  : Response * Db :=
  if negb (truthy status) || negb (isIn patch_statuses (toString status)) then
    (fail 400 "Estado inválido. Debe ser: PENDING, IN_PROGRESS, RESPONDED, o ARCHIVED",
     db)
  else
    match findContact db id with
    | None => (not_found, db)
    | Some contact =>
        let db' := updateContact db id
                     (patchUpdateData (toString status) (c_status contact) now) in
        (mkResponse 200
           (JObj [("success", JBool true);
                  ("message", JStr ("Estado del mensaje cambiado a " ++ toString status));
                  ("data", JObj [("contact",
                                  match findContact db' id with
                                  | Some c =>
                                      JObj [("id", JId (c_id c));
                                            ("name", JStr (c_name c));
                                            ("email", JStr (c_email c));
                                            ("subject", jopt (c_subject c));
                                            ("status", JStr (c_status c));
                                            ("respondedAt",
                                             match c_respondedAt c with
                                             | Some t => JDate t
                                             | None => JNull
                                             end)]
                                  | None => JNull
                                  end)])]),
         db')
    end.

(** The [updateData] that [POST /api/contacts/bulk-update] builds. *)
Definition bulkUpdateData (status : string) (adminNotes : option string)
           (now : Z) : UpdateData :=
  mkUpdateData (Some status)
    (if String.eqb status "RESPONDED" then Some now else None)
    (if truthy adminNotes then adminNotes else None) now.

Definition updatedCount (db : Db) (ids : list nat) : nat :=
  length (filter (fun c => existsb (Nat.eqb (c_id c)) ids) (contacts db)).

(** [POST /api/contacts/bulk-update], after [authenticate] and
    [requireAdmin]; [contactIds] is [None] when the field is no array. *)
Definition bulkUpdate (db : Db) (contactIds : option (list nat))
           (status adminNotes : option string) (now : Z) : Response * Db :=
  match contactIds with
  | None | Some [] => (fail 400 "Se requiere un array de IDs de contactos", db)
  | Some ids =>
      if negb (truthy status) || negb (isIn patch_statuses (toString status)) then
        (fail 400 "Estado inválido", db)
      else
        (mkResponse 200
           (JObj [("success", JBool true);
                  ("message",
                   JStr (decimal (updatedCount db ids)
                         ++ " mensajes de contacto actualizados exitosamente"));
                  ("data", JObj [("updatedCount",
                                  JNum (Z.of_nat (updatedCount db ids)))])]),
         updateManyContacts db ids
           (bulkUpdateData (toString status) adminNotes now))
  end.

(** [GET /api/contacts/:id], after [authenticate], [requireAdmin] and
    [validateId]. *)
Definition getContact (db : Db) (id : nat) : Response :=
  match findContact db id with
  | None => not_found
  | Some contact =>
      mkResponse 200
        (JObj [("success", JBool true);
               ("data", JObj [("contact", contact_json contact)])])
  end.

(** [DELETE /api/contacts/:id], after [authenticate], [requireAdmin] and
    [validateId]. *)
Definition deleteContact (db : Db) (id : nat) : Response * Db :=
  match findContact db id with
  | None => (not_found, db)
  | Some _ =>
      (mkResponse 200
         (JObj [("success", JBool true);
                ("message", JStr "Mensaje de contacto eliminado exitosamente")]),
       set_contacts db (deleteMany (fun c => c_id c =? id) (contacts db))
                    (nextId db))
  end.

(** [req.query] of [GET /api/contacts] *)
Record ContactQuery : Type := mkContactQuery {
  cq_page : option string;
  cq_limit : option string;
  cq_search : option string;
  cq_status : option string
}.

Definition contains_opt (search : string) (field : option string) : bool :=
  match field with
  | Some f => contains_insensitive search f
  | None => false
  end.

(** The [where] of [GET /api/contacts]; [status], when given, names a
    value of the status column. *)
Definition contactWhere (q : ContactQuery) (c : Contact) : bool :=
  (if truthy (cq_status q) then String.eqb (c_status c) (toString (cq_status q))
   else true)
  && (if truthy (cq_search q) then
        contains_insensitive (toString (cq_search q)) (c_name c)
        || contains_insensitive (toString (cq_search q)) (c_email c)
        || contains_opt (toString (cq_search q)) (c_subject c)
        || contains_insensitive (toString (cq_search q)) (c_message c)
      else true).

(** [prisma.contact.groupBy({ by: ['status'], _count: { status: true } })]:
    one row for each status that occurs, with the number of contacts
    that have it. *)
Definition countStatus (s : string) (rows : list Contact) : nat :=
  length (filter (fun c => String.eqb (c_status c) s) rows).

Definition groupByStatus (rows : list Contact) : list (string * nat) :=
  map (fun s => (s, countStatus s rows)) (nodup string_dec (map c_status rows)).

(** [stats.reduce((acc, stat) => { acc[stat.status] = stat._count.status;
    return acc }, {})] *)
Definition statusStats (rows : list Contact) : Json :=
  JObj (map (fun g => (fst g, JNum (Z.of_nat (snd g)))) (groupByStatus rows)).

Section WithStatusOrder.
(** The order of the status column, which the schema declares. *)
Variable status_before : string -> string -> bool.

(** [orderBy: [{ status: 'asc' }, { createdAt: 'desc' }]] *)
Definition contactOrder (a b : Contact) : bool :=
  if String.eqb (c_status a) (c_status b)
  then (c_createdAt b <=? c_createdAt a)%Z
  else status_before (c_status a) (c_status b).

(** [GET /api/contacts], after [authenticate], [requireAdmin] and
    [validatePagination]. *)
Definition listContacts (db : Db) (q : ContactQuery) : Response :=
  let page := ProjectRoutes.int_or (cq_page q) 1 in
  let limit := ProjectRoutes.int_or (cq_limit q) 10 in
  let skip := ((page - 1) * limit)%Z in
  let contacts_ :=
    firstn (Z.to_nat limit)
           (skipn (Z.to_nat skip)
                  (findMany (contactWhere q) contactOrder (contacts db))) in
  let total := Z.of_nat (length (filter (contactWhere q) (contacts db))) in
  let totalPages := ProjectRoutes.ceil_div total limit in
  mkResponse 200
    (JObj [("success", JBool true);
           ("data", JObj [
              ("contacts", JArr (map contact_json contacts_));
              ("pagination",
               JObj [("page", JNum page); ("limit", JNum limit);
                     ("total", JNum total); ("totalPages", JNum totalPages);
                     ("hasNext", JBool (page <? totalPages)%Z);
                     ("hasPrev", JBool (1 <? page)%Z)]);
              ("stats", statusStats (contacts db))])]).
End WithStatusOrder.

End ContactRoutes.

(* ------------------------------------------------------------------ *)
(** * The API client, [js/api.js]

    A JavaScript value is [Some j], or [None] for [undefined].  The
    network is the environment: it answers each request, and may answer
    the same request differently later, so it sees the requests sent so
    far. *)

Module ApiClient.

Definition Value : Type := option Json.

Definition value_truthy (v : Value) : bool :=
  match v with
  | None => false
  | Some JNull => false
  | Some (JBool b) => b
  | Some (JNum z) => negb (z =? 0)%Z
  | Some (JStr EmptyString) => false
  | Some (JTok (Jwt.Malformed EmptyString)) => false
  | Some _ => true
  end.

Inductive HeaderValue : Type :=
| HStr (s : string)
| HBearer (token : Value).          (* [`Bearer ${token}`] *)

Definition Headers : Type := list (string * HeaderValue).

Definition header (name : string) (h : Headers) : option HeaderValue :=
  match find (fun kv => String.eqb (fst kv) name) h with
  | Some kv => Some (snd kv)
  | None => None
  end.

(** [h[name] = v] *)
Definition set_header (name : string) (v : HeaderValue) (h : Headers) : Headers :=
  if existsb (fun kv => String.eqb (fst kv) name) h then
    map (fun kv => if String.eqb (fst kv) name then (name, v) else kv) h
  else h ++ [(name, v)].

Definition header_truthy (v : option HeaderValue) : bool :=
  match v with
  | None => false
  | Some (HStr EmptyString) => false
  | Some _ => true
  end.

(** The second argument of [fetch]. *)
Record Config : Type := mkConfig {
  cfg_headers : Headers;
  cfg_method : option string;
  cfg_body : option Json
}.

(** The [options] of [request]. *)
Record Options : Type := mkOptions {
  opt_headers : option Headers;
  opt_method : option string;
  opt_body : option Json
}.

Record Request : Type := mkRequest { req_url : string; req_config : Config }.

(** What [fetch] resolves to; [f_json] is [None] when the body is not
    JSON, so that [response.json()] rejects. *)
Record FetchResponse : Type := mkFetchResponse {
  f_status : nat;
  f_json : option Json
}.

(** [response.ok] *)
Definition f_ok (r : FetchResponse) : bool :=
  (200 <=? f_status r) && (f_status r <=? 299).

Definition Network : Type := list Request -> Request -> Result FetchResponse.

(** An item of [localStorage]: [Some v] holds [String(v)]. *)
Record Storage : Type := mkStorage {
  ls_accessToken : option Value;
  ls_refreshToken : option Value
}.

Record Client : Type := mkClient {
  baseURL : string;
  accessToken : Value;
  refreshToken : Value;
  localStorage : Storage;
  sent : list Request          (* every request given to [fetch], in order *)
}.

Section WithNetwork.
Variable net : Network.

Definition fetch (c : Client) (url : string) (config : Config)
  : Result FetchResponse * Client :=
  let req := mkRequest url config in
  (net (sent c) req,
   mkClient (baseURL c) (accessToken c) (refreshToken c) (localStorage c)
            (sent c ++ [req])).

Definition setTokens (c : Client) (a r : Value) : Client :=
  mkClient (baseURL c) a r (mkStorage (Some a) (Some r)) (sent c).

Definition clearTokens (c : Client) : Client :=
  mkClient (baseURL c) (Some JNull) (Some JNull) (mkStorage None None) (sent c).

Definition TypeError : JsError :=
  mkError "TypeError" "Cannot read properties of undefined".

(** [v.key] *)
Definition prop (v : Value) (key : string) : Result Value :=
  match v with
  | None | Some JNull => Throw TypeError
  | Some j => Ok (jget key j)
  end.

Definition renewConfig (c : Client) : Config :=
  mkConfig [("Content-Type", HStr "application/json")] (Some "POST")
           (Some (JObj (match refreshToken c with
                        | Some v => [("refreshToken", v)]
                        | None => []
                        end))).

(** How [renewToken] reads a successful response:
    [data.data.accessToken] and [data.data.refreshToken]. *)
Definition read_tokens (r : FetchResponse) : Result (Value * Value) :=
  match f_json r with
  | None => Throw (mkError "SyntaxError" "Unexpected token")
  | Some data =>
      let* d := prop (Some data) "data" in
      let* a := prop d "accessToken" in
      let* r := prop d "refreshToken" in
      Ok (a, r)
  end.

Definition renewToken (c : Client) : bool * Client :=
  match fetch c (baseURL c ++ "/auth/refresh")%string (renewConfig c) with
  | (Throw _, c1) => (false, clearTokens c1)
  | (Ok response, c1) =>
      if f_ok response then
        match read_tokens response with
        | Ok (a, r) => (true, setTokens c1 a r)
        | Throw _ => (false, clearTokens c1)
        end
      else (false, clearTokens c1)
  end.

Definition default_headers : Headers :=
  [("Content-Type", HStr "application/json")].

(** [{ headers: { 'Content-Type': ..., ...options.headers }, ...options }]:
    the [headers] of [options], when given, replace the merged ones. *)
Definition make_config (o : Options) : Config :=
  mkConfig (match opt_headers o with
            | Some h => h
            | None => default_headers
            end)
           (opt_method o) (opt_body o).

Definition with_authorization (c : Client) (config : Config) : Config :=
  mkConfig (set_header "Authorization" (HBearer (accessToken c))
                       (cfg_headers config))
           (cfg_method config) (cfg_body config).

(** The configuration of the first [fetch]. *)
Definition first_config (c : Client) (o : Options) : Config :=
  let config := make_config o in
  if value_truthy (accessToken c)
     && negb (header_truthy (header "Authorization" (cfg_headers config)))
  then with_authorization c config
  else config.

(** [request(endpoint, options)]: the response, or the error that
    [fetch] threw. *)
Definition request (c : Client) (endpoint : string) (o : Options)
  : Result FetchResponse * Client :=
  let url := (baseURL c ++ endpoint)%string in
  let config := first_config c o in
  match fetch c url config with
  | (Throw e, c1) => (Throw e, c1)
  | (Ok response, c1) =>
      if (f_status response =? 401) && value_truthy (refreshToken c1) then
        let '(renewed, c2) := renewToken c1 in
        if renewed then fetch c2 url (with_authorization c2 config)
        else (Ok response, c2)
      else (Ok response, c1)
  end.
(** [isAuthenticated()] *)
Definition isAuthenticated (c : Client) : bool := value_truthy (accessToken c).

(** [await response.json()] *)
Definition json (r : FetchResponse) : Result Json :=
  match f_json r with
  | Some j => Ok j
  | None => Throw (mkError "SyntaxError" "Unexpected token")
  end.

(** The string [JSON.stringify] makes of an object with the given
    fields: a field whose value is [undefined] is left out. *)
Definition stringify (fields : list (string * Value)) : Json :=
  JObj (flat_map (fun kv => match snd kv with
                            | Some v => [(fst kv, v)]
                            | None => []
                            end) fields).

(** [login(email, password)]: the parsed body, or the error thrown. *)
Definition login (c : Client) (email password : string) : Result Json * Client :=
  match request c "/auth/login"
          (mkOptions None (Some "POST")
             (Some (stringify [("email", Some (JStr email));
                               ("password", Some (JStr password))]))) with
  | (Throw e, c1) => (Throw e, c1)
  | (Ok response, c1) =>
      match json response with
      | Throw e => (Throw e, c1)
      | Ok result =>
          if f_ok response then
            match prop (Some result) "success" with
            | Throw e => (Throw e, c1)
            | Ok success =>
                if value_truthy success then
                  match (let* d := prop (Some result) "data" in
                         let* a := prop d "accessToken" in
                         let* d' := prop (Some result) "data" in
                         let* r := prop d' "refreshToken" in
                         Ok (a, r)) with
                  | Ok (a, r) => (Ok result, setTokens c1 a r)
                  | Throw e => (Throw e, c1)
                  end
                else (Ok result, c1)
            end
          else (Ok result, c1)
      end
  end.

(** [register(userData)] *)
Definition register (c : Client) (userData : Json) : Result Json * Client :=
  match request c "/auth/register" (mkOptions None (Some "POST") (Some userData)) with
  | (Throw e, c1) => (Throw e, c1)
  | (Ok response, c1) => (json response, c1)
  end.

(** [logout()]: the request in a [try], its error swallowed, and
    [clearTokens] in the [finally]. *)
Definition logout (c : Client) : Client :=
  let '(_, c1) :=
    request c "/auth/logout"
      (mkOptions None (Some "POST")
         (Some (stringify [("refreshToken", refreshToken c)]))) in
  clearTokens c1.

(** [getProfile()] *)
Definition getProfile (c : Client) : Result Json * Client :=
  match request c "/auth/me" (mkOptions None None None) with
  | (Throw e, c1) => (Throw e, c1)
  | (Ok response, c1) => (json response, c1)
  end.

End WithNetwork.

(** A server response as [fetch] delivers it. *)
Definition delivered (r : Response) : FetchResponse :=
  mkFetchResponse (status r) (Some (body r)).

End ApiClient.


(* ------------------------------------------------------------------ *)
(** * The routes with their middleware, as the routers register them *)

Module Server.
Section WithEnv.
Variable env : Env.

(** [authenticate, handler] *)
Definition authenticated (db : Db) (authHeader : AuthHeader) (now : Z)
           (handler : User -> Response * Db) : Response * Db :=
  match AuthMiddleware.authenticate env db authHeader now with
  | inl response => (response, db)
  | inr reqUser => handler reqUser
  end.

(** [authenticate, requireAdmin, handler] *)
Definition adminOnly (db : Db) (authHeader : AuthHeader) (now : Z)
           (handler : User -> Response * Db) : Response * Db :=
  authenticated db authHeader now
    (fun reqUser =>
       match AuthMiddleware.requireAdmin reqUser with
       | Some response => (response, db)
       | None => handler reqUser
       end).



(** [router.delete('/:id', authenticate, requireAdmin, validateId, handler)]
    of the project router *)
Definition deleteProject (db : Db) (authHeader : AuthHeader) (id : nat) (now : Z)
  : Response * Db :=
  adminOnly db authHeader now (fun _ => ProjectRoutes.deleteProject db id now).

(** [router.patch('/:id/toggle-featured', authenticate, requireAdmin,
    validateId, handler)] *)
Definition toggleFeatured (db : Db) (authHeader : AuthHeader) (id : nat) (now : Z)
  : Response * Db :=
  adminOnly db authHeader now (fun _ => ProjectRoutes.toggleFeatured db id now).

(** [router.get('/:id', authenticate, requireAdmin, validateId, handler)]
    of the contact router *)
Definition getContact (db : Db) (authHeader : AuthHeader) (id : nat) (now : Z)
  : Response * Db :=
  adminOnly db authHeader now (fun _ => (ContactRoutes.getContact db id, db)).

(** [router.put('/:id', authenticate, requireAdmin, validateUpdateContact,
    handler)] *)
Definition putContact (db : Db) (authHeader : AuthHeader) (id : nat)
           (b : Validators.UpdateContactBody) (now : Z) : Response * Db :=
  adminOnly db authHeader now (fun _ => ContactRoutes.putContact db id b now).

(** [router.delete('/:id', authenticate, requireAdmin, validateId, handler)]
    of the contact router *)
Definition deleteContact (db : Db) (authHeader : AuthHeader) (id : nat) (now : Z)
  : Response * Db :=
  adminOnly db authHeader now (fun _ => ContactRoutes.deleteContact db id).

(** [router.patch('/:id/status', authenticate, requireAdmin, validateId,
    handler)] *)
Definition patchStatus (db : Db) (authHeader : AuthHeader) (id : nat)
           (status : option string) (now : Z) : Response * Db :=
  adminOnly db authHeader now (fun _ => ContactRoutes.patchStatus db id status now).

(** [router.post('/bulk-update', authenticate, requireAdmin, handler)] *)
Definition bulkUpdate (db : Db) (authHeader : AuthHeader)
           (contactIds : option (list nat)) (status adminNotes : option string)
           (now : Z) : Response * Db :=
  adminOnly db authHeader now
    (fun _ => ContactRoutes.bulkUpdate db contactIds status adminNotes now).

(** [router.post('/logout', authenticate, handler)] *)
Definition logout (db : Db) (authHeader : AuthHeader)
           (refreshToken : option Jwt.Token) (now : Z) : Response * Db :=
  authenticated db authHeader now
    (fun reqUser => AuthRoutes.logout db reqUser refreshToken).

(** [router.get('/me', authenticate, handler)] *)
Definition me (db : Db) (authHeader : AuthHeader) (now : Z) : Response * Db :=
  authenticated db authHeader now (fun reqUser => (AuthRoutes.me db reqUser, db)).

End WithEnv.
End Server.
(* ================================================================== *)
(** * Vocabulary of the properties *)

(** No stored record carries the token [t]: it was never stored, or its
    record has been deleted. *)
Definition token_absent (db : Db) (t : Jwt.Token) : Prop :=
  forall r, In r (refreshTokens db) -> rt_token r <> t.

(** The stored record of [t] has its [expiresAt] in the past. *)
Definition token_expired (db : Db) (t : Jwt.Token) (now : Z) : Prop :=
  exists r, In r (refreshTokens db) /\ rt_token r = t /\ (rt_expiresAt r < now)%Z.

(** The unique constraint on the [token] column. *)
Definition tokens_unique (db : Db) : Prop :=
  NoDup (map rt_token (refreshTokens db)).

(** A computation fails with an error of the given kind. *)
Definition fails_with {A : Type} (r : Result A) (kind : string) : Prop :=
  exists e, r = Throw e /\ err_name e = kind.

(** The three checks of a token verification, as the specification lists
    them: the signature under the configured secret, the issuer and
    audience claims, and the expiry.  The payload when all pass. *)
Definition checks_pass (secret : option string) (t : Jwt.Token) (now : Z)
  : option Jwt.Payload :=
  match secret, t with
  | Some key, Jwt.Signed k p =>
      if truthy secret
         && String.eqb k key
         && Jwt.opt_matches (Some TokenService.portfolio_issuer) (Jwt.iss p)
         && Jwt.opt_matches (Some TokenService.portfolio_audience) (Jwt.aud p)
         && (Jwt.clock now <? Jwt.exp p)%Z
      then Some p else None
  | _, _ => None
  end.

(** ** Sample data *)

(** The spans of the default configuration. *)
Definition sample_ms (s : string) : option Z :=
  if String.eqb s "15m" then Some 900%Z
  else if String.eqb s "24h" then Some 86400%Z
  else if String.eqb s "7d" then Some 604800%Z
  else None.

Definition sample_env : Env :=
  mkEnv (Some "access-secret") (Some "refresh-secret") (Some "refresh-secret-2")
        None None None.

Definition ana : User :=
  mkUser 1 "Ana" "ana@x.com" "digest-of-Abcdef1" USER true 0 0.

(** The access token [generateAccessToken] signs for Ana at instant 0. *)
Definition ana_access : Jwt.Token :=
  Jwt.Signed "access-secret"
    (Jwt.mkPayload 1 (Some "ana@x.com") (Some USER) (Some "Ana") None
       (Some "joseluiscastro-portfolio") (Some "portfolio-users") 0 900).

(** The same payload signed under another key. *)
Definition forged_access : Jwt.Token :=
  Jwt.Signed "guessed-secret"
    (Jwt.mkPayload 1 (Some "ana@x.com") (Some USER) (Some "Ana") None
       (Some "joseluiscastro-portfolio") (Some "portfolio-users") 0 900).

(** The refresh token [generateRefreshToken] signs for Ana at instant 0. *)
Definition ana_refresh : Jwt.Token :=
  Jwt.Signed "refresh-secret"
    (Jwt.mkPayload 1 (Some "ana@x.com") None None (Some "refresh")
       (Some "joseluiscastro-portfolio") (Some "portfolio-users") 0 604800).

Definition forged_refresh : Jwt.Token :=
  Jwt.Signed "guessed-secret"
    (Jwt.mkPayload 1 (Some "ana@x.com") None None (Some "refresh")
       (Some "joseluiscastro-portfolio") (Some "portfolio-users") 0 604800).

(** The refresh token the login route signs for user [uid] at [now]. *)
Definition route_refresh (uid : nat) (now : Z) : Jwt.Token :=
  Jwt.Signed "refresh-secret-2"
    (Jwt.mkPayload uid None None None None None None (now / 1000)
       (now / 1000 + 604800)).

(** A database that holds Ana and one refresh token of hers, stored at
    instant 0 with an expiry of one second. *)
Definition db_stale : Db :=
  mkDb [ana] [mkRefreshToken 2 (route_refresh 1 0) 1 1000 0] [] [] 3.


(** The rows over which [GET /api/projects/admin/all] paginates: what its
    [where] selects, in the order of the listing.  A page is a slice of
    these rows and [total] is their number. *)
Definition admin_result_set (db : Db) (q : ProjectRoutes.Query) : list Project :=
  findMany (ProjectRoutes.adminWhere q) ProjectRoutes.listOrder (projects db).


(** The primary key of the project table. *)
Definition project_ids_unique (db : Db) : Prop :=
  NoDup (map p_id (projects db)).

(** Two projects, the second one soft-deleted. *)
Definition old_demo : Project :=
  mkProject 11 "Old demo" "A retired demo" None None None ["java"]
            true false 1 1 0 0.

Definition db_projects : Db :=
  mkDb [ana] []
       [mkProject 10 "Portfolio" "A personal site" None None None ["js"]
                  true true 0 1 0 0;
        old_demo]
       [] 12.






(** [o.k1.k2...], [None] as soon as a step is [undefined]. *)
Fixpoint jpath (keys : list string) (o : Json) : option Json :=
  match keys with
  | [] => Some o
  | k :: keys' =>
      match jget k o with
      | Some v => jpath keys' v
      | None => None
      end
  end.

(** One contact message waiting for an answer. *)
Definition db_contact : Db :=
  mkDb [] [] []
       [mkContact 7 "Ana" "ana@x.com" None "Hello, is anybody there?" None
                  "PENDING" None None 0 0]
       8.


(** Ana and a refresh token of hers that the login route stored at
    instant 0. *)
Definition db_session : Db :=
  mkDb [ana] [mkRefreshToken 2 (route_refresh 1 0) 1 604800000 0] [] [] 3.

(** The request [renewToken] sends. *)
Definition renew_request (c : ApiClient.Client) : ApiClient.Request :=
  ApiClient.mkRequest (ApiClient.baseURL c ++ "/auth/refresh")%string
                      (ApiClient.renewConfig c).

(** A client that holds an expired access token and the stored refresh
    token. *)
Definition client_session : ApiClient.Client :=
  ApiClient.mkClient "/api" (Some (JStr "stale-access-token"))
    (Some (JTok (route_refresh 1 0)))
    (ApiClient.mkStorage (Some (Some (JStr "stale-access-token")))
                         (Some (Some (JTok (route_refresh 1 0)))))
    [].

(** The first request of [request(endpoint, options)]. *)
Definition first_request (c : ApiClient.Client) (endpoint : string)
           (o : ApiClient.Options) : ApiClient.Request :=
  ApiClient.mkRequest (ApiClient.baseURL c ++ endpoint)%string
                      (ApiClient.first_config c o).

(** The same request again, with the bearer token [a]. *)
Definition retry_request (c : ApiClient.Client) (endpoint : string)
           (o : ApiClient.Options) (a : ApiClient.Value) : ApiClient.Request :=
  ApiClient.mkRequest (ApiClient.baseURL c ++ endpoint)%string
    (ApiClient.mkConfig
       (ApiClient.set_header "Authorization" (ApiClient.HBearer a)
          (ApiClient.cfg_headers (ApiClient.first_config c o)))
       (ApiClient.cfg_method (ApiClient.first_config c o))
       (ApiClient.cfg_body (ApiClient.first_config c o))).

(** The renewal round trip succeeds after the requests [log]: the server
    answers it with a 2xx response from which both tokens can be read. *)
Definition renewal_succeeds (net : ApiClient.Network) (log : list ApiClient.Request)
           (c : ApiClient.Client) (a r : ApiClient.Value) : Prop :=
  exists response,
    net log (renew_request c) = Ok response /\
    ApiClient.f_ok response = true /\
    ApiClient.read_tokens response = Ok (a, r).

(** The renewal round trip fails: [fetch] throws, or the response is not
    2xx, or the tokens cannot be read from it. *)
Definition renewal_fails (net : ApiClient.Network) (log : list ApiClient.Request)
           (c : ApiClient.Client) : Prop :=
  match net log (renew_request c) with
  | Throw _ => True
  | Ok response =>
      ApiClient.f_ok response = false \/
      exists e, ApiClient.read_tokens response = Throw e
  end.

(** A server whose first answer is 401, whose second answer is that of
    the refresh route for the stored session, and which answers 200 from
    then on. *)
Definition net_renewing : ApiClient.Network :=
  fun log _ =>
    match length log with
    | 0 => Ok (ApiClient.delivered (fail 401 "Token expirado"))
    | 1 => Ok (ApiClient.delivered
                 (fst (AuthRoutes.refresh sample_ms sample_env db_session
                         (Some (route_refresh 1 0)) 60000)))
    | _ => Ok (ApiClient.mkFetchResponse 200 (Some (JObj [("success", JBool true)])))
    end.

(** A server that answers 401 to everything. *)
Definition net_refusing : ApiClient.Network :=
  fun _ _ => Ok (ApiClient.delivered (fail 401 "Refresh token inválido")).

Definition no_options : ApiClient.Options := ApiClient.mkOptions None None None.

(** The access token the refresh route signs for Ana at one minute. *)
Definition renewed_access : Jwt.Token :=
  Jwt.Signed "access-secret"
    (Jwt.mkPayload 1 None None None None None None 60 86460).

(** The refresh-token records of the account [u]. *)
Definition tokensOf (db : Db) (u : nat) : list RefreshToken :=
  filter (TokenService.owned_by u) (refreshTokens db).

(** A record is live at [now]: its expiry is still ahead. *)
Definition live (now : Z) (r : RefreshToken) : Prop := (now < rt_expiresAt r)%Z.

(** The live records of the account [u] at [now]. *)
Definition liveTokensOf (db : Db) (u : nat) (now : Z) : list RefreshToken :=
  filter (fun r => (now <? rt_expiresAt r)%Z) (tokensOf db u).

(** The primary key of the refresh-token table: identifiers are distinct
    and were all drawn from the counter. *)
Definition ids_ok (db : Db) : Prop :=
  NoDup (map rt_id (refreshTokens db)) /\
  forall r, In r (refreshTokens db) -> rt_id r < nextId db.

(** One issuance: the token, its expiry and the instant of the call. *)
Record Issuance : Type := mkIssuance {
  i_token : Jwt.Token;
  i_expiresAt : Z;
  i_at : Z
}.

(** What a stored record tells about its issuance. *)
Definition issuance_of (r : RefreshToken) : Issuance :=
  mkIssuance (rt_token r) (rt_expiresAt r) (rt_createdAt r).

(** [saveRefreshToken] for each issuance in turn, for the account [u]. *)
Fixpoint saveAll (db : Db) (u : nat) (l : list Issuance) : Db :=
  match l with
  | [] => db
  | i :: l' =>
      saveAll (snd (TokenService.saveRefreshToken db u (i_token i)
                      (Some (i_expiresAt i)) (i_at i))) u l'
  end.

(** The instants of the issuances increase strictly, starting after [t]. *)
Fixpoint increasing_from (t : Z) (l : list Issuance) : Prop :=
  match l with
  | [] => True
  | i :: l' => (t < i_at i)%Z /\ increasing_from (i_at i) l'
  end.

(** The last [n] elements of a list. *)
Definition keep_last {A : Type} (n : nat) (l : list A) : list A :=
  skipn (length l - n) l.

(** The records are in strictly ascending order of creation. *)
Fixpoint ascending (l : list RefreshToken) : Prop :=
  match l with
  | [] => True
  | a :: l' =>
      (forall b, In b l' -> (rt_createdAt a < rt_createdAt b)%Z) /\ ascending l'
  end.

(** The table as [saveRefreshToken] leaves it just before it stores the
    new record: without the expired records of the account and, at five
    or more records, without all but its four newest. *)
Definition pruned_rows (rows : list RefreshToken) (u : nat) (now : Z)
  : list RefreshToken :=
  let rows1 := deleteMany (TokenService.expired_of u now) rows in
  let existingTokens :=
    findMany (TokenService.owned_by u) TokenService.newer_first rows1 in
  if 5 <=? length existingTokens then
    deleteMany (TokenService.id_in (map rt_id (skipn 4 existingTokens))) rows1
  else rows1.

(** The invariant of repeated issuance for the account [u], up to the
    instant [T].  The records of [u] are some older ones followed by
    [news], the records issued recently, in the order of issuance; all
    were created by the instant [c]; the recent ones expire after [T];
    there are at most five recent ones, and once there are five no older
    record is left. *)
Definition cap_inv (u : nat) (T : Z) (db : Db) (news : list RefreshToken) (c : Z)
  : Prop :=
  ids_ok db /\
  exists olds,
    tokensOf db u = olds ++ news /\
    (forall o n, In o olds -> In n news -> (rt_createdAt o < rt_createdAt n)%Z) /\
    ascending news /\
    (forall r, In r (olds ++ news) -> (rt_createdAt r <= c)%Z) /\
    (forall n, In n news -> (T < rt_expiresAt n)%Z) /\
    length news <= 5 /\
    (5 <= length news -> olds = []).

(** A stand-in for [bcrypt]. *)
Definition sample_hash (password : string) : string :=
  ("digest-of-" ++ password)%string.
Definition sample_compare (password digest : string) : bool :=
  String.eqb (sample_hash password) digest.

(** Ana is registered and holds no refresh token. *)
Definition db_ana : Db := mkDb [ana] [] [] [] 2.

Definition ana_login : AuthRoutes.LoginBody :=
  AuthRoutes.mkLoginBody "ana@x.com" "Abcdef1".

(** [POST /api/auth/login] with the same body at each of the instants in
    turn: the status of each answer, and the database in the end. *)
Fixpoint loginAll (db : Db) (b : AuthRoutes.LoginBody) (instants : list Z)
  : list nat * Db :=
  match instants with
  | [] => ([], db)
  | t :: rest =>
      let '(r, db1) :=
        AuthRoutes.login sample_ms sample_env sample_compare db b t in
      let '(statuses, db2) := loginAll db1 b rest in
      (status r :: statuses, db2)
  end.

(** Six issuances for Ana, one per second, each valid for a week. *)
Definition six_issuances : list Issuance :=
  map (fun t => mkIssuance (route_refresh 1 t) (t + 604800000)%Z t)
      [1000; 2000; 3000; 4000; 5000; 6000]%Z.

(** [generateTokenPair] for the same account at each of the instants in
    turn: the database in the end. *)
Fixpoint pairAll (db : Db) (user : User) (instants : list Z) : Db :=
  match instants with
  | [] => db
  | t :: rest =>
      pairAll (snd (TokenService.generateTokenPair sample_ms sample_env db user t))
              user rest
  end.

(** ** Vocabulary of the further properties *)

(** What [toggle-featured] writes: the featured flag of the
    project with the given identifier is flipped. *)
Definition flip_featured (id : nat) (now : Z) (p : Project) : Project :=
  if p_id p =? id
  then ProjectRoutes.set_featured (negb (p_isFeatured p)) now p
  else p.


(** A client that holds no token: [localStorage] has neither item. *)
Definition client_signed_out : ApiClient.Client :=
  ApiClient.mkClient "/api" (Some JNull) (Some JNull)
                     (ApiClient.mkStorage None None) [].

(** A network that delivers the response [r] to every request. *)
Definition net_delivering (r : Response) : ApiClient.Network :=
  fun _ _ => Ok (ApiClient.delivered r).

Definition eve_register : AuthRoutes.RegisterBody :=
  AuthRoutes.mkRegisterBody "Eve" "eve@x.com" "Abcdef1".
(* ================================================================== *)
(** * Facts about the building blocks *)

Section SortingFacts.
Variable A : Type.
Variable before : A -> A -> bool.

Lemma insert_sorted_In (x a : A) (l : list A) :
  In x (insert_sorted before a l) <-> x = a \/ In x l.
Proof.
  induction l as [|b l IH]; simpl.
  - intuition congruence.
  - destruct (before a b); simpl.
    + intuition congruence.
    + rewrite IH. intuition congruence.
Qed.

Lemma sort_by_In (x : A) (l : list A) : In x (sort_by before l) <-> In x l.
Proof.
  induction l as [|a l IH]; simpl.
  - tauto.
  - rewrite insert_sorted_In, IH. intuition congruence.
Qed.

Lemma insert_sorted_length (a : A) (l : list A) :
  length (insert_sorted before a l) = S (length l).
Proof.
  induction l as [|b l IH]; simpl; [reflexivity|].
  destruct (before a b); simpl; congruence.
Qed.

Lemma sort_by_length (l : list A) : length (sort_by before l) = length l.
Proof.
  induction l as [|a l IH]; simpl; [reflexivity|].
  now rewrite insert_sorted_length, IH.
Qed.

(** An element that goes before nothing in [l] ends up last. *)
Lemma insert_sorted_last (a : A) (l : list A) :
  Forall (fun b => before a b = false) l ->
  insert_sorted before a l = l ++ [a].
Proof.
  induction 1 as [|b l Hb _ IH]; simpl; [reflexivity|].
  now rewrite Hb, IH.
Qed.

(** An element that goes before nothing in the prefix [p] is inserted
    into the remainder. *)
Lemma insert_sorted_app (a : A) (p l : list A) :
  Forall (fun b => before a b = false) p ->
  insert_sorted before a (p ++ l) = p ++ insert_sorted before a l.
Proof.
  induction 1 as [|b p Hb _ IH]; simpl; [reflexivity|].
  now rewrite Hb, IH.
Qed.
End SortingFacts.

Lemma token_eqb_eq (a b : Jwt.Token) : Jwt.eqb a b = true <-> a = b.
Proof.
  unfold Jwt.eqb. destruct (Jwt.Token_eq_dec a b); intuition congruence.
Qed.

Lemma token_eqb_refl (a : Jwt.Token) : Jwt.eqb a a = true.
Proof. now apply token_eqb_eq. Qed.

Lemma token_eqb_neq (a b : Jwt.Token) : Jwt.eqb a b = false <-> a <> b.
Proof.
  unfold Jwt.eqb. destruct (Jwt.Token_eq_dec a b); intuition congruence.
Qed.

Section ListFacts.
Variable A : Type.

Lemma filter_idem (f : A -> bool) (l : list A) :
  filter f (filter f l) = filter f l.
Proof.
  induction l as [|a l IH]; simpl; [reflexivity|].
  destruct (f a) eqn:E; simpl; [rewrite E|]; congruence.
Qed.

Lemma filter_none (f : A -> bool) (l : list A) :
  (forall x, In x l -> f x = false) -> filter f l = [].
Proof.
  induction l as [|a l IH]; simpl; intros H; [reflexivity|].
  rewrite (H a (or_introl eq_refl)). apply IH. intros x Hx. apply H. now right.
Qed.

Lemma filter_all (f : A -> bool) (l : list A) :
  (forall x, In x l -> f x = true) -> filter f l = l.
Proof.
  induction l as [|a l IH]; simpl; intros H; [reflexivity|].
  rewrite (H a (or_introl eq_refl)). f_equal. apply IH. intros x Hx.
  apply H. now right.
Qed.

Lemma filter_filter (f g : A -> bool) (l : list A) :
  filter f (filter g l) = filter (fun x => g x && f x) l.
Proof.
  induction l as [|a l IH]; simpl; [reflexivity|].
  destruct (g a); simpl; [destruct (f a)|]; simpl; congruence.
Qed.

Lemma find_none_iff (f : A -> bool) (l : list A) :
  find f l = None <-> forall x, In x l -> f x = false.
Proof.
  split.
  - intros H x Hx. exact (find_none f l H x Hx).
  - induction l as [|a l IH]; simpl; intros H; [reflexivity|].
    rewrite (H a (or_introl eq_refl)). apply IH. intros x Hx. apply H. now right.
Qed.

Lemma NoDup_map_inj (B : Type) (f : A -> B) (l : list A) (x y : A) :
  NoDup (map f l) -> In x l -> In y l -> f x = f y -> x = y.
Proof.
  induction l as [|a l IH]; simpl; [tauto|].
  intros Hnd Hx Hy Hf. inversion Hnd as [|? ? Hnot Hnd']; subst.
  destruct Hx as [->|Hx], Hy as [->|Hy]; try reflexivity.
  - exfalso. apply Hnot. rewrite Hf. now apply in_map.
  - exfalso. apply Hnot. rewrite <- Hf. now apply in_map.
  - now apply IH.
Qed.
End ListFacts.

(* ================================================================== *)
(** * The expiry sweep *)

(** C6.  [cleanExpiredTokens] removes exactly the refresh-token records
    whose [expiresAt] is earlier than the current time: the table that
    remains is the old one without them, in the old order, every other
    table is untouched, and the number returned is the number of records
    removed.  Running it again at the same instant removes nothing,
    returns 0 and leaves the database as it is. *)
Theorem cleanExpiredTokens_exact_and_idempotent (db : Db) (now : Z) :
  let n := fst (TokenService.cleanExpiredTokens db now) in
  let db' := snd (TokenService.cleanExpiredTokens db now) in
  (forall r, In r (refreshTokens db') <->
             In r (refreshTokens db) /\ ~ (rt_expiresAt r < now)%Z) /\
  refreshTokens db' =
    filter (fun r => negb (rt_expiresAt r <? now)%Z) (refreshTokens db) /\
  n = length (filter (fun r => (rt_expiresAt r <? now)%Z) (refreshTokens db)) /\
  length (refreshTokens db) = n + length (refreshTokens db') /\
  users db' = users db /\ projects db' = projects db /\
  contacts db' = contacts db /\ nextId db' = nextId db /\
  TokenService.cleanExpiredTokens db' now = (0, db').
Proof.
  cbv zeta. unfold TokenService.cleanExpiredTokens, deleteCount, deleteMany,
    TokenService.expired, set_refreshTokens. simpl.
  split; [|split; [reflexivity|split; [reflexivity|split;
    [|split; [reflexivity|split; [reflexivity|split;
      [reflexivity|split; [reflexivity|]]]]]]]].
  - intros r. rewrite filter_In, negb_true_iff, Z.ltb_ge.
    split; intros [Hin Hexp]; (split; [exact Hin|lia]).
  - rewrite Nat.add_comm.
    induction (refreshTokens db) as [|a l IH]; simpl; [reflexivity|].
    destruct (rt_expiresAt a <? now)%Z; simpl; lia.
  - f_equal.
    + rewrite filter_none; [reflexivity|].
      intros x Hx. apply filter_In in Hx. destruct Hx as [_ Hx].
      now apply negb_true_iff in Hx.
    + f_equal. apply filter_idem.
Qed.

(* ================================================================== *)
(** * Revoked and expired refresh tokens *)

Lemma deleteRefreshToken_absent (db : Db) (t : Jwt.Token) :
  token_absent (snd (TokenService.deleteRefreshToken db t)) t.
Proof.
  intros r Hr. simpl in Hr. unfold deleteMany in Hr.
  apply filter_In in Hr. destruct Hr as [_ Hr].
  apply negb_true_iff in Hr. now apply token_eqb_neq.
Qed.

(** Logging out with a token that the caller owns leaves no record of it. *)
Lemma logout_absent (db : Db) (reqUser : User) (t : Jwt.Token) :
  AuthRoutes.token_given (Some t) = true ->
  (forall r, In r (refreshTokens db) -> rt_token r = t ->
             rt_userId r = u_id reqUser) ->
  token_absent (snd (AuthRoutes.logout db reqUser (Some t))) t.
Proof.
  intros Hgiven Hown r Hr Htok. unfold AuthRoutes.logout in Hr.
  rewrite Hgiven in Hr. simpl in Hr. unfold deleteMany in Hr.
  apply filter_In in Hr. destruct Hr as [Hin Hr].
  apply negb_true_iff in Hr.
  rewrite Htok, token_eqb_refl, (Hown r Hin Htok), Nat.eqb_refl in Hr.
  discriminate.
Qed.


(** The unique constraint is kept by every write to the table: a
    [create] refuses a stored token, a [deleteMany] only removes rows. *)
Lemma createRefreshToken_unique (db db' : Db) (t : Jwt.Token) (u : nat)
      (e now : Z) (r : RefreshToken) :
  tokens_unique db ->
  createRefreshToken db t u e now = Ok (r, db') ->
  tokens_unique db'.
Proof.
  unfold tokens_unique, createRefreshToken. intros Hu.
  destruct (existsb _ (refreshTokens db)) eqn:Hex; [discriminate|].
  intros [= <- <-]. cbn [refreshTokens]. rewrite map_app. apply NoDup_app.
  - exact Hu.
  - constructor; [intros []|constructor].
  - intros a Ha [Heq|[]]. cbn [rt_token] in Heq. subst a.
    apply in_map_iff in Ha. destruct Ha as (x & Hx & Hin).
    assert (Hfalse : existsb (fun r0 => Jwt.eqb (rt_token r0) t)
                             (refreshTokens db) = true).
    { apply existsb_exists. exists x. split; [exact Hin|].
      now apply token_eqb_eq. }
    congruence.
Qed.

Lemma deleteMany_unique (db : Db) (where_ : RefreshToken -> bool) :
  tokens_unique db ->
  tokens_unique (set_refreshTokens db (deleteMany where_ (refreshTokens db))).
Proof.
  unfold tokens_unique, deleteMany. cbn [refreshTokens set_refreshTokens].
  induction (refreshTokens db) as [|a l IH]; cbn [map filter]; intros Hnd;
    [constructor|].
  inversion Hnd as [|? ? Hnot Hnd']; subst.
  destruct (negb (where_ a)); cbn [map]; [constructor|]; auto.
  intros Hin. apply Hnot. apply in_map_iff in Hin.
  destruct Hin as (x & Hx & Hin). apply filter_In in Hin.
  apply in_map_iff. exists x. tauto.
Qed.

(** C2.  A refresh token whose record has been deleted, or whose record
    has its [expiresAt] in the past, is not found by [findRefreshToken],
    and [POST /api/auth/refresh] with that token answers 401. *)
Theorem revoked_or_expired_token_rejected
        (ms : string -> option Z) (env : Env) (db : Db) (t : Jwt.Token) (now : Z) :
  tokens_unique db ->
  token_absent db t \/ token_expired db t now ->
  TokenService.findRefreshToken db t now = None /\
  status (fst (AuthRoutes.refresh ms env db (Some t) now)) = 401.
Proof.
  intros Huniq Hcase.
  assert (Hstored : forall r, In r (refreshTokens db) -> rt_token r = t ->
                              (rt_expiresAt r < now)%Z).
  { intros r Hin Htok. destruct Hcase as [Habs | (r0 & Hin0 & Htok0 & Hexp)].
    - exfalso. exact (Habs r Hin Htok).
    - assert (r = r0) as ->; [|exact Hexp].
      apply (NoDup_map_inj rt_token (refreshTokens db));
        [exact Huniq|assumption|assumption|congruence]. }
  split.
  - unfold TokenService.findRefreshToken.
    replace (find _ (refreshTokens db)) with (@None RefreshToken); [reflexivity|].
    symmetry. apply find_none_iff. intros r Hin.
    destruct (Jwt.eqb (rt_token r) t) eqn:E; [|reflexivity]. simpl.
    apply token_eqb_eq in E. specialize (Hstored r Hin E).
    apply Z.ltb_ge. lia.
  - unfold AuthRoutes.refresh.
    destruct (negb (AuthRoutes.token_given (Some t))); [reflexivity|].
    destruct (Jwt.verify _ _ _ _); [|reflexivity].
    destruct (AuthRoutes.findStoredToken db t) as [stored|] eqn:Hfind;
      [|reflexivity].
    apply find_some in Hfind. destruct Hfind as [Hin E].
    apply token_eqb_eq in E. specialize (Hstored stored Hin E).
    apply Z.ltb_lt in Hstored. rewrite Hstored. reflexivity.
Qed.

Lemma revoked_or_expired_token_rejected_witness :
  tokens_unique db_stale /\
  (token_absent db_stale (route_refresh 1 0) \/
   token_expired db_stale (route_refresh 1 0) 5000) /\
  TokenService.findRefreshToken db_stale (route_refresh 1 0) 5000 = None /\
  status (fst (AuthRoutes.refresh sample_ms sample_env db_stale
                 (Some (route_refresh 1 0)) 5000)) = 401.
Proof.
  assert (Hu : tokens_unique db_stale).
  { unfold tokens_unique. simpl. constructor; [simpl; tauto|constructor]. }
  assert (He : token_absent db_stale (route_refresh 1 0) \/
               token_expired db_stale (route_refresh 1 0) 5000).
  { right. eexists. split; [left; reflexivity|]. split; [reflexivity|].
    simpl. lia. }
  split; [exact Hu|]. split; [exact He|].
  exact (revoked_or_expired_token_rejected sample_ms sample_env (now := 5000) Hu He).
Defined.

(* ================================================================== *)
(** * Verification of access and refresh tokens *)

Lemma opt_matches_some (e : string) (a : option string) :
  Jwt.opt_matches (Some e) a = true <-> a = Some e.
Proof.
  destruct a as [s|]; simpl.
  - rewrite String.eqb_eq. split; congruence.
  - split; discriminate.
Qed.

(** What [jwt.verify] with the issuer and audience of the portfolio
    accepts, in terms of the three checks. *)
Lemma verify_checks (secret : option string) (t : Jwt.Token) (now : Z) :
  match checks_pass secret t now with
  | Some p => Jwt.verify t secret TokenService.verifyOptions now = Ok p
  | None => exists e, Jwt.verify t secret TokenService.verifyOptions now = Throw e
  end.
Proof.
  unfold checks_pass, Jwt.verify.
  destruct t as [s|k p]; [destruct secret; eauto|].
  destruct secret as [[|c key]|]; [simpl; eauto| |eauto].
  cbn [truthy andb TokenService.verifyOptions Jwt.v_audience Jwt.v_issuer].
  destruct (String.eqb k (String c key)); cbn [negb andb]; [|eauto].
  rewrite (Z.leb_antisym (Jwt.clock now) (Jwt.exp p)).
  destruct (Jwt.opt_matches (Some TokenService.portfolio_issuer) (Jwt.iss p));
    destruct (Jwt.opt_matches (Some TokenService.portfolio_audience) (Jwt.aud p));
    destruct (Jwt.clock now <? Jwt.exp p)%Z; cbn [negb andb]; eauto.
Qed.

Lemma verifyAccessToken_checks (env : Env) (t : Jwt.Token) (now : Z) :
  TokenService.verifyAccessToken env t now =
    match checks_pass (JWT_SECRET env) t now with
    | Some p => Ok p
    | None => Throw (Error "Token de acceso inválido o expirado")
    end.
Proof.
  unfold TokenService.verifyAccessToken.
  generalize (verify_checks (JWT_SECRET env) t now).
  destruct (checks_pass (JWT_SECRET env) t now).
  - intros ->. reflexivity.
  - intros [e ->]. reflexivity.
Qed.

Lemma verifyRefreshToken_checks (env : Env) (t : Jwt.Token) (now : Z) :
  TokenService.verifyRefreshToken env t now =
    match checks_pass (JWT_REFRESH_SECRET env) t now with
    | Some p => Ok p
    | None => Throw (Error "Token de refresco inválido o expirado")
    end.
Proof.
  unfold TokenService.verifyRefreshToken.
  generalize (verify_checks (JWT_REFRESH_SECRET env) t now).
  destruct (checks_pass (JWT_REFRESH_SECRET env) t now).
  - intros ->. reflexivity.
  - intros [e ->]. reflexivity.
Qed.

(** C4, as the code has it.  [verifyAccessToken] and [verifyRefreshToken]
    return the payload exactly when the signature check, the issuer and
    audience check and the expiry check all pass; whichever check fails,
    they throw one and the same error, ["Token de acceso inválido o
    expirado"] or ["Token de refresco inválido o expirado"], so a caller
    cannot tell an invalid token from an expired one. *)
Theorem verify_tokens_single_error (env : Env) (t : Jwt.Token) (now : Z) :
  TokenService.verifyAccessToken env t now =
    match checks_pass (JWT_SECRET env) t now with
    | Some p => Ok p
    | None => Throw (Error "Token de acceso inválido o expirado")
    end /\
  TokenService.verifyRefreshToken env t now =
    match checks_pass (JWT_REFRESH_SECRET env) t now with
    | Some p => Ok p
    | None => Throw (Error "Token de refresco inválido o expirado")
    end.
Proof.
  split; [apply verifyAccessToken_checks|apply verifyRefreshToken_checks].
Qed.

(** C4, as stated, fails: the library tells a forged access token
    ([JsonWebTokenError]) from Ana's expired one ([TokenExpiredError]),
    but [verifyAccessToken] throws the same error for both, and so does
    [verifyRefreshToken]; neither error is of the invalid or of the
    expired kind. *)
Lemma invalid_and_expired_not_distinguished :
  fails_with (Jwt.verify forged_access (JWT_SECRET sample_env)
                TokenService.verifyOptions 1000) "JsonWebTokenError" /\
  fails_with (Jwt.verify ana_access (JWT_SECRET sample_env)
                TokenService.verifyOptions 900000) "TokenExpiredError" /\
  TokenService.verifyAccessToken sample_env forged_access 1000 =
    TokenService.verifyAccessToken sample_env ana_access 900000 /\
  TokenService.verifyRefreshToken sample_env forged_refresh 1000 =
    TokenService.verifyRefreshToken sample_env ana_refresh 604800000 /\
  ~ fails_with (TokenService.verifyAccessToken sample_env forged_access 1000)
               "JsonWebTokenError" /\
  ~ fails_with (TokenService.verifyAccessToken sample_env ana_access 900000)
               "TokenExpiredError".
Proof.
  split; [eexists; split; reflexivity|].
  split; [eexists; split; reflexivity|].
  split; [reflexivity|]. split; [reflexivity|].
  split; intros [e [He Hname]]; vm_compute in He;
    injection He as <-; discriminate Hname.
Qed.

(** C3, as the code has it.  With a signing secret and a valid span
    configured, [generateAccessToken] returns a token for every account;
    verifying it before its expiry returns a payload with the account's
    id, email and role; from the expiry on, verification throws the
    generic error ["Token de acceso inválido o expirado"]. *)
Theorem access_token_roundtrip
        (ms : string -> option Z) (env : Env) (A : User) (span now now' : Z) :
  truthy (JWT_SECRET env) = true ->
  ms (or_default (JWT_EXPIRES_IN env) "15m") = Some span ->
  exists tok,
    TokenService.generateAccessToken ms env A now = Ok tok /\
    ((Jwt.clock now' < Jwt.clock now + span)%Z ->
     exists p, TokenService.verifyAccessToken env tok now' = Ok p /\
               Jwt.userId p = u_id A /\
               Jwt.email p = Some (u_email A) /\
               Jwt.role p = Some (u_role A)) /\
    ((Jwt.clock now + span <= Jwt.clock now')%Z ->
     TokenService.verifyAccessToken env tok now' =
       Throw (Error "Token de acceso inválido o expirado")).
Proof.
  intros Hsecret Hspan.
  unfold TokenService.generateAccessToken, Jwt.sign.
  destruct (JWT_SECRET env) as [[|c key]|] eqn:Hkey; try discriminate.
  cbn [Jwt.expiresIn]. rewrite Hspan. eexists. split; [reflexivity|].
  split; intros Htime.
  - eexists. split.
    + rewrite verifyAccessToken_checks, Hkey.
      unfold checks_pass.
      cbn [truthy Jwt.iss Jwt.aud Jwt.exp Jwt.issuer Jwt.audience andb].
      rewrite String.eqb_refl.
      rewrite (proj2 (opt_matches_some _ _) eq_refl).
      rewrite (proj2 (opt_matches_some _ _) eq_refl).
      apply Z.ltb_lt in Htime. rewrite Htime. reflexivity.
    + simpl. repeat split.
  - rewrite verifyAccessToken_checks, Hkey.
    unfold checks_pass.
    cbn [truthy Jwt.iss Jwt.aud Jwt.exp Jwt.issuer Jwt.audience andb].
    apply Z.ltb_ge in Htime. rewrite Htime.
    rewrite !andb_false_r. reflexivity.
Qed.

Lemma access_token_roundtrip_witness :
  truthy (JWT_SECRET sample_env) = true /\
  sample_ms (or_default (JWT_EXPIRES_IN sample_env) "15m") = Some 900%Z /\
  exists tok,
    TokenService.generateAccessToken sample_ms sample_env ana 0 = Ok tok /\
    ((Jwt.clock 1000 < Jwt.clock 0 + 900)%Z ->
     exists p, TokenService.verifyAccessToken sample_env tok 1000 = Ok p /\
               Jwt.userId p = u_id ana /\
               Jwt.email p = Some (u_email ana) /\
               Jwt.role p = Some (u_role ana)) /\
    ((Jwt.clock 0 + 900 <= Jwt.clock 1000)%Z ->
     TokenService.verifyAccessToken sample_env tok 1000 =
       Throw (Error "Token de acceso inválido o expirado")).
Proof.
  split; [reflexivity|]. split; [reflexivity|].
  exact (@access_token_roundtrip sample_ms sample_env ana 900 0 1000
           eq_refl eq_refl).
Defined.

(** C3, as stated, fails in its last part: the access token issued for
    Ana at instant 0 expires 900 seconds later; verified at that moment,
    [verifyAccessToken] throws a plain [Error], not an error of the
    expired kind. *)
Lemma expired_access_token_error_is_generic :
  TokenService.generateAccessToken sample_ms sample_env ana 0 = Ok ana_access /\
  TokenService.verifyAccessToken sample_env ana_access 899999 =
    Ok (Jwt.mkPayload 1 (Some "ana@x.com") (Some USER) (Some "Ana") None
          (Some "joseluiscastro-portfolio") (Some "portfolio-users") 0 900) /\
  TokenService.verifyAccessToken sample_env ana_access 900000 =
    Throw (mkError "Error" "Token de acceso inválido o expirado") /\
  ~ fails_with (TokenService.verifyAccessToken sample_env ana_access 900000)
               "TokenExpiredError".
Proof.
  split; [reflexivity|]. split; [reflexivity|]. split; [reflexivity|].
  intros [e [He Hname]]. vm_compute in He. injection He as <-.
  discriminate Hname.
Qed.

(* ================================================================== *)
(** * Soft-deleted projects *)

Section SliceFacts.
Variable A : Type.


Lemma In_skipn (x : A) (n : nat) (l : list A) : In x (skipn n l) -> In x l.
Proof.
  intros H. rewrite <- (firstn_skipn n l). apply in_or_app. now right.
Qed.
End SliceFacts.

Lemma In_findMany (A : Type) (where_ : A -> bool) (before : A -> A -> bool)
      (rows : list A) (x : A) :
  In x (findMany where_ before rows) <-> In x rows /\ where_ x = true.
Proof.
  unfold findMany. rewrite sort_by_In. apply filter_In.
Qed.





(** A page of the administrator listing is a slice of the rows it
    paginates over, and [total] is their number. *)
Lemma adminAll_page_slice (db : Db) (q : ProjectRoutes.Query) :
  ProjectRoutes.findPage (ProjectRoutes.adminWhere q) ProjectRoutes.listOrder
    (ProjectRoutes.skip_of q) (ProjectRoutes.limit_of q) (projects db)
  = firstn (Z.to_nat (ProjectRoutes.limit_of q))
           (skipn (Z.to_nat (ProjectRoutes.skip_of q)) (admin_result_set db q)) /\
  ProjectRoutes.count (ProjectRoutes.adminWhere q) (projects db)
  = Z.of_nat (length (admin_result_set db q)).
Proof.
  split; [reflexivity|].
  unfold ProjectRoutes.count, admin_result_set, findMany.
  now rewrite sort_by_length.
Qed.



(* ================================================================== *)
(** * Contact messages *)








(* ================================================================== *)
(** * Who sets [respondedAt] *)






Lemma update_keeps_respondedAt (upd : Contact -> bool) (d : ContactRoutes.UpdateData)
      (rows : list Contact) :
  ContactRoutes.upd_respondedAt d = None ->
  map c_respondedAt
      (map (fun c => if upd c then ContactRoutes.apply_update d c else c) rows)
  = map c_respondedAt rows.
Proof.
  intros Hd. rewrite map_map. apply map_ext. intros c.
  destruct (upd c); [|reflexivity].
  unfold ContactRoutes.apply_update. cbn [c_respondedAt]. now rewrite Hd.
Qed.






(* ================================================================== *)
(** * Renewal of the access token *)



(** A successful refresh found the presented token stored and not yet
    past its expiry. *)
Lemma refresh_success_stored (ms : string -> option Z) (env : Env) (db : Db)
      (t : option Jwt.Token) (now : Z) :
  status (fst (AuthRoutes.refresh ms env db t now)) = 200 ->
  exists t' stored,
    t = Some t' /\ AuthRoutes.findStoredToken db t' = Some stored /\
    (now <= rt_expiresAt stored)%Z.
Proof.
  unfold AuthRoutes.refresh. intros Hstatus.
  destruct t as [t'|]; [|discriminate Hstatus].
  destruct (negb (AuthRoutes.token_given (Some t'))); [discriminate Hstatus|].
  destruct (Jwt.verify _ _ _ _); [|discriminate Hstatus].
  destruct (AuthRoutes.findStoredToken db t') as [stored|] eqn:Hfind;
    [|discriminate Hstatus].
  destruct (rt_expiresAt stored <? now)%Z eqn:E; [discriminate Hstatus|].
  exists t', stored. apply Z.ltb_ge in E. auto.
Qed.



(* ================================================================== *)
(** * The client's retry on 401 *)

Lemma header_set_header (name : string) (v : ApiClient.HeaderValue)
      (h : ApiClient.Headers) :
  ApiClient.header name (ApiClient.set_header name v h) = Some v.
Proof.
  unfold ApiClient.header, ApiClient.set_header.
  induction h as [|[k w] h IH]; cbn [existsb find map app fst snd].
  - now rewrite String.eqb_refl.
  - destruct (String.eqb k name) eqn:E; cbn [orb find map fst snd].
    + now rewrite String.eqb_refl.
    + destruct (existsb (fun kv => String.eqb (fst kv) name) h) eqn:Eh;
        cbn [find app fst]; rewrite E; exact IH.
Qed.

(** The two outcomes of [renewToken]. *)
Lemma renewToken_cases (net : ApiClient.Network) (c : ApiClient.Client) :
  (exists a r,
      renewal_succeeds net (ApiClient.sent c) c a r /\
      ApiClient.renewToken net c =
        (true, ApiClient.mkClient (ApiClient.baseURL c) a r
                 (ApiClient.mkStorage (Some a) (Some r))
                 (ApiClient.sent c ++ [renew_request c]))) \/
  (renewal_fails net (ApiClient.sent c) c /\
   ApiClient.renewToken net c =
     (false, ApiClient.mkClient (ApiClient.baseURL c) (Some JNull) (Some JNull)
               (ApiClient.mkStorage None None)
               (ApiClient.sent c ++ [renew_request c]))).
Proof.
  unfold ApiClient.renewToken, ApiClient.fetch, renewal_succeeds, renewal_fails.
  fold (renew_request c).
  destruct (net (ApiClient.sent c) (renew_request c)) as [response|e].
  - destruct (ApiClient.f_ok response) eqn:Hok.
    + destruct (ApiClient.read_tokens response) as [[a r]|e] eqn:Hread.
      * left. exists a, r. split; [exists response; auto|reflexivity].
      * right. split; [right; eauto|reflexivity].
    + right. split; [left; reflexivity|reflexivity].
  - right. split; [exact I|reflexivity].
Qed.

Lemma renewal_deterministic (net : ApiClient.Network) (log : list ApiClient.Request)
      (c : ApiClient.Client) (a r a' r' : ApiClient.Value) :
  renewal_succeeds net log c a r -> renewal_succeeds net log c a' r' ->
  a = a' /\ r = r'.
Proof.
  intros (resp & Hnet & _ & Hread) (resp' & Hnet' & _ & Hread').
  rewrite Hnet in Hnet'. injection Hnet' as <-.
  rewrite Hread in Hread'. now injection Hread'.
Qed.

Lemma renewal_not_both (net : ApiClient.Network) (log : list ApiClient.Request)
      (c : ApiClient.Client) (a r : ApiClient.Value) :
  renewal_succeeds net log c a r -> renewal_fails net log c -> False.
Proof.
  intros (resp & Hnet & Hok & Hread). unfold renewal_fails. rewrite Hnet.
  intros [Hno|[e He]]; congruence.
Qed.

(** The client after its first [fetch]. *)
Lemma request_unfold (net : ApiClient.Network) (c : ApiClient.Client)
      (endpoint : string) (o : ApiClient.Options) :
  let c1 := ApiClient.mkClient (ApiClient.baseURL c) (ApiClient.accessToken c)
              (ApiClient.refreshToken c) (ApiClient.localStorage c)
              (ApiClient.sent c ++ [first_request c endpoint o]) in
  ApiClient.request net c endpoint o =
    match net (ApiClient.sent c) (first_request c endpoint o) with
    | Throw e => (Throw e, c1)
    | Ok response =>
        if (ApiClient.f_status response =? 401)
           && ApiClient.value_truthy (ApiClient.refreshToken c) then
          if fst (ApiClient.renewToken net c1) then
            let c2 := snd (ApiClient.renewToken net c1) in
            (net (ApiClient.sent c2)
                 (retry_request c endpoint o (ApiClient.accessToken c2)),
             ApiClient.mkClient (ApiClient.baseURL c2) (ApiClient.accessToken c2)
               (ApiClient.refreshToken c2) (ApiClient.localStorage c2)
               (ApiClient.sent c2
                  ++ [retry_request c endpoint o (ApiClient.accessToken c2)]))
          else (Ok response, snd (ApiClient.renewToken net c1))
        else (Ok response, c1)
    end.
Proof.
  cbv zeta. unfold ApiClient.request, ApiClient.fetch at 1.
  fold (first_request c endpoint o).
  destruct (net (ApiClient.sent c) (first_request c endpoint o)) as [response|e];
    [|reflexivity].
  cbn [ApiClient.refreshToken].
  destruct ((ApiClient.f_status response =? 401)
            && ApiClient.value_truthy (ApiClient.refreshToken c)); [|reflexivity].
  destruct (ApiClient.renewToken net _) as [[|] c2] eqn:Hrenew; cbn [fst snd];
    [|reflexivity].
  unfold ApiClient.fetch, ApiClient.with_authorization, retry_request.
  destruct (renewToken_cases net
              (ApiClient.mkClient (ApiClient.baseURL c) (ApiClient.accessToken c)
                 (ApiClient.refreshToken c) (ApiClient.localStorage c)
                 (ApiClient.sent c ++ [first_request c endpoint o])))
    as [(a & r & _ & Heq)|[_ Heq]];
    rewrite Hrenew in Heq; injection Heq as Heq; [|discriminate].
  subst c2. reflexivity.
Qed.

(** C5.  In every execution of [request] the client sends the call, then
    at most one renewal request, then at most one retry of the call, and
    nothing else.  When the call is answered 401 and a refresh token is
    held, there is one renewal round trip: if it succeeds, the call is
    sent once more with the new access token as bearer and the answer to
    that retry is returned; if it fails, both tokens are cleared, also in
    the local storage, and the original 401 response is returned.
    Without a refresh token the 401 response is returned at once. *)
Theorem request_renews_and_retries_at_most_once
        (net : ApiClient.Network) (c : ApiClient.Client)
        (endpoint : string) (o : ApiClient.Options) :
  let first := first_request c endpoint o in
  let log1 := ApiClient.sent c ++ [first] in
  let renew := renew_request c in
  let out := ApiClient.request net c endpoint o in
  (exists a,
      ApiClient.sent (snd out) = log1 \/
      ApiClient.sent (snd out) = log1 ++ [renew] \/
      ApiClient.sent (snd out) = log1 ++ [renew; retry_request c endpoint o a]) /\
  (forall response,
      net (ApiClient.sent c) first = Ok response ->
      ApiClient.f_status response = 401 ->
      (ApiClient.value_truthy (ApiClient.refreshToken c) = false ->
       fst out = Ok response /\ ApiClient.sent (snd out) = log1 /\
       ApiClient.accessToken (snd out) = ApiClient.accessToken c /\
       ApiClient.refreshToken (snd out) = ApiClient.refreshToken c) /\
      (ApiClient.value_truthy (ApiClient.refreshToken c) = true ->
       (forall a r,
           renewal_succeeds net log1 c a r ->
           fst out = net (log1 ++ [renew]) (retry_request c endpoint o a) /\
           ApiClient.sent (snd out)
             = log1 ++ [renew; retry_request c endpoint o a] /\
           ApiClient.header "Authorization"
             (ApiClient.cfg_headers
                (ApiClient.req_config (retry_request c endpoint o a)))
             = Some (ApiClient.HBearer a) /\
           ApiClient.accessToken (snd out) = a) /\
       (renewal_fails net log1 c ->
        fst out = Ok response /\
        ApiClient.sent (snd out) = log1 ++ [renew] /\
        ApiClient.accessToken (snd out) = Some JNull /\
        ApiClient.refreshToken (snd out) = Some JNull /\
        ApiClient.localStorage (snd out) = ApiClient.mkStorage None None))).
Proof.
  cbv zeta. rewrite request_unfold. cbv zeta.
  set (c1 := ApiClient.mkClient (ApiClient.baseURL c) (ApiClient.accessToken c)
               (ApiClient.refreshToken c) (ApiClient.localStorage c)
               (ApiClient.sent c ++ [first_request c endpoint o])).
  pose proof (renewToken_cases net c1) as Hcases.
  change (renew_request c1) with (renew_request c) in Hcases.
  change (ApiClient.sent c1)
    with (ApiClient.sent c ++ [first_request c endpoint o]) in Hcases.
  change (renewal_succeeds net (ApiClient.sent c ++ [first_request c endpoint o]) c1)
    with (renewal_succeeds net (ApiClient.sent c ++ [first_request c endpoint o]) c)
    in Hcases.
  change (renewal_fails net (ApiClient.sent c ++ [first_request c endpoint o]) c1)
    with (renewal_fails net (ApiClient.sent c ++ [first_request c endpoint o]) c)
    in Hcases.
  split.
  - destruct (net (ApiClient.sent c) (first_request c endpoint o)) as [response|e];
      [|exists None; left; reflexivity].
    destruct ((ApiClient.f_status response =? 401)
              && ApiClient.value_truthy (ApiClient.refreshToken c));
      [|exists None; left; reflexivity].
    destruct Hcases as [(a & r & _ & ->)|[_ ->]]; cbn [fst snd ApiClient.sent
      ApiClient.accessToken].
    + exists a. right; right. now rewrite <- app_assoc.
    + exists None. right; left. reflexivity.
  - intros response Hnet Hstatus. rewrite Hnet, Hstatus. cbn [Nat.eqb andb].
    split; intros Htruthy; rewrite Htruthy.
    + cbn [fst snd]. repeat split.
    + split.
      * intros a r Hsucc.
        destruct Hcases as [(a' & r' & Hsucc' & ->)|[Hfail _]].
        -- destruct (renewal_deterministic Hsucc Hsucc') as [<- <-].
           cbn [fst snd ApiClient.sent ApiClient.accessToken].
           split; [reflexivity|]. split; [now rewrite <- app_assoc|].
           split; [|reflexivity].
           unfold retry_request. cbn [ApiClient.req_config ApiClient.cfg_headers].
           apply header_set_header.
        -- exfalso. exact (renewal_not_both Hsucc Hfail).
      * intros Hfail.
        destruct Hcases as [(a' & r' & Hsucc' & _)|[_ ->]].
        -- exfalso. exact (renewal_not_both Hsucc' Hfail).
        -- cbn [fst snd]. repeat split.
Qed.

Lemma request_renews_and_retries_at_most_once_witness :
  (ApiClient.value_truthy (ApiClient.refreshToken client_session) = true /\
   renewal_succeeds net_renewing
     [first_request client_session "/auth/me" no_options] client_session
     (Some (JTok renewed_access)) None /\
   ApiClient.sent (snd (ApiClient.request net_renewing client_session "/auth/me"
                          no_options))
   = [first_request client_session "/auth/me" no_options;
      renew_request client_session;
      retry_request client_session "/auth/me" no_options
                    (Some (JTok renewed_access))]) /\
  (renewal_fails net_refusing
     [first_request client_session "/auth/me" no_options] client_session /\
   fst (ApiClient.request net_refusing client_session "/auth/me" no_options)
   = Ok (ApiClient.delivered (fail 401 "Refresh token inválido")) /\
   ApiClient.refreshToken
     (snd (ApiClient.request net_refusing client_session "/auth/me" no_options))
   = Some JNull).
Proof.
  split.
  - assert (Hs : renewal_succeeds net_renewing
                   [first_request client_session "/auth/me" no_options]
                   client_session (Some (JTok renewed_access)) None).
    { eexists. split; [reflexivity|]. split; reflexivity. }
    split; [reflexivity|]. split; [exact Hs|].
    destruct (request_renews_and_retries_at_most_once net_renewing client_session
                "/auth/me" no_options) as [_ H401].
    destruct (H401 _ eq_refl eq_refl) as [_ Hheld].
    destruct (Hheld eq_refl) as [Hok _].
    exact (proj1 (proj2 (Hok _ _ Hs))).
  - assert (Hf : renewal_fails net_refusing
                   [first_request client_session "/auth/me" no_options]
                   client_session).
    { left. reflexivity. }
    split; [exact Hf|].
    destruct (request_renews_and_retries_at_most_once net_refusing client_session
                "/auth/me" no_options) as [_ H401].
    destruct (H401 _ eq_refl eq_refl) as [_ Hheld].
    destruct (Hheld eq_refl) as [_ Hfail].
    destruct (Hfail Hf) as (Hres & _ & _ & Hrt & _).
    split; [exact Hres|exact Hrt].
Defined.

(* ================================================================== *)
(** * The cap on refresh tokens per account *)

Section CapFacts.

Lemma filter_comm (A : Type) (f g : A -> bool) (l : list A) :
  filter f (filter g l) = filter g (filter f l).
Proof.
  rewrite !filter_filter. apply filter_ext. intros a. apply andb_comm.
Qed.

Lemma NoDup_map_filter (A B : Type) (f : A -> B) (g : A -> bool) (l : list A) :
  NoDup (map f l) -> NoDup (map f (filter g l)).
Proof.
  induction l as [|a l IH]; cbn [map filter]; intros Hnd; [constructor|].
  inversion Hnd as [|? ? Hnot Hnd']; subst.
  destruct (g a); cbn [map]; [constructor|]; auto.
  intros Hin. apply Hnot. apply in_map_iff in Hin.
  destruct Hin as (x & Hx & Hin). apply filter_In in Hin.
  apply in_map_iff. exists x. tauto.
Qed.

Lemma ascending_app_one (l : list RefreshToken) (r : RefreshToken) :
  ascending l ->
  (forall a, In a l -> (rt_createdAt a < rt_createdAt r)%Z) ->
  ascending (l ++ [r]).
Proof.
  induction l as [|a l IH]; cbn [ascending app]; intros Hasc Hlt.
  - split; [intros b []|exact I].
  - destruct Hasc as [Ha Hasc]. split.
    + intros b Hb. apply in_app_or in Hb. destruct Hb as [Hb|[<-|[]]].
      * now apply Ha.
      * apply Hlt. now left.
    + apply IH; [exact Hasc|]. intros x Hx. apply Hlt. now right.
Qed.

Lemma ascending_skipn (k : nat) (l : list RefreshToken) :
  ascending l -> ascending (skipn k l).
Proof.
  revert l. induction k as [|k IH]; intros l Hasc; [exact Hasc|].
  destruct l as [|a l]; [exact I|]. cbn [skipn]. apply IH. apply Hasc.
Qed.

(** Newest first, an ascending list is reversed. *)
Lemma sort_ascending (l : list RefreshToken) :
  ascending l -> sort_by TokenService.newer_first l = rev l.
Proof.
  induction l as [|a l IH]; cbn [ascending]; intros Hasc; [reflexivity|].
  destruct Hasc as [Ha Hasc]. cbn [sort_by fold_right rev].
  change (fold_right (insert_sorted TokenService.newer_first) [] l)
    with (sort_by TokenService.newer_first l).
  rewrite (IH Hasc). apply insert_sorted_last.
  apply Forall_forall. intros b Hb. apply in_rev in Hb.
  unfold TokenService.newer_first. apply Z.leb_gt. now apply Ha.
Qed.

(** Records older than all of [news] are sorted behind them. *)
Lemma sort_olds_news (olds news : list RefreshToken) :
  ascending news ->
  (forall o n, In o olds -> In n news -> (rt_createdAt o < rt_createdAt n)%Z) ->
  sort_by TokenService.newer_first (olds ++ news)
  = rev news ++ sort_by TokenService.newer_first olds.
Proof.
  intros Hasc. induction olds as [|o olds IH]; intros Hcross.
  - cbn [app sort_by fold_right]. rewrite app_nil_r.
    now apply sort_ascending.
  - cbn [app sort_by fold_right].
    change (fold_right (insert_sorted TokenService.newer_first) [] (olds ++ news))
      with (sort_by TokenService.newer_first (olds ++ news)).
    change (fold_right (insert_sorted TokenService.newer_first) [] olds)
      with (sort_by TokenService.newer_first olds).
    rewrite IH by (intros x n Hx Hn; apply Hcross; [now right|exact Hn]).
    apply insert_sorted_app. apply Forall_forall. intros n Hn.
    apply in_rev in Hn. unfold TokenService.newer_first. apply Z.leb_gt.
    apply Hcross; [now left|exact Hn].
Qed.

End CapFacts.

Lemma saveRefreshToken_unfold (db : Db) (u : nat) (tok : Jwt.Token) (e now : Z) :
  TokenService.saveRefreshToken db u tok (Some e) now =
    let db2 := set_refreshTokens db (pruned_rows (refreshTokens db) u now) in
    match createRefreshToken db2 tok u e now with
    | Ok (r, db3) => (Ok r, db3)
    | Throw _ => (Throw TokenService.internal_error, db2)
    end.
Proof. reflexivity. Qed.

Lemma id_in_spec (ids : list nat) (r : RefreshToken) :
  TokenService.id_in ids r = true <-> In (rt_id r) ids.
Proof.
  unfold TokenService.id_in. rewrite existsb_exists. split.
  - intros (x & Hx & E). apply Nat.eqb_eq in E. now subst.
  - intros H. exists (rt_id r). split; [exact H|apply Nat.eqb_refl].
Qed.

Section Prune.
Variables (rows : list RefreshToken) (u : nat) (now T : Z).
Variables (olds news : list RefreshToken).
Hypothesis Hids : NoDup (map rt_id rows).
Hypothesis Hsplit : filter (TokenService.owned_by u) rows = olds ++ news.
Hypothesis Hcross :
  forall o n, In o olds -> In n news -> (rt_createdAt o < rt_createdAt n)%Z.
Hypothesis Hasc : ascending news.
Hypothesis Hlive : forall n, In n news -> (T < rt_expiresAt n)%Z.
Hypothesis HnowT : (now <= T)%Z.
Hypothesis Hlen : length news <= 5.
Hypothesis Hfull : 5 <= length news -> olds = [].

Let unexpired (r : RefreshToken) : bool := negb (TokenService.expired_of u now r).
Let olds1 : list RefreshToken := filter unexpired olds.

Lemma In_olds_rows (x : RefreshToken) : In x olds -> In x rows.
Proof.
  intros H. assert (Hx : In x (olds ++ news)) by (apply in_or_app; now left).
  rewrite <- Hsplit in Hx. now apply filter_In in Hx.
Qed.

Lemma In_news_rows (x : RefreshToken) : In x news -> In x rows.
Proof.
  intros H. assert (Hx : In x (olds ++ news)) by (apply in_or_app; now right).
  rewrite <- Hsplit in Hx. now apply filter_In in Hx.
Qed.

Lemma same_id_same_row (x y : RefreshToken) :
  In x rows -> In y rows -> rt_id x = rt_id y -> x = y.
Proof. intros. now apply (NoDup_map_inj rt_id rows). Qed.

Lemma owned_after_cleanup :
  filter (TokenService.owned_by u)
         (deleteMany (TokenService.expired_of u now) rows)
  = olds1 ++ news.
Proof.
  unfold deleteMany. rewrite filter_comm, Hsplit, filter_app.
  fold unexpired. fold olds1. f_equal.
  apply filter_all. intros n Hn. unfold unexpired, TokenService.expired_of.
  apply negb_true_iff, andb_false_iff. right. apply Z.ltb_ge.
  specialize (Hlive n Hn). lia.
Qed.

Lemma existing_sorted :
  findMany (TokenService.owned_by u) TokenService.newer_first
           (deleteMany (TokenService.expired_of u now) rows)
  = rev news ++ sort_by TokenService.newer_first olds1.
Proof.
  unfold findMany. rewrite owned_after_cleanup.
  apply sort_olds_news; [exact Hasc|].
  intros o n Ho Hn. apply Hcross; [|exact Hn].
  unfold olds1 in Ho. now apply filter_In in Ho.
Qed.

Lemma news_not_deleted (D : list RefreshToken) :
  (forall d, In d D -> In d olds) ->
  filter (fun r => negb (TokenService.id_in (map rt_id D) r)) news = news.
Proof.
  intros HD. apply filter_all. intros n Hn. apply negb_true_iff.
  destruct (TokenService.id_in (map rt_id D) n) eqn:E; [|reflexivity].
  apply id_in_spec, in_map_iff in E. destruct E as (d & Hid & Hd).
  assert (d = n) as ->
      by (apply same_id_same_row;
          [apply In_olds_rows; auto|now apply In_news_rows|exact Hid]).
  pose proof (Hcross _ _ (HD _ Hd) Hn). lia.
Qed.

Lemma prune_owned :
  exists olds2,
    filter (TokenService.owned_by u) (pruned_rows rows u now)
    = olds2 ++ keep_last 4 news /\
    (forall o, In o olds2 -> In o olds) /\
    (4 <= length news -> olds2 = []).
Proof.
  unfold pruned_rows. cbv zeta. rewrite existing_sorted.
  assert (Holds1 : forall o, In o olds1 -> In o olds)
    by (intros o Ho; unfold olds1 in Ho; now apply filter_In in Ho).
  destruct (Nat.eq_dec (length news) 5) as [Hfive|Hless].
  - (* five recent records: the oldest of them goes *)
    assert (Hnil : olds = []) by (apply Hfull; lia).
    assert (Hnil1 : olds1 = []) by (unfold olds1; now rewrite Hnil).
    rewrite Hnil1. cbn [sort_by fold_right]. rewrite app_nil_r.
    exists []. split; [|split; [intros o []|reflexivity]].
    rewrite length_rev, Hfive. cbn [Nat.leb].
    unfold deleteMany at 1. rewrite filter_comm, owned_after_cleanup, Hnil1.
    cbn [app].
    pose proof In_news_rows as Hrows. pose proof Hasc as Hasc'.
    destruct news as [|n1 [|n2 [|n3 [|n4 [|n5 [|n6 rest]]]]]];
      try discriminate Hfive.
    cbn [rev app length Nat.leb skipn map keep_last Nat.sub filter].
    assert (Hne : forall x, In x [n2; n3; n4; n5] ->
                            TokenService.id_in [rt_id n1] x = false).
    { intros x Hx. destruct (TokenService.id_in [rt_id n1] x) eqn:E;
        [|reflexivity].
      apply id_in_spec in E. destruct E as [E|[]].
      assert (n1 = x) as <-
          by (apply same_id_same_row;
              [apply Hrows; now left|apply Hrows; now right|exact E]).
      destruct Hasc' as [Hn1 _]. specialize (Hn1 n1 Hx). lia. }
    replace (TokenService.id_in [rt_id n1] n1) with true
      by (symmetry; apply id_in_spec; now left).
    rewrite (Hne n2), (Hne n3), (Hne n4), (Hne n5); cbn [In]; auto 6.
  - (* at most four recent records: all of them stay *)
    assert (Hfour : length news <= 4) by lia.
    assert (Hkeep : keep_last 4 news = news).
    { unfold keep_last. replace (length news - 4) with 0 by lia. reflexivity. }
    rewrite Hkeep.
    destruct (5 <=? length (rev news ++ sort_by TokenService.newer_first olds1))
             eqn:Hcap.
    + set (D := skipn 4 (rev news ++ sort_by TokenService.newer_first olds1)).
      assert (HD : D = skipn (4 - length news)
                             (sort_by TokenService.newer_first olds1)).
      { unfold D. rewrite skipn_app, length_rev.
        rewrite (skipn_all2 (rev news)) by (rewrite length_rev; exact Hfour).
        reflexivity. }
      assert (HDolds : forall d, In d D -> In d olds).
      { intros d Hd. rewrite HD in Hd. apply In_skipn in Hd.
        apply sort_by_In in Hd. now apply Holds1. }
      exists (filter (fun r => negb (TokenService.id_in (map rt_id D) r)) olds1).
      split; [|split].
      * unfold deleteMany at 1.
        rewrite filter_comm, owned_after_cleanup, filter_app.
        f_equal. now apply news_not_deleted.
      * intros o Ho. apply filter_In in Ho. apply Holds1, Ho.
      * intros H4. apply filter_none. intros o Ho. apply negb_false_iff.
        apply id_in_spec, in_map. rewrite HD.
        replace (4 - length news) with 0 by lia. cbn [skipn].
        now apply sort_by_In.
    + exists olds1. split; [apply owned_after_cleanup|]. split; [exact Holds1|].
      intros H4. apply Nat.leb_gt in Hcap.
      rewrite length_app, length_rev, sort_by_length in Hcap.
      destruct olds1; [reflexivity|cbn [length] in Hcap; lia].
Qed.

End Prune.

Lemma pruned_rows_In (rows : list RefreshToken) (u : nat) (now : Z) (x : RefreshToken) :
  In x (pruned_rows rows u now) -> In x rows.
Proof.
  unfold pruned_rows. cbv zeta. destruct (5 <=? _); unfold deleteMany; intros H.
  - apply filter_In in H. destruct H as [H _]. now apply filter_In in H.
  - now apply filter_In in H.
Qed.

Lemma pruned_rows_NoDup (rows : list RefreshToken) (u : nat) (now : Z) :
  NoDup (map rt_id rows) -> NoDup (map rt_id (pruned_rows rows u now)).
Proof.
  intros H. unfold pruned_rows. cbv zeta. destruct (5 <=? _); unfold deleteMany;
    repeat apply NoDup_map_filter; exact H.
Qed.

Lemma keep_last_length (A : Type) (n : nat) (l : list A) :
  length (keep_last n l) = Nat.min n (length l).
Proof. unfold keep_last. rewrite length_skipn. lia. Qed.

Lemma keep_last_In (A : Type) (n : nat) (l : list A) (x : A) :
  In x (keep_last n l) -> In x l.
Proof. unfold keep_last. apply In_skipn. Qed.

(** One issuance keeps the invariant: the new record joins the four
    newest recent ones. *)
Lemma save_step (u : nat) (T : Z) (db : Db) (news : list RefreshToken)
      (c : Z) (tok : Jwt.Token) (e now : Z) :
  cap_inv u T db news c ->
  (c < now)%Z -> (now <= T)%Z -> (T < e)%Z ->
  (forall r, In r (refreshTokens db) -> rt_token r <> tok) ->
  exists r,
    fst (TokenService.saveRefreshToken db u tok (Some e) now) = Ok r /\
    issuance_of r = mkIssuance tok e now /\
    cap_inv u T (snd (TokenService.saveRefreshToken db u tok (Some e) now))
            (keep_last 4 news ++ [r]) now /\
    (forall x, In x (refreshTokens
                       (snd (TokenService.saveRefreshToken db u tok (Some e) now))) ->
               x = r \/ In x (refreshTokens db)).
Proof.
  intros [[Hnd Hbelow] (olds & Hsplit & Hcross & Hasc & Hclock & Hlive & Hlen & Hfull)]
         Hc HnowT HTe Hfresh.
  rewrite saveRefreshToken_unfold. cbv zeta. unfold createRefreshToken.
  cbn [refreshTokens set_refreshTokens nextId users projects contacts].
  replace (existsb _ (pruned_rows (refreshTokens db) u now)) with false.
  2:{ symmetry. apply not_true_is_false. intros Hex.
      apply existsb_exists in Hex. destruct Hex as (x & Hx & E).
      apply token_eqb_eq in E. apply pruned_rows_In in Hx.
      exact (Hfresh x Hx E). }
  cbn [fst snd refreshTokens].
  exists (mkRefreshToken (nextId db) tok u e now). split; [reflexivity|]. split; [reflexivity|].
  destruct (@prune_owned (refreshTokens db) u now T olds news
              Hnd Hsplit Hcross Hasc Hlive HnowT Hlen Hfull)
    as (olds2 & Hsplit2 & Hincl & Hempty).
  split; [|intros x Hx; apply in_app_or in Hx;
           destruct Hx as [Hx|[Hx|[]]];
           [right; now apply pruned_rows_In in Hx|left; now symmetry]].
  split.
  - (* the primary key *)
    split; cbn [refreshTokens nextId].
    + rewrite map_app. apply NoDup_app.
      * now apply pruned_rows_NoDup.
      * cbn [map]. constructor; [intros []|constructor].
      * intros a Ha [Heq|[]]. apply in_map_iff in Ha.
        destruct Ha as (x & Hid & Hx). apply pruned_rows_In in Hx.
        specialize (Hbelow x Hx). cbn [rt_id] in Heq. lia.
    + intros x Hx. apply in_app_or in Hx. destruct Hx as [Hx|[<-|[]]].
      * apply pruned_rows_In in Hx. specialize (Hbelow x Hx). lia.
      * cbn [rt_id]. lia.
  - exists olds2. unfold tokensOf. cbn [refreshTokens].
    assert (Hnews_old : forall a, In a (keep_last 4 news) ->
                                  (rt_createdAt a <= c)%Z).
    { intros a Ha. apply Hclock, in_or_app. right. now apply keep_last_In in Ha. }
    split; [|split; [|split; [|split; [|split; [|split]]]]].
    + rewrite filter_app, Hsplit2. cbn [filter]. unfold TokenService.owned_by.
      cbn [rt_userId]. rewrite Nat.eqb_refl. now rewrite <- app_assoc.
    + intros o n Ho Hn. apply in_app_or in Hn. destruct Hn as [Hn|[<-|[]]].
      * apply Hcross; [now apply Hincl|now apply keep_last_In in Hn].
      * cbn [rt_createdAt].
        assert (rt_createdAt o <= c)%Z
          by (apply Hclock, in_or_app; left; now apply Hincl).
        lia.
    + apply ascending_app_one.
      * unfold keep_last. now apply ascending_skipn.
      * intros a Ha. specialize (Hnews_old a Ha). cbn [rt_createdAt]. lia.
    + intros x Hx. apply in_app_or in Hx. destruct Hx as [Hx|Hx].
      * assert (rt_createdAt x <= c)%Z
          by (apply Hclock, in_or_app; left; now apply Hincl).
        lia.
      * apply in_app_or in Hx. destruct Hx as [Hx|[<-|[]]].
        -- specialize (Hnews_old x Hx). lia.
        -- cbn [rt_createdAt]. lia.
    + intros n Hn. apply in_app_or in Hn. destruct Hn as [Hn|[<-|[]]].
      * apply Hlive. now apply keep_last_In in Hn.
      * exact HTe.
    + rewrite length_app, keep_last_length. cbn [length]. lia.
    + rewrite length_app, keep_last_length. cbn [length]. intros H5.
      apply Hempty. lia.
Qed.

Lemma keep_last_all (A : Type) (n : nat) (l : list A) :
  length l <= n -> keep_last n l = l.
Proof.
  intros H. unfold keep_last. replace (length l - n) with 0 by lia. reflexivity.
Qed.

Lemma keep_last_map (A B : Type) (f : A -> B) (n : nat) (l : list A) :
  map f (keep_last n l) = keep_last n (map f l).
Proof. unfold keep_last. now rewrite skipn_map, length_map. Qed.

(** Dropping all but the last four before appending changes nothing for
    the last five. *)
Lemma keep_last_4_5 (A : Type) (N M : list A) :
  1 <= length M ->
  keep_last 5 (keep_last 4 N ++ M) = keep_last 5 (N ++ M).
Proof.
  intros HM. destruct (Nat.le_gt_cases (length N) 4) as [Hshort|Hlong].
  - now rewrite (@keep_last_all _ 4 N Hshort).
  - unfold keep_last at 1 3. rewrite !length_app.
    replace (keep_last 4 N ++ M) with (skipn (length N - 4) (N ++ M)).
    2:{ rewrite skipn_app. unfold keep_last.
        replace (length N - 4 - length N) with 0 by lia. reflexivity. }
    rewrite skipn_skipn, keep_last_length. f_equal. lia.
Qed.

Lemma saveAll_inv (u : nat) (T : Z) (l : list Issuance) :
  forall (db : Db) (news : list RefreshToken) (c : Z),
    cap_inv u T db news c ->
    increasing_from c l ->
    (forall i, In i l -> (i_at i <= T)%Z /\ (T < i_expiresAt i)%Z) ->
    NoDup (map i_token l) ->
    (forall i r, In i l -> In r (refreshTokens db) -> rt_token r <> i_token i) ->
    exists news' c',
      cap_inv u T (saveAll db u l) news' c' /\
      map issuance_of news' = keep_last 5 (map issuance_of news ++ l).
Proof.
  induction l as [|i l IH]; intros db news c Hinv Hinc Hbound Hnd Hfresh.
  - exists news, c. split; [exact Hinv|]. rewrite app_nil_r.
    symmetry. apply keep_last_all. rewrite length_map.
    destruct Hinv as [_ (olds & _ & _ & _ & _ & _ & Hlen & _)]. exact Hlen.
  - cbn [saveAll]. destruct Hinc as [Hc Hinc].
    destruct (Hbound i (or_introl eq_refl)) as [HiT HTi].
    inversion Hnd as [|? ? Hnotin Hnd']; subst.
    destruct (@save_step u T db news c (i_token i) (i_expiresAt i) (i_at i)
                Hinv Hc HiT HTi)
      as (r & _ & Hr & Hinv1 & Hprov).
    { intros x Hx. apply Hfresh; [now left|exact Hx]. }
    destruct (IH _ _ _ Hinv1 Hinc) as (news' & c' & Hinv' & Hmap).
    + intros j Hj. apply Hbound. now right.
    + exact Hnd'.
    + intros j x Hj Hx. destruct (Hprov x Hx) as [->|Hold].
      * replace (rt_token r) with (i_token i)
          by (change (rt_token r) with (i_token (issuance_of r)); now rewrite Hr).
        intros Heq. apply Hnotin. rewrite Heq. now apply in_map.
      * apply Hfresh; [now right|exact Hold].
    + exists news', c'. split; [exact Hinv'|]. rewrite Hmap.
      rewrite map_app, keep_last_map. cbn [map]. rewrite Hr.
      replace (mkIssuance (i_token i) (i_expiresAt i) (i_at i)) with i
        by (now destruct i).
      rewrite <- app_assoc. cbn [app]. apply keep_last_4_5. cbn [length]. lia.
Qed.

(** X1.  Successive issuance through the function that enforces the cap.
    Start from any table with a sound primary key; issue at least five
    tokens for an account through [saveRefreshToken], at strictly
    increasing instants later than the creation of every record the
    account already has, each token new to the table and expiring after
    the instant [T] that the last issuance does not exceed.  Then the
    account has exactly five records, they are the five issued last, in
    the order of issuance, and all five are live at [T]. *)
Theorem saveRefreshToken_keeps_five_newest
        (db : Db) (u : nat) (l : list Issuance) (c T : Z) :
  ids_ok db ->
  (forall r, In r (tokensOf db u) -> (rt_createdAt r <= c)%Z) ->
  increasing_from c l ->
  (forall i, In i l -> (i_at i <= T)%Z /\ (T < i_expiresAt i)%Z) ->
  NoDup (map i_token l) ->
  (forall i r, In i l -> In r (refreshTokens db) -> rt_token r <> i_token i) ->
  5 <= length l ->
  map issuance_of (tokensOf (saveAll db u l) u) = keep_last 5 l /\
  length (tokensOf (saveAll db u l) u) = 5 /\
  liveTokensOf (saveAll db u l) u T = tokensOf (saveAll db u l) u.
Proof.
  intros Hids Hclock Hinc Hbound Hnd Hfresh Hfive.
  assert (Hinv : cap_inv u T db [] c).
  { split; [exact Hids|]. exists (tokensOf db u).
    split; [now rewrite app_nil_r|]. split; [intros o n _ []|].
    split; [exact I|]. split; [now rewrite app_nil_r|].
    split; [intros n []|]. split; [cbn; lia|cbn; lia]. }
  destruct (saveAll_inv l Hinv Hinc Hbound Hnd Hfresh)
    as (news' & c' & [_ (olds & Hsplit & _ & _ & _ & Hlive & _ & Hfull)] & Hmap).
  cbn [map app] in Hmap.
  assert (Hlen : length news' = 5).
  { rewrite <- (length_map issuance_of), Hmap, keep_last_length. lia. }
  rewrite (Hfull ltac:(lia)) in Hsplit. cbn [app] in Hsplit.
  unfold liveTokensOf. rewrite Hsplit.
  split; [exact Hmap|]. split; [exact Hlen|].
  apply filter_all. intros n Hn. apply Z.ltb_lt. now apply Hlive.
Qed.

Lemma saveRefreshToken_keeps_five_newest_example :
  map issuance_of (tokensOf (saveAll db_stale 1 six_issuances) 1)
    = skipn 1 six_issuances /\
  length (tokensOf (saveAll db_stale 1 six_issuances) 1) = 5 /\
  liveTokensOf (saveAll db_stale 1 six_issuances) 1 6000
    = tokensOf (saveAll db_stale 1 six_issuances) 1.
Proof.
  apply (@saveRefreshToken_keeps_five_newest db_stale 1 six_issuances 0 6000).
  - split; cbn.
    + constructor; [intros []|constructor].
    + intros r [<-|[]]. cbn. lia.
  - intros r [<-|[]]. cbn. lia.
  - cbn. lia.
  - intros i Hi. cbn in Hi.
    repeat (destruct Hi as [<-|Hi]; [cbn; lia|]). destruct Hi.
  - cbn. repeat (constructor; [cbn; intuition discriminate|]). constructor.
  - intros i r Hi [<-|[]]. cbn in Hi.
    repeat (destruct Hi as [<-|Hi]; [cbn; discriminate|]). destruct Hi.
  - cbn. lia.
Defined.

Section CountFacts.
Variable A : Type.
Variable before : A -> A -> bool.
Variable g : A -> bool.

Lemma insert_sorted_filter_length (a : A) (l : list A) :
  length (filter g (insert_sorted before a l)) = length (filter g (a :: l)).
Proof.
  induction l as [|b l IH]; [reflexivity|].
  cbn [insert_sorted]. destruct (before a b); [reflexivity|].
  cbn [filter] in *. destruct (g b), (g a); cbn [length] in *; lia.
Qed.

Lemma sort_by_filter_length (l : list A) :
  length (filter g (sort_by before l)) = length (filter g l).
Proof.
  induction l as [|a l IH]; [reflexivity|].
  cbn [sort_by fold_right].
  change (fold_right (insert_sorted before) [] l) with (sort_by before l).
  rewrite insert_sorted_filter_length. cbn [filter].
  destruct (g a); cbn [length]; lia.
Qed.

Lemma filter_length_bound (l : list A) : length (filter g l) <= length l.
Proof.
  induction l as [|a l IH]; [reflexivity|]. cbn [filter].
  destruct (g a); cbn [length]; lia.
Qed.
End CountFacts.

(** Before it stores the new record, [saveRefreshToken] leaves the
    account at most four records. *)
Lemma pruned_rows_at_most_four (rows : list RefreshToken) (u : nat) (now : Z) :
  length (filter (TokenService.owned_by u) (pruned_rows rows u now)) <= 4.
Proof.
  unfold pruned_rows. cbv zeta.
  set (rows1 := deleteMany (TokenService.expired_of u now) rows).
  set (E := findMany (TokenService.owned_by u) TokenService.newer_first rows1).
  destruct (5 <=? length E) eqn:Hcap.
  - unfold deleteMany at 1. rewrite filter_comm.
    set (g := fun r => negb (TokenService.id_in (map rt_id (skipn 4 E)) r)).
    rewrite <- (sort_by_filter_length TokenService.newer_first g).
    change (sort_by TokenService.newer_first
              (filter (TokenService.owned_by u) rows1)) with E.
    rewrite <- (firstn_skipn 4 E) at 1. rewrite filter_app, length_app.
    rewrite (filter_none g (skipn 4 E)).
    + pose proof (filter_length_bound g (firstn 4 E)).
      pose proof (firstn_le_length 4 E). cbn [length]. lia.
    + intros x Hx. unfold g. apply negb_false_iff, id_in_spec. now apply in_map.
  - apply Nat.leb_gt in Hcap. unfold E, findMany in Hcap.
    rewrite sort_by_length in Hcap. lia.
Qed.

(** The cap, for the function that enforces it: whatever the table, the
    account, the token, the expiry and the instant, after
    [saveRefreshToken] the account has at most five records, live or
    not. *)
Lemma saveRefreshToken_cap (db : Db) (u : nat) (tok : Jwt.Token)
      (e : Date) (now : Z) :
  length (tokensOf (snd (TokenService.saveRefreshToken db u tok e now)) u) <= 5.
Proof.
  pose proof (pruned_rows_at_most_four (refreshTokens db) u now) as Hfour.
  unfold TokenService.saveRefreshToken. fold (pruned_rows (refreshTokens db) u now).
  destruct e as [e|]; [|cbn [snd]; unfold tokensOf; cbn [refreshTokens set_refreshTokens]; lia].
  unfold createRefreshToken.
  cbn [refreshTokens set_refreshTokens nextId users projects contacts].
  destruct (existsb _ (pruned_rows (refreshTokens db) u now));
    cbn [snd]; unfold tokensOf; cbn [refreshTokens set_refreshTokens]; [lia|].
  rewrite filter_app, length_app.
  pose proof (filter_length_bound (TokenService.owned_by u)
                [mkRefreshToken (nextId db) tok u e now]) as Hone.
  cbn [length] in Hone. lia.
Qed.

(** [generateTokenPair] stores through [saveRefreshToken] or not at all. *)
Lemma generateTokenPair_cap (ms : string -> option Z) (env : Env) (db : Db)
      (user : User) (now : Z) :
  snd (TokenService.generateTokenPair ms env db user now) = db \/
  length (tokensOf (snd (TokenService.generateTokenPair ms env db user now))
                   (u_id user)) <= 5.
Proof.
  unfold TokenService.generateTokenPair.
  destruct (TokenService.generateAccessToken ms env user now); [|now left].
  destruct (TokenService.generateRefreshToken ms env user now) as [rt|];
    [|now left].
  right.
  pose proof (saveRefreshToken_cap db (u_id user) rt
                (TokenService.refreshExpiresAt env now) now) as Hcap.
  destruct (TokenService.saveRefreshToken db (u_id user) rt
              (TokenService.refreshExpiresAt env now) now) as [[r|err] db'];
    exact Hcap.
Qed.

(** Registration stores one token for the account it creates: with no
    record referring to an account that does not exist yet, the new
    account has at most one. *)
Lemma register_at_most_one (ms : string -> option Z) (env : Env)
      (bcrypt_hash : string -> string) (db : Db) (b : AuthRoutes.RegisterBody)
      (now : Z) :
  (forall r, In r (refreshTokens db) -> rt_userId r < nextId db) ->
  length (tokensOf (snd (AuthRoutes.register ms env bcrypt_hash db b now))
                   (nextId db)) <= 1.
Proof.
  intros Hrefs.
  assert (Hnone : filter (TokenService.owned_by (nextId db)) (refreshTokens db) = []).
  { apply filter_none. intros r Hr. unfold TokenService.owned_by.
    apply Nat.eqb_neq. specialize (Hrefs r Hr). lia. }
  unfold AuthRoutes.register.
  destruct (AuthRoutes.findUserByEmail db (AuthRoutes.reg_email b));
    [cbn [snd]; unfold tokensOf; rewrite Hnone; cbn; lia|].
  cbn [AuthRoutes.createUser u_id].
  destruct (AuthRoutes.generateTokens ms env (nextId db) now) as [[at_ rt]|];
    [|cbn [snd]; unfold tokensOf; cbn [refreshTokens]; rewrite Hnone; cbn; lia].
  unfold createRefreshToken. cbn [refreshTokens nextId users projects contacts].
  destruct (existsb _ (refreshTokens db)); cbn [snd]; unfold tokensOf;
    cbn [refreshTokens]; [rewrite Hnone; cbn; lia|].
  rewrite filter_app, Hnone. cbn [app].
  apply filter_length_bound.
Qed.

(** C1 at the login route.  Ana logs in six times, once per second,
    starting without a stored token.  Every login answers 200, and after
    the sixth she has six refresh-token records, all of them live: the
    route removes the expired records of the account and stores the new
    one, and never evicts. *)
Theorem six_logins_leave_six_live_tokens :
  fst (loginAll db_ana ana_login [0; 1000; 2000; 3000; 4000; 5000]%Z)
    = [200; 200; 200; 200; 200; 200] /\
  length (liveTokensOf
            (snd (loginAll db_ana ana_login [0; 1000; 2000; 3000; 4000; 5000]%Z))
            1 5000) = 6 /\
  map rt_createdAt
      (tokensOf (snd (loginAll db_ana ana_login
                        [0; 1000; 2000; 3000; 4000; 5000]%Z)) 1)
    = [0; 1000; 2000; 3000; 4000; 5000]%Z.
Proof. vm_compute. repeat split. Qed.

(** The same six issuances through [generateTokenPair] leave Ana the five
    newest records. *)
Lemma six_token_pairs_leave_five_live_tokens :
  length (liveTokensOf
            (pairAll db_ana ana [0; 1000; 2000; 3000; 4000; 5000]%Z) 1 5000) = 5 /\
  map rt_createdAt
      (tokensOf (pairAll db_ana ana [0; 1000; 2000; 3000; 4000; 5000]%Z) 1)
    = [1000; 2000; 3000; 4000; 5000]%Z.
Proof. vm_compute. split; reflexivity. Qed.

(** A login that answers 200 keeps every record of the account that has
    not expired and adds one: it never evicts. *)
Lemma login_never_evicts (ms : string -> option Z) (env : Env)
      (bcrypt_compare : string -> string -> bool) (db : Db)
      (b : AuthRoutes.LoginBody) (now : Z) :
  status (fst (AuthRoutes.login ms env bcrypt_compare db b now)) = 200 ->
  exists user r,
    AuthRoutes.findUserByEmail db (AuthRoutes.login_email b) = Some user /\
    rt_userId r = u_id user /\ rt_createdAt r = now /\
    refreshTokens (snd (AuthRoutes.login ms env bcrypt_compare db b now))
    = deleteMany (TokenService.expired_of (u_id user) now) (refreshTokens db)
      ++ [r].
Proof.
  unfold AuthRoutes.login. intros Hstatus.
  destruct (AuthRoutes.findUserByEmail db (AuthRoutes.login_email b))
    as [user|]; [|discriminate Hstatus].
  destruct (negb (u_isActive user)); [discriminate Hstatus|].
  destruct (negb (bcrypt_compare _ _)); [discriminate Hstatus|].
  destruct (AuthRoutes.generateTokens ms env (u_id user) now) as [[at_ rt]|];
    [|discriminate Hstatus].
  unfold createRefreshToken in *.
  cbn [refreshTokens set_refreshTokens nextId users projects contacts] in *.
  destruct (existsb _ _); [discriminate Hstatus|].
  cbn [snd refreshTokens]. eexists user, _.
  split; [reflexivity|]. split; [|split]; [| |reflexivity]; reflexivity.
Qed.

(* ================================================================== *)
(** * More of the token service *)

Lemma owned_by_spec (u : nat) (r : RefreshToken) :
  TokenService.owned_by u r = true <-> rt_userId r = u.
Proof. unfold TokenService.owned_by. apply Nat.eqb_eq. Qed.

(** X2.  Eviction is scoped to the account: [saveRefreshToken] for the account
    [u] leaves the records of every other account as they are. *)
Theorem saveRefreshToken_scoped (db : Db) (u v : nat) (tok : Jwt.Token)
        (e : Date) (now : Z) :
  NoDup (map rt_id (refreshTokens db)) ->
  v <> u ->
  tokensOf (snd (TokenService.saveRefreshToken db u tok e now)) v = tokensOf db v.
Proof.
  intros Hnd Hvu.
  assert (Hpruned : filter (TokenService.owned_by v)
                           (pruned_rows (refreshTokens db) u now)
                    = filter (TokenService.owned_by v) (refreshTokens db)).
  { unfold pruned_rows. cbv zeta.
    set (rows1 := deleteMany (TokenService.expired_of u now) (refreshTokens db)).
    assert (Hrows1 : filter (TokenService.owned_by v) rows1
                     = filter (TokenService.owned_by v) (refreshTokens db)).
    { unfold rows1, deleteMany. rewrite filter_comm. apply filter_all.
      intros x Hx. apply filter_In in Hx. destruct Hx as [_ Hx].
      apply owned_by_spec in Hx. unfold TokenService.expired_of.
      replace (rt_userId x =? u) with false; [reflexivity|].
      symmetry. apply Nat.eqb_neq. congruence. }
    destruct (5 <=? _); [|exact Hrows1].
    unfold deleteMany at 1. rewrite filter_comm, Hrows1.
    apply filter_all. intros x Hx. apply filter_In in Hx.
    destruct Hx as [Hxin Hxv]. apply owned_by_spec in Hxv.
    apply negb_true_iff.
    destruct (TokenService.id_in _ x) eqn:E; [|reflexivity].
    apply id_in_spec, in_map_iff in E. destruct E as (d & Hid & Hd).
    apply In_skipn, In_findMany in Hd. destruct Hd as [Hdin Hdu].
    apply owned_by_spec in Hdu. unfold rows1, deleteMany in Hdin.
    apply filter_In in Hdin. destruct Hdin as [Hdin _].
    assert (d = x) by (apply (NoDup_map_inj rt_id (refreshTokens db)); assumption).
    subst d. congruence. }
  unfold TokenService.saveRefreshToken.
  fold (pruned_rows (refreshTokens db) u now).
  destruct e as [e|];
    [|cbn [snd]; unfold tokensOf; cbn [refreshTokens set_refreshTokens];
      exact Hpruned].
  unfold createRefreshToken.
  cbn [refreshTokens set_refreshTokens nextId users projects contacts].
  destruct (existsb _ (pruned_rows (refreshTokens db) u now));
    cbn [snd]; unfold tokensOf; cbn [refreshTokens set_refreshTokens];
    [exact Hpruned|].
  rewrite filter_app, Hpruned. cbn [filter]. unfold TokenService.owned_by at 2.
  cbn [rt_userId]. replace (u =? v) with false; [apply app_nil_r|].
  symmetry. apply Nat.eqb_neq. congruence.
Qed.

Lemma saveRefreshToken_scoped_witness :
  NoDup (map rt_id (refreshTokens db_stale)) /\
  tokensOf (snd (TokenService.saveRefreshToken db_stale 9 (route_refresh 9 5000)
                   (Some 9000%Z) 5000)) 1
  = tokensOf db_stale 1.
Proof.
  assert (Hnd : NoDup (map rt_id (refreshTokens db_stale)))
    by (cbn; constructor; [intros []|constructor]).
  split; [exact Hnd|].
  apply (@saveRefreshToken_scoped db_stale 9 1 (route_refresh 9 5000)
           (Some 9000%Z) 5000 Hnd).
  discriminate.
Defined.

Lemma sign_ok (ms : string -> option Z) (f : Jwt.Fields) (secret : option string)
      (o : Jwt.SignOptions) (now : Z) (t : Jwt.Token) :
  Jwt.sign ms f secret o now = Ok t ->
  exists key span,
    secret = Some key /\ truthy secret = true /\
    ms (Jwt.expiresIn o) = Some span /\
    t = Jwt.Signed key
          (Jwt.mkPayload (Jwt.f_userId f) (Jwt.f_email f) (Jwt.f_role f)
             (Jwt.f_name f) (Jwt.f_tokenType f) (Jwt.issuer o) (Jwt.audience o)
             (Jwt.clock now) (Jwt.clock now + span)).
Proof.
  unfold Jwt.sign. destruct secret as [[|c key]|]; try discriminate.
  destruct (ms (Jwt.expiresIn o)) as [span|]; [|discriminate].
  intros [= <-]. exists (String c key), span. auto.
Qed.

(** X3.  Access and refresh tokens of the token service are told apart by
    their secrets alone.  With different secrets, [verifyRefreshToken]
    rejects every access token and [verifyAccessToken] every refresh
    token, at any time.  With one secret for both, an access token passes
    [verifyRefreshToken] until it expires, although it carries no
    [tokenType]. *)
Theorem token_kinds_told_apart_by_secret
        (ms : string -> option Z) (env : Env) (A : User) (now now' : Z)
        (accessToken refreshToken : Jwt.Token) :
  TokenService.generateAccessToken ms env A now = Ok accessToken ->
  TokenService.generateRefreshToken ms env A now = Ok refreshToken ->
  (JWT_SECRET env <> JWT_REFRESH_SECRET env ->
   TokenService.verifyRefreshToken env accessToken now'
     = Throw (Error "Token de refresco inválido o expirado") /\
   TokenService.verifyAccessToken env refreshToken now'
     = Throw (Error "Token de acceso inválido o expirado")) /\
  (JWT_SECRET env = JWT_REFRESH_SECRET env ->
   exists p, TokenService.decodeToken accessToken = Some p /\
             Jwt.tokenType p = None /\
             ((Jwt.clock now' < Jwt.exp p)%Z ->
              TokenService.verifyRefreshToken env accessToken now' = Ok p)).
Proof.
  unfold TokenService.generateAccessToken, TokenService.generateRefreshToken.
  intros Ha Hr.
  apply sign_ok in Ha. destruct Ha as (ka & sa & Hka & _ & _ & ->).
  apply sign_ok in Hr. destruct Hr as (kr & sr & Hkr & Htr & _ & ->).
  rewrite Hka, Hkr in *. split.
  - intros Hdiff.
    assert (Hne : String.eqb ka kr = false)
      by (apply String.eqb_neq; congruence).
    rewrite verifyRefreshToken_checks, verifyAccessToken_checks, Hka, Hkr.
    unfold checks_pass. rewrite Hne.
    rewrite String.eqb_sym in Hne. rewrite Hne.
    rewrite !andb_false_r. cbn [andb]. split; reflexivity.
  - intros [= ->]. eexists. split; [reflexivity|]. split; [reflexivity|].
    cbn [Jwt.exp]. intros Htime.
    rewrite verifyRefreshToken_checks, Hkr. unfold checks_pass.
    rewrite Htr, String.eqb_refl. cbn [Jwt.iss Jwt.aud Jwt.exp Jwt.issuer
      Jwt.audience andb].
    rewrite !(proj2 (opt_matches_some _ _) eq_refl).
    apply Z.ltb_lt in Htime. rewrite Htime. reflexivity.
Qed.

Lemma token_kinds_told_apart_by_secret_witness :
  JWT_SECRET sample_env <> JWT_REFRESH_SECRET sample_env /\
  TokenService.verifyRefreshToken sample_env ana_access 1000
    = Throw (Error "Token de refresco inválido o expirado") /\
  TokenService.verifyAccessToken sample_env ana_refresh 1000
    = Throw (Error "Token de acceso inválido o expirado").
Proof.
  assert (Hdiff : JWT_SECRET sample_env <> JWT_REFRESH_SECRET sample_env)
    by discriminate.
  split; [exact Hdiff|].
  exact (proj1 (@token_kinds_told_apart_by_secret sample_ms sample_env ana 0 1000
                  ana_access ana_refresh eq_refl eq_refl) Hdiff).
Defined.

(** X4.  The tokens that the authentication routes sign carry no issuer and no
    audience, so the token service accepts none of them: whatever the
    configuration and the time, [verifyAccessToken] rejects the access
    token and [verifyRefreshToken] the refresh token of
    [generateTokens]. *)
Theorem route_tokens_rejected_by_token_service
        (ms : string -> option Z) (env : Env) (userId : nat) (now now' : Z)
        (accessToken refreshToken : Jwt.Token) :
  AuthRoutes.generateTokens ms env userId now = Ok (accessToken, refreshToken) ->
  TokenService.verifyAccessToken env accessToken now'
    = Throw (Error "Token de acceso inválido o expirado") /\
  TokenService.verifyRefreshToken env refreshToken now'
    = Throw (Error "Token de refresco inválido o expirado").
Proof.
  unfold AuthRoutes.generateTokens, bind. intros H.
  destruct (Jwt.sign ms _ (JWT_SECRET env) _ now) as [a|] eqn:Ha; [|discriminate].
  destruct (Jwt.sign ms _ (REFRESH_TOKEN_SECRET env) _ now) as [r|] eqn:Hr;
    [|discriminate].
  injection H as <- <-.
  apply sign_ok in Ha. destruct Ha as (ka & sa & _ & _ & _ & ->).
  apply sign_ok in Hr. destruct Hr as (kr & sr & _ & _ & _ & ->).
  rewrite verifyAccessToken_checks, verifyRefreshToken_checks.
  unfold checks_pass.
  cbn [Jwt.iss Jwt.aud Jwt.issuer Jwt.audience AuthRoutes.accessOptions
       AuthRoutes.refreshOptions Jwt.opt_matches].
  destruct (JWT_SECRET env), (JWT_REFRESH_SECRET env);
    rewrite ?andb_false_r; cbn [andb]; split; reflexivity.
Qed.

Lemma route_tokens_rejected_by_token_service_witness :
  exists accessToken,
    AuthRoutes.generateTokens sample_ms sample_env 1 0
      = Ok (accessToken, route_refresh 1 0) /\
    TokenService.verifyAccessToken sample_env accessToken 1000
      = Throw (Error "Token de acceso inválido o expirado") /\
    TokenService.verifyRefreshToken sample_env (route_refresh 1 0) 1000
      = Throw (Error "Token de refresco inválido o expirado").
Proof.
  eexists. split; [reflexivity|].
  exact (@route_tokens_rejected_by_token_service sample_ms sample_env 1 0 1000
           _ _ eq_refl).
Defined.

Lemma find_app_last (A : Type) (p : A -> bool) (l : list A) (x : A) :
  (forall y, In y l -> p y = false) ->
  find p (l ++ [x]) = if p x then Some x else None.
Proof.
  induction l as [|a l IH]; cbn [app find]; intros H; [reflexivity|].
  rewrite (H a (or_introl eq_refl)). apply IH. intros y Hy. apply H. now right.
Qed.

Lemma find_filter (A : Type) (p q : A -> bool) (l : list A) :
  (forall x, In x l -> p x = true -> q x = true) ->
  find p (filter q l) = find p l.
Proof.
  induction l as [|a l IH]; cbn [filter find]; intros H; [reflexivity|].
  assert (IH' : find p (filter q l) = find p l)
    by (apply IH; intros x Hx; apply H; now right).
  destruct (q a) eqn:Hq; cbn [find].
  - now rewrite IH'.
  - destruct (p a) eqn:Hp; [|exact IH'].
    rewrite (H a (or_introl eq_refl) Hp) in Hq. discriminate.
Qed.

(** What a [saveRefreshToken] that returns has done. *)
Lemma saveRefreshToken_ok (db db' : Db) (u : nat) (tok : Jwt.Token) (d : Date)
      (now : Z) (r : RefreshToken) :
  TokenService.saveRefreshToken db u tok d now = (Ok r, db') ->
  exists e,
    d = Some e /\ r = mkRefreshToken (nextId db) tok u e now /\
    refreshTokens db' = pruned_rows (refreshTokens db) u now ++ [r] /\
    users db' = users db /\
    (forall x, In x (pruned_rows (refreshTokens db) u now) -> rt_token x <> tok).
Proof.
  unfold TokenService.saveRefreshToken.
  fold (pruned_rows (refreshTokens db) u now).
  destruct d as [e|]; [|discriminate].
  unfold createRefreshToken.
  cbn [refreshTokens set_refreshTokens nextId users projects contacts].
  destruct (existsb _ (pruned_rows (refreshTokens db) u now)) eqn:Hex;
    [discriminate|].
  intros [= <- <-]. exists e. cbn [refreshTokens users].
  repeat (split; [reflexivity|]).
  intros x Hx Heq.
  assert (Htrue : existsb (fun r0 => Jwt.eqb (rt_token r0) tok)
                          (pruned_rows (refreshTokens db) u now) = true).
  { apply existsb_exists. exists x. split; [exact Hx|now apply token_eqb_eq]. }
  congruence.
Qed.

(** X5.  A token pair that [generateTokenPair] returns can be looked up: until
    the expiry it returned, [findRefreshToken] finds the record of the
    refresh token, which belongs to the account and was created at the
    instant of the call; from the expiry on it finds nothing. *)
Theorem generateTokenPair_then_find
        (ms : string -> option Z) (env : Env) (db db' : Db) (user : User)
        (now : Z) (pair : TokenService.TokenPair) :
  TokenService.generateTokenPair ms env db user now = (Ok pair, db') ->
  exists e,
    TokenService.tp_expiresAt pair = Some e /\
    (forall now', (now' < e)%Z ->
       TokenService.findRefreshToken db' (TokenService.tp_refreshToken pair) now'
       = Some (mkRefreshToken (nextId db) (TokenService.tp_refreshToken pair)
                 (u_id user) e now,
               find (fun x => u_id x =? u_id user) (users db))) /\
    (forall now', (e <= now')%Z ->
       TokenService.findRefreshToken db' (TokenService.tp_refreshToken pair) now'
       = None).
Proof.
  unfold TokenService.generateTokenPair.
  destruct (TokenService.generateAccessToken ms env user now) as [a|];
    [|discriminate].
  destruct (TokenService.generateRefreshToken ms env user now) as [t|];
    [|discriminate].
  destruct (TokenService.saveRefreshToken db (u_id user) t
              (TokenService.refreshExpiresAt env now) now) as [[r|err] db1] eqn:Hsave;
    [|discriminate].
  intros [= <- <-]. cbn [TokenService.tp_expiresAt TokenService.tp_refreshToken].
  apply saveRefreshToken_ok in Hsave.
  destruct Hsave as (e & He & Hr & Hrows & Husers & Hfresh).
  exists e. split; [exact He|].
  assert (Hfind : forall now',
    find (fun x => Jwt.eqb (rt_token x) t && (now' <? rt_expiresAt x)%Z)
         (refreshTokens db1)
    = if (now' <? e)%Z then Some r else None).
  { intros now'. rewrite Hrows, find_app_last.
    - rewrite Hr. cbn [rt_token rt_expiresAt]. now rewrite token_eqb_refl.
    - intros y Hy. apply andb_false_iff. left. apply token_eqb_neq.
      now apply Hfresh. }
  split; intros now' Htime; unfold TokenService.findRefreshToken;
    rewrite Hfind.
  - apply Z.ltb_lt in Htime. rewrite Htime, Husers, Hr. reflexivity.
  - apply Z.ltb_ge in Htime. now rewrite Htime.
Qed.

Lemma generateTokenPair_then_find_witness :
  exists pair db',
    TokenService.generateTokenPair sample_ms sample_env db_ana ana 0
      = (Ok pair, db') /\
    TokenService.tp_expiresAt pair = Some 604800000%Z /\
    TokenService.findRefreshToken db' (TokenService.tp_refreshToken pair)
                                  604800000 = None.
Proof.
  eexists _, _. split; [reflexivity|].
  destruct (@generateTokenPair_then_find sample_ms sample_env db_ana _ ana 0 _
              eq_refl) as (e & He & _ & Hgone).
  split; [reflexivity|]. apply Hgone.
  cbn in He. injection He as <-. apply Z.le_refl.
Defined.

(** X6.  The sweep is invisible to lookups: whatever token is looked up at the
    instant of the sweep or later, [findRefreshToken] answers after
    [cleanExpiredTokens] what it answers without it. *)
Theorem sweep_invisible_to_lookup (db : Db) (t : Jwt.Token) (now now' : Z) :
  (now <= now')%Z ->
  TokenService.findRefreshToken
    (snd (TokenService.cleanExpiredTokens db now)) t now'
  = TokenService.findRefreshToken db t now'.
Proof.
  intros Hle. unfold TokenService.findRefreshToken, TokenService.cleanExpiredTokens.
  cbn [snd refreshTokens set_refreshTokens users].
  unfold deleteMany. rewrite find_filter; [reflexivity|].
  intros x _ Hp. apply andb_true_iff in Hp. destruct Hp as [_ Hp].
  apply Z.ltb_lt in Hp. unfold TokenService.expired.
  apply negb_true_iff, Z.ltb_ge. lia.
Qed.

Lemma sweep_invisible_to_lookup_witness :
  TokenService.findRefreshToken
    (snd (TokenService.cleanExpiredTokens db_session 5000))
    (route_refresh 1 0) 6000
  = TokenService.findRefreshToken db_session (route_refresh 1 0) 6000.
Proof. apply sweep_invisible_to_lookup. lia. Defined.

Lemma checks_pass_payload (secret : option string) (t : Jwt.Token) (now : Z)
      (p : Jwt.Payload) :
  checks_pass secret t now = Some p ->
  TokenService.decodeToken t = Some p /\ (Jwt.clock now < Jwt.exp p)%Z.
Proof.
  unfold checks_pass. destruct secret as [key|]; [|discriminate].
  destruct t as [s|k q]; [discriminate|].
  destruct (_ && _ && _ && _ && (Jwt.clock now <? Jwt.exp q)%Z) eqn:H;
    [|discriminate].
  intros [= <-]. apply andb_true_iff in H. destruct H as [_ H].
  apply Z.ltb_lt in H. split; [reflexivity|exact H].
Qed.

(** X7.  Revocation in the token service is scoped.  [deleteRefreshToken]
    makes the token unknown to [findRefreshToken] and leaves every lookup
    of another token as it was; [deleteAllUserRefreshTokens] leaves the
    account without a record and every other account with the records it
    had. *)
Theorem revocation_is_scoped (db : Db) (u : nat) (t : Jwt.Token) :
  let db_one := snd (TokenService.deleteRefreshToken db t) in
  let db_all := snd (TokenService.deleteAllUserRefreshTokens db u) in
  (forall now, TokenService.findRefreshToken db_one t now = None) /\
  (forall t' now, t' <> t ->
     TokenService.findRefreshToken db_one t' now
     = TokenService.findRefreshToken db t' now) /\
  tokensOf db_all u = [] /\
  (forall v, v <> u -> tokensOf db_all v = tokensOf db v).
Proof.
  cbv zeta. unfold TokenService.deleteRefreshToken,
    TokenService.deleteAllUserRefreshTokens, TokenService.findRefreshToken,
    tokensOf, deleteMany.
  cbn [snd refreshTokens set_refreshTokens users].
  split; [|split; [|split]].
  - intros now.
    replace (find _ (filter _ (refreshTokens db))) with (@None RefreshToken);
      [reflexivity|].
    symmetry. apply find_none_iff. intros x Hx. apply filter_In in Hx.
    destruct Hx as [_ Hx]. apply negb_true_iff in Hx. now rewrite Hx.
  - intros t' now Hne. rewrite find_filter; [reflexivity|].
    intros x _ Hx. apply andb_true_iff in Hx. destruct Hx as [Hx _].
    apply token_eqb_eq in Hx. apply negb_true_iff, token_eqb_neq. congruence.
  - apply filter_none. intros x Hx. apply filter_In in Hx.
    destruct Hx as [_ Hx]. now apply negb_true_iff in Hx.
  - intros v Hne. rewrite filter_comm.
    apply filter_all. intros x Hx. apply filter_In in Hx.
    destruct Hx as [_ Hx]. unfold TokenService.owned_by in *.
    apply Nat.eqb_eq in Hx. apply negb_true_iff, Nat.eqb_neq. congruence.
Qed.

Lemma revocation_is_scoped_witness :
  TokenService.findRefreshToken
    (snd (TokenService.deleteRefreshToken db_session ana_refresh))
    (route_refresh 1 0) 5000
  = TokenService.findRefreshToken db_session (route_refresh 1 0) 5000.
Proof.
  apply (@revocation_is_scoped db_session 1 ana_refresh). discriminate.
Defined.

Lemma checks_pass_later (secret : option string) (t : Jwt.Token) (now now' : Z)
      (p : Jwt.Payload) :
  checks_pass secret t now = Some p ->
  (Jwt.clock now' < Jwt.exp p)%Z ->
  checks_pass secret t now' = Some p.
Proof.
  unfold checks_pass. destruct secret as [key|]; [|discriminate].
  destruct t as [s|k q]; [discriminate|].
  destruct (truthy (Some key) && String.eqb k key
            && Jwt.opt_matches (Some TokenService.portfolio_issuer) (Jwt.iss q)
            && Jwt.opt_matches (Some TokenService.portfolio_audience) (Jwt.aud q));
    cbn [andb]; [|discriminate].
  destruct (Jwt.clock now <? Jwt.exp q)%Z; [|discriminate].
  intros [= <-] Hlt. apply Z.ltb_lt in Hlt. now rewrite Hlt.
Qed.

(** X8.  [isTokenNearExpiry] against verification.  An access token that
    verifies now and is not near expiry for a threshold of [thr] minutes
    still verifies, with the same payload, at every instant of the next
    [thr] minutes; and a token that is not near expiry for a threshold
    that is not negative has not expired. *)
Theorem not_near_expiry_stays_valid
        (env : Env) (t : Jwt.Token) (thr now now' : Z) (p : Jwt.Payload) :
  TokenService.isTokenNearExpiry t thr now = false ->
  TokenService.verifyAccessToken env t now = Ok p ->
  (now <= now' <= now + thr * 60 * 1000)%Z ->
  TokenService.verifyAccessToken env t now' = Ok p /\
  (Jwt.clock (now + thr * 60 * 1000) < Jwt.exp p)%Z.
Proof.
  intros Hnear Hver Htime.
  rewrite verifyAccessToken_checks in Hver.
  destruct (checks_pass (JWT_SECRET env) t now) as [q|] eqn:Hchk;
    [|discriminate].
  injection Hver as ->.
  destruct (checks_pass_payload _ _ _ Hchk) as [Hdec _].
  unfold TokenService.isTokenNearExpiry in Hnear. rewrite Hdec in Hnear.
  destruct (Jwt.exp p =? 0)%Z; [discriminate|].
  cbv zeta in Hnear. apply Z.leb_gt in Hnear.
  assert (Hlate : (Jwt.clock (now + thr * 60 * 1000) < Jwt.exp p)%Z).
  { unfold Jwt.clock. apply Z.div_lt_upper_bound; lia. }
  split; [|exact Hlate].
  rewrite verifyAccessToken_checks.
  rewrite (@checks_pass_later _ _ now now' p Hchk); [reflexivity|].
  unfold Jwt.clock. apply Z.div_lt_upper_bound; lia.
Qed.

Lemma not_near_expiry_stays_valid_witness :
  exists p,
    TokenService.verifyAccessToken sample_env ana_access 300000 = Ok p /\
    (Jwt.clock 300000 < Jwt.exp p)%Z.
Proof.
  eexists.
  apply (@not_near_expiry_stays_valid sample_env ana_access 5 0 300000);
    [reflexivity|reflexivity|lia].
Defined.

(** [isTokenNearExpiry] never says "not near" of a token it cannot read
    or of one that has run out: a string that is no JWT, a payload whose
    [exp] is 0, and, for a threshold that is not negative, a token whose
    expiry second has been reached, are all near expiry; and once a token
    is near expiry it stays so, at every later instant and for every
    larger threshold. *)
Theorem isTokenNearExpiry_conservative (t : Jwt.Token) (thr thr' now now' : Z) :
  (0 <= thr)%Z -> (thr <= thr')%Z -> (now <= now')%Z ->
  (TokenService.decodeToken t = None ->
   TokenService.isTokenNearExpiry t thr now = true) /\
  (forall p, TokenService.decodeToken t = Some p ->
             (Jwt.exp p <= Jwt.clock now)%Z ->
             TokenService.isTokenNearExpiry t thr now = true) /\
  (TokenService.isTokenNearExpiry t thr now = true ->
   TokenService.isTokenNearExpiry t thr' now' = true).
Proof.
  intros Hthr Hle Htime. unfold TokenService.isTokenNearExpiry.
  split; [intros ->; reflexivity|]. split.
  - intros p -> Hexp. destruct (Jwt.exp p =? 0)%Z; [reflexivity|].
    cbv zeta. apply Z.leb_le. unfold Jwt.clock in Hexp.
    assert (1000 * (now / 1000) <= now)%Z by (apply Z.mul_div_le; lia).
    lia.
  - destruct (TokenService.decodeToken t) as [p|]; [|reflexivity].
    destruct (Jwt.exp p =? 0)%Z; [reflexivity|].
    cbv zeta. rewrite !Z.leb_le. lia.
Qed.

Lemma isTokenNearExpiry_conservative_witness :
  TokenService.isTokenNearExpiry ana_access 10 700000 = true.
Proof.
  apply (@isTokenNearExpiry_conservative ana_access 5 10 600000 700000);
    [lia|lia|lia|reflexivity].
Defined.

(* ================================================================== *)
(** * More of the authentication routes *)

(** What a login that answers 200 has done. *)
Lemma login_ok (ms : string -> option Z) (env : Env)
      (bcrypt_compare : string -> string -> bool) (db : Db)
      (b : AuthRoutes.LoginBody) (now : Z) :
  status (fst (AuthRoutes.login ms env bcrypt_compare db b now)) = 200 ->
  exists user accessToken refreshToken,
    AuthRoutes.findUserByEmail db (AuthRoutes.login_email b) = Some user /\
    u_isActive user = true /\
    bcrypt_compare (AuthRoutes.login_password b) (u_password user) = true /\
    AuthRoutes.generateTokens ms env (u_id user) now
      = Ok (accessToken, refreshToken) /\
    jpath ["data"; "accessToken"]
          (body (fst (AuthRoutes.login ms env bcrypt_compare db b now)))
      = Some (JTok accessToken) /\
    jpath ["data"; "refreshToken"]
          (body (fst (AuthRoutes.login ms env bcrypt_compare db b now)))
      = Some (JTok refreshToken) /\
    snd (AuthRoutes.login ms env bcrypt_compare db b now)
      = mkDb (users db)
             (deleteMany (TokenService.expired_of (u_id user) now)
                         (refreshTokens db)
              ++ [mkRefreshToken (nextId db) refreshToken (u_id user)
                    (AuthRoutes.in_seven_days now) now])
             (projects db) (contacts db) (S (nextId db)) /\
    (forall r, In r (deleteMany (TokenService.expired_of (u_id user) now)
                                (refreshTokens db)) ->
               rt_token r <> refreshToken).
Proof.
  unfold AuthRoutes.login. intros Hstatus.
  destruct (AuthRoutes.findUserByEmail db (AuthRoutes.login_email b))
    as [user|]; [|discriminate Hstatus].
  destruct (u_isActive user) eqn:Hactive; cbn [negb] in *;
    [|discriminate Hstatus].
  destruct (bcrypt_compare _ _) eqn:Hcmp; cbn [negb] in *;
    [|discriminate Hstatus].
  destruct (AuthRoutes.generateTokens ms env (u_id user) now) as [[at_ rt]|]
    eqn:Htokens; [|discriminate Hstatus].
  unfold createRefreshToken in *.
  cbn [refreshTokens set_refreshTokens nextId users projects contacts] in *.
  destruct (existsb _ _) eqn:Hex; [discriminate Hstatus|].
  exists user, at_, rt. cbn [fst snd body].
  repeat (split; [first [reflexivity|assumption]|]).
  intros r Hr Heq.
  assert (Htrue : existsb (fun r0 => Jwt.eqb (rt_token r0) rt)
            (deleteMany (TokenService.expired_of (u_id user) now)
                        (refreshTokens db)) = true).
  { apply existsb_exists. exists r. split; [exact Hr|now apply token_eqb_eq]. }
  congruence.
Qed.

Lemma find_by_id (l : list User) (u : User) :
  NoDup (map u_id l) -> In u l ->
  find (fun x => u_id x =? u_id u) l = Some u.
Proof.
  intros Hnd Hin.
  destruct (find (fun x => u_id x =? u_id u) l) as [v|] eqn:Hfind.
  - apply find_some in Hfind. destruct Hfind as [Hv Hid].
    apply Nat.eqb_eq in Hid. f_equal.
    exact (@NoDup_map_inj _ _ u_id l v u Hnd Hv Hin Hid).
  - pose proof (find_none _ _ Hfind u Hin) as Hno. cbv beta in Hno.
    rewrite Nat.eqb_refl in Hno. discriminate.
Qed.

Lemma clock_same_second (now now' : Z) :
  Jwt.clock now' = Jwt.clock now -> (now' < now + 1000)%Z.
Proof.
  unfold Jwt.clock. intros H.
  pose proof (Z.div_mod now 1000 ltac:(lia)).
  pose proof (Z.div_mod now' 1000 ltac:(lia)).
  pose proof (Z.mod_pos_bound now 1000 ltac:(lia)).
  pose proof (Z.mod_pos_bound now' 1000 ltac:(lia)).
  lia.
Qed.

Lemma generateTokens_clock (ms : string -> option Z) (env : Env) (u : nat)
      (now now' : Z) :
  Jwt.clock now' = Jwt.clock now ->
  AuthRoutes.generateTokens ms env u now' = AuthRoutes.generateTokens ms env u now.
Proof.
  intros H. unfold AuthRoutes.generateTokens, Jwt.sign. now rewrite H.
Qed.



(** X10.  The tokens of the login route are a function of the account and the
    second, and the [token] column is unique: a second login of the same
    account within the second of a login that was answered 200 is
    answered 500, and the session of the first login stays stored. *)
Theorem second_login_in_the_same_second_fails
        (ms : string -> option Z) (env : Env)
        (bcrypt_compare : string -> string -> bool) (db : Db)
        (b : AuthRoutes.LoginBody) (now now' : Z) :
  status (fst (AuthRoutes.login ms env bcrypt_compare db b now)) = 200 ->
  Jwt.clock now' = Jwt.clock now ->
  let db1 := snd (AuthRoutes.login ms env bcrypt_compare db b now) in
  fst (AuthRoutes.login ms env bcrypt_compare db1 b now')
    = AuthRoutes.server_error /\
  forall t, jpath ["data"; "refreshToken"]
                  (body (fst (AuthRoutes.login ms env bcrypt_compare db b now)))
            = Some (JTok t) ->
            exists r, In r (refreshTokens
                              (snd (AuthRoutes.login ms env bcrypt_compare db1 b now')))
                      /\ rt_token r = t.
Proof.
  intros Hstatus Hclock db1.
  destruct (login_ok _ _ _ _ _ _ Hstatus)
    as (user & at_ & rt & Hfind & Hactive & Hcmp & Htokens & _ & Hbody & Hdb & _).
  subst db1. rewrite Hbody, Hdb.
  set (r := mkRefreshToken (nextId db) rt (u_id user)
              (AuthRoutes.in_seven_days now) now).
  set (rows := deleteMany (TokenService.expired_of (u_id user) now)
                          (refreshTokens db)).
  assert (Hkept : In r (deleteMany (TokenService.expired_of (u_id user) now')
                                   (rows ++ [r]))).
  { unfold deleteMany at 1. apply filter_In. split.
    - apply in_or_app. right. now left.
    - unfold TokenService.expired_of, r. cbn [rt_userId rt_expiresAt].
      rewrite Nat.eqb_refl. cbn [andb]. apply negb_true_iff, Z.ltb_ge.
      apply clock_same_second in Hclock. unfold AuthRoutes.in_seven_days. lia. }
  assert (Hex : existsb (fun x => Jwt.eqb (rt_token x) rt)
                  (deleteMany (TokenService.expired_of (u_id user) now')
                              (rows ++ [r])) = true).
  { apply existsb_exists. exists r. split; [exact Hkept|apply token_eqb_refl]. }
  unfold AuthRoutes.findUserByEmail in Hfind.
  unfold AuthRoutes.login, AuthRoutes.findUserByEmail.
  cbn [users]. rewrite Hfind, Hactive, Hcmp. cbn [negb].
  rewrite (@generateTokens_clock ms env (u_id user) now now' Hclock), Htokens.
  unfold createRefreshToken.
  cbn [refreshTokens set_refreshTokens nextId users projects contacts].
  rewrite Hex. cbn [fst snd refreshTokens].
  split; [reflexivity|].
  intros t [= <-]. exists r. split; [exact Hkept|reflexivity].
Qed.

Lemma second_login_in_the_same_second_fails_witness :
  fst (AuthRoutes.login sample_ms sample_env sample_compare
         (snd (AuthRoutes.login sample_ms sample_env sample_compare db_ana
                 ana_login 5000))
         ana_login 5999)
  = AuthRoutes.server_error.
Proof.
  apply (@second_login_in_the_same_second_fails sample_ms sample_env
           sample_compare db_ana ana_login 5000 5999);
    reflexivity.
Defined.



Lemma findStoredToken_last (db : Db) (rows : list RefreshToken) (r : RefreshToken) :
  refreshTokens db = rows ++ [r] ->
  (forall x, In x rows -> rt_token x <> rt_token r) ->
  AuthRoutes.findStoredToken db (rt_token r) = Some r.
Proof.
  intros Hrows Hfresh. unfold AuthRoutes.findStoredToken.
  rewrite Hrows, find_app_last.
  - now rewrite token_eqb_refl.
  - intros y Hy. apply token_eqb_neq. now apply Hfresh.
Qed.

Lemma refresh_absent_401 (ms : string -> option Z) (env : Env) (db : Db)
      (t : option Jwt.Token) (now : Z) :
  (forall t', t = Some t' -> token_absent db t') ->
  status (fst (AuthRoutes.refresh ms env db t now)) = 401.
Proof.
  intros Habsent.
  destruct (status (fst (AuthRoutes.refresh ms env db t now)) =? 200) eqn:E.
  - apply Nat.eqb_eq in E.
    destruct (refresh_success_stored _ _ _ _ _ E) as (t' & stored & -> & Hfind & _).
    unfold AuthRoutes.findStoredToken in Hfind. apply find_some in Hfind.
    destruct Hfind as [Hin Heq]. apply token_eqb_eq in Heq.
    exfalso. exact (Habsent t' eq_refl stored Hin Heq).
  - apply Nat.eqb_neq in E. revert E. unfold AuthRoutes.refresh.
    repeat match goal with
           | |- context [match ?x with _ => _ end] => destruct x
           end; cbn [fst status fail]; congruence.
Qed.

(** X12.  A session from login to logout.  The refresh token of a login that
    was answered 200 renews the access token, for the account that logged
    in, at every instant before the token's expiry second and up to seven
    days after the login; once the account has logged out with that
    token, the same request is answered 401 at every instant. *)
Theorem session_life_cycle
        (ms : string -> option Z) (env : Env)
        (bcrypt_compare : string -> string -> bool) (db : Db)
        (b : AuthRoutes.LoginBody) (now now' : Z) (span : Z)
        (user : User) (t : Jwt.Token) :
  NoDup (map u_id (users db)) ->
  AuthRoutes.findUserByEmail db (AuthRoutes.login_email b) = Some user ->
  status (fst (AuthRoutes.login ms env bcrypt_compare db b now)) = 200 ->
  jpath ["data"; "refreshToken"]
        (body (fst (AuthRoutes.login ms env bcrypt_compare db b now)))
    = Some (JTok t) ->
  ms (or_default (REFRESH_TOKEN_EXPIRES_IN env) "7d") = Some span ->
  (Jwt.clock now' < Jwt.clock now + span)%Z ->
  (now' <= AuthRoutes.in_seven_days now)%Z ->
  let db1 := snd (AuthRoutes.login ms env bcrypt_compare db b now) in
  let db2 := snd (AuthRoutes.logout db1 user (Some t)) in
  status (fst (AuthRoutes.refresh ms env db1 (Some t) now')) = 200 /\
  jpath ["data"; "user"; "id"]
        (body (fst (AuthRoutes.refresh ms env db1 (Some t) now')))
    = Some (JId (u_id user)) /\
  forall later, status (fst (AuthRoutes.refresh ms env db2 (Some t) later)) = 401.
Proof.
  intros Hnd Huser Hstatus Hbody Hspan Hjwt Hrow db1 db2.
  destruct (login_ok _ _ _ _ _ _ Hstatus)
    as (user' & at_ & rt & Hfind & Hactive & Hcmp & Htokens & _ & Hbody' & Hdb
        & Hfresh).
  rewrite Huser in Hfind. injection Hfind as <-.
  rewrite Hbody in Hbody'. injection Hbody' as <-.
  set (r := mkRefreshToken (nextId db) t (u_id user)
              (AuthRoutes.in_seven_days now) now) in *.
  assert (Hstored : AuthRoutes.findStoredToken db1 t = Some r).
  { apply (@findStoredToken_last db1
             (deleteMany (TokenService.expired_of (u_id user) now)
                         (refreshTokens db)) r);
      [subst db1; rewrite Hdb; reflexivity|exact Hfresh]. }
  unfold AuthRoutes.generateTokens in Htokens.
  destruct (Jwt.sign ms (AuthRoutes.userId_only (u_id user)) (JWT_SECRET env)
              (AuthRoutes.accessOptions env) now) as [a|] eqn:Hsign_a;
    [|discriminate Htokens].
  destruct (Jwt.sign ms (AuthRoutes.userId_only (u_id user))
              (REFRESH_TOKEN_SECRET env) (AuthRoutes.refreshOptions env) now)
    as [t'|] eqn:Hsign_r; [|discriminate Htokens].
  cbn [bind] in Htokens. injection Htokens as -> ->.
  destruct (sign_ok _ _ _ _ _ Hsign_r) as (key & span' & Hkey & Htruthy & Hms & Ht).
  cbn [AuthRoutes.refreshOptions Jwt.expiresIn] in Hms.
  rewrite Hspan in Hms. injection Hms as <-.
  assert (Hid : AuthRoutes.findUserById db1 (u_id user) = Some user).
  { unfold AuthRoutes.findUserById. subst db1. rewrite Hdb. cbn [users].
    apply find_by_id; [exact Hnd|].
    unfold AuthRoutes.findUserByEmail in Huser.
    now apply find_some in Huser. }
  assert (Hsign' : exists a', Jwt.sign ms (AuthRoutes.userId_only (u_id user))
                                (JWT_SECRET env) (AuthRoutes.accessOptions env) now'
                              = Ok a').
  { revert Hsign_a. unfold Jwt.sign.
    destruct (JWT_SECRET env) as [[|c k]|]; try discriminate.
    destruct (ms (Jwt.expiresIn (AuthRoutes.accessOptions env)));
      [intros _; eexists; reflexivity|discriminate]. }
  destruct Hsign' as [a' Hsign'].
  assert (Hverify : Jwt.verify t (REFRESH_TOKEN_SECRET env)
                      AuthRoutes.noVerifyOptions now'
                    = Ok (Jwt.mkPayload (u_id user) None None None None None None
                            (Jwt.clock now) (Jwt.clock now + span))).
  { rewrite Ht, Hkey. unfold Jwt.verify.
    rewrite Hkey in Htruthy. destruct key as [|c k]; [discriminate Htruthy|].
    rewrite String.eqb_refl. cbn [negb Jwt.exp].
    apply Z.leb_gt in Hjwt. rewrite Hjwt. reflexivity. }
  assert (Hgiven : AuthRoutes.token_given (Some t) = true).
  { rewrite Ht. reflexivity. }
  assert (Hnotexp : (rt_expiresAt r <? now')%Z = false).
  { apply Z.ltb_ge. exact Hrow. }
  split; [|split].
  - unfold AuthRoutes.refresh.
    rewrite Hgiven, Hverify, Hstored, Hnotexp. cbn [negb Jwt.userId].
    rewrite Hid, Hactive, Hsign'. reflexivity.
  - unfold AuthRoutes.refresh.
    rewrite Hgiven, Hverify, Hstored, Hnotexp. cbn [negb Jwt.userId].
    rewrite Hid, Hactive, Hsign'. reflexivity.
  - intros later. apply refresh_absent_401. intros t0 [= <-].
    subst db2. apply logout_absent; [exact Hgiven|].
    intros x Hx Htok. subst db1. rewrite Hdb in Hx. cbn [refreshTokens] in Hx.
    apply in_app_or in Hx. destruct Hx as [Hx|[<-|[]]].
    + exfalso. exact (Hfresh x Hx Htok).
    + reflexivity.
Qed.

Lemma session_life_cycle_witness :
  let db1 := snd (AuthRoutes.login sample_ms sample_env sample_compare db_ana
                    ana_login 5000) in
  status (fst (AuthRoutes.refresh sample_ms sample_env db1
                 (Some (route_refresh 1 5000)) 9000)) = 200 /\
  status (fst (AuthRoutes.refresh sample_ms sample_env
                 (snd (AuthRoutes.logout db1 ana (Some (route_refresh 1 5000))))
                 (Some (route_refresh 1 5000)) 9000)) = 401.
Proof.
  destruct (@session_life_cycle sample_ms sample_env sample_compare db_ana
              ana_login 5000 9000 604800 ana (route_refresh 1 5000))
    as (H200 & _ & H401).
  - repeat constructor. simpl. tauto.
  - reflexivity.
  - reflexivity.
  - reflexivity.
  - reflexivity.
  - reflexivity.
  - vm_compute. discriminate.
  - split; [exact H200|apply H401].
Defined.

(* ================================================================== *)
(** * Access control *)






(** X15.  [optionalAuth] sets [req.user] for exactly the requests that
    [authenticate] lets through, and to the same account. *)
Theorem optionalAuth_agrees_with_authenticate
        (env : Env) (db : Db) (h : AuthHeader) (now : Z) :
  AuthMiddleware.optionalAuth env db h now
  = match AuthMiddleware.authenticate env db h now with
    | inr u => Some u
    | inl _ => None
    end.
Proof.
  unfold AuthMiddleware.optionalAuth, AuthMiddleware.authenticate.
  destruct h as [|s|t]; [reflexivity|reflexivity|].
  destruct (AuthMiddleware.empty_token t); [reflexivity|].
  destruct (Jwt.verify t (JWT_SECRET env) AuthRoutes.noVerifyOptions now)
    as [p|e].
  - destruct (AuthRoutes.findUserById db (Jwt.userId p)) as [u|]; [|reflexivity].
    destruct (u_isActive u); reflexivity.
  - destruct (String.eqb (err_name e) "JsonWebTokenError"); [reflexivity|].
    destruct (String.eqb (err_name e) "TokenExpiredError"); reflexivity.
Qed.



(** X17.  The access token of a login opens the protected routes.  Presented
    as a bearer token it makes the account that logged in [req.user] at
    every instant before its expiry second, so that [GET /api/auth/me]
    answers with the profile of that account; from the expiry second on
    it is answered 401 "Token expirado". *)
Theorem login_access_token_authenticates
        (ms : string -> option Z) (env : Env)
        (bcrypt_compare : string -> string -> bool) (db : Db)
        (b : AuthRoutes.LoginBody) (now now' : Z) (span : Z)
        (user : User) (t : Jwt.Token) :
  NoDup (map u_id (users db)) ->
  AuthRoutes.findUserByEmail db (AuthRoutes.login_email b) = Some user ->
  status (fst (AuthRoutes.login ms env bcrypt_compare db b now)) = 200 ->
  jpath ["data"; "accessToken"]
        (body (fst (AuthRoutes.login ms env bcrypt_compare db b now)))
    = Some (JTok t) ->
  ms (or_default (JWT_EXPIRES_IN env) "24h") = Some span ->
  let db1 := snd (AuthRoutes.login ms env bcrypt_compare db b now) in
  ((Jwt.clock now' < Jwt.clock now + span)%Z ->
   AuthMiddleware.authenticate env db1 (Bearer t) now' = inr user /\
   Server.me env db1 (Bearer t) now' = (AuthRoutes.me db1 user, db1) /\
   jpath ["data"; "user"; "id"] (body (fst (Server.me env db1 (Bearer t) now')))
     = Some (JId (u_id user))) /\
  ((Jwt.clock now + span <= Jwt.clock now')%Z ->
   AuthMiddleware.authenticate env db1 (Bearer t) now'
     = inl (fail 401 "Token expirado")).
Proof.
  intros Hnd Huser Hstatus Hbody Hspan db1.
  destruct (login_ok _ _ _ _ _ _ Hstatus)
    as (user' & at_ & rt & Hfind & Hactive & Hcmp & Htokens & Hbody' & _ & Hdb & _).
  rewrite Huser in Hfind. injection Hfind as <-.
  rewrite Hbody in Hbody'. injection Hbody' as <-.
  unfold AuthRoutes.generateTokens in Htokens.
  destruct (Jwt.sign ms (AuthRoutes.userId_only (u_id user)) (JWT_SECRET env)
              (AuthRoutes.accessOptions env) now) as [a|] eqn:Hsign_a;
    [|discriminate Htokens].
  destruct (Jwt.sign ms (AuthRoutes.userId_only (u_id user))
              (REFRESH_TOKEN_SECRET env) (AuthRoutes.refreshOptions env) now)
    as [t'|] eqn:Hsign_r; [|discriminate Htokens].
  cbn [bind] in Htokens. injection Htokens as -> ->.
  destruct (sign_ok _ _ _ _ _ Hsign_a) as (key & span' & Hkey & Htruthy & Hms & Ht).
  cbn [AuthRoutes.accessOptions Jwt.expiresIn] in Hms.
  rewrite Hspan in Hms. injection Hms as <-.
  assert (Hid : AuthRoutes.findUserById db1 (u_id user) = Some user).
  { unfold AuthRoutes.findUserById. subst db1. rewrite Hdb. cbn [users].
    apply find_by_id; [exact Hnd|].
    unfold AuthRoutes.findUserByEmail in Huser.
    now apply find_some in Huser. }
  rewrite Hkey in Htruthy.
  destruct key as [|c k]; [discriminate Htruthy|].
  split; intros Htime.
  - assert (Hauth : AuthMiddleware.authenticate env db1 (Bearer t) now'
                    = inr user).
    { unfold AuthMiddleware.authenticate. rewrite Ht, Hkey.
      cbn [AuthMiddleware.empty_token]. unfold Jwt.verify.
      rewrite String.eqb_refl. cbn [negb Jwt.exp].
      apply Z.leb_gt in Htime. rewrite Htime.
      cbn [AuthRoutes.noVerifyOptions Jwt.v_audience Jwt.v_issuer
           Jwt.opt_matches negb Jwt.userId AuthRoutes.userId_only Jwt.f_userId].
      rewrite Hid, Hactive. reflexivity. }
    split; [exact Hauth|].
    unfold Server.me, Server.authenticated. rewrite Hauth.
    split; [reflexivity|].
    cbn [fst]. unfold AuthRoutes.me. rewrite Hid. reflexivity.
  - unfold AuthMiddleware.authenticate. rewrite Ht, Hkey.
    cbn [AuthMiddleware.empty_token]. unfold Jwt.verify.
    rewrite String.eqb_refl. cbn [negb Jwt.exp].
    apply Z.leb_le in Htime. rewrite Htime. reflexivity.
Qed.

Lemma login_access_token_authenticates_witness :
  let db1 := snd (AuthRoutes.login sample_ms sample_env sample_compare db_ana
                    ana_login 5000) in
  AuthMiddleware.authenticate sample_env db1
    (Bearer (Jwt.Signed "access-secret"
               (Jwt.mkPayload 1 None None None None None None 5 86405)))
    86404999
  = inr ana.
Proof.
  apply (@login_access_token_authenticates sample_ms sample_env sample_compare
           db_ana ana_login 5000 86404999 86400 ana).
  - repeat constructor. simpl. tauto.
  - reflexivity.
  - reflexivity.
  - reflexivity.
  - reflexivity.
  - reflexivity.
Defined.



(* ================================================================== *)
(** * More of the project routes *)

Lemma find_map_fixed (A : Type) (f : A -> bool) (g : A -> A) (l : list A) :
  (forall x, f (g x) = f x) ->
  (forall x, f x = true -> g x = x) ->
  find f (map g l) = find f l.
Proof.
  intros Hf Hg. induction l as [|a l IH]; cbn [map find]; [reflexivity|].
  rewrite Hf. destruct (f a) eqn:E; [now rewrite (Hg a E)|exact IH].
Qed.

Lemma find_project_updated (id : nat) (f : Project -> Project)
      (rows : list Project) (p : Project) :
  (forall x, p_id (f x) = p_id x) ->
  find (fun x => p_id x =? id) rows = Some p ->
  find (fun x => p_id x =? id) (ProjectRoutes.updateProject id f rows)
  = Some (f p).
Proof.
  intros Hf. unfold ProjectRoutes.updateProject.
  induction rows as [|a rows IH]; cbn [find map]; [discriminate|].
  destruct (p_id a =? id) eqn:E.
  - intros [= ->]. now rewrite Hf, E.
  - rewrite E. exact IH.
Qed.

Lemma toggleFeatured_rows (db : Db) (id : nat) (now : Z) :
  project_ids_unique db ->
  projects (snd (ProjectRoutes.toggleFeatured db id now))
    = map (flip_featured id now) (projects db) /\
  (status (fst (ProjectRoutes.toggleFeatured db id now)) = 200 <->
   exists p, In p (projects db) /\ p_id p = id) /\
  (status (fst (ProjectRoutes.toggleFeatured db id now)) = 200 \/
   fst (ProjectRoutes.toggleFeatured db id now)
     = fail 404 "Proyecto no encontrado").
Proof.
  intros Huniq. unfold ProjectRoutes.toggleFeatured.
  destruct (find (fun p => p_id p =? id) (projects db)) as [project|] eqn:Hfind.
  - cbn [projects ProjectRoutes.set_projects].
    rewrite (@find_project_updated id _ _ project); [|reflexivity|exact Hfind].
    cbn [fst snd status projects].
    apply find_some in Hfind. destruct Hfind as [Hin Hid].
    apply Nat.eqb_eq in Hid.
    split; [|split; [|now left]].
    + unfold ProjectRoutes.updateProject. apply map_ext_in. intros p Hp.
      unfold flip_featured. destruct (p_id p =? id) eqn:E; [|reflexivity].
      apply Nat.eqb_eq in E.
      assert (p = project) as ->; [|reflexivity].
      apply (@NoDup_map_inj _ _ p_id (projects db)); [exact Huniq|assumption..|congruence].
    + split; [intros _; eauto|reflexivity].
  - cbn [fst snd status fail].
    split; [|split; [|now right]].
    + symmetry. rewrite <- (map_id (projects db)) at 2.
      apply map_ext_in. intros p Hp. unfold flip_featured.
      pose proof (find_none _ _ Hfind p Hp) as Hno. cbv beta in Hno.
      now rewrite Hno.
    + split; [discriminate|]. intros (p & Hp & Hid).
      pose proof (find_none _ _ Hfind p Hp) as Hno. cbv beta in Hno.
      apply Nat.eqb_neq in Hno. contradiction.
Qed.

(** X19.  Toggling the featured flag twice gives the project its flag back.
    With unique project identifiers, two [toggle-featured] requests for a
    stored project are both answered 200, and afterwards every project is
    as before except for the [updatedAt] of the toggled one; no other
    project is touched by either request. *)
Theorem toggleFeatured_twice_restores (db : Db) (id : nat) (now now' : Z) (p : Project) :
  project_ids_unique db ->
  In p (projects db) -> p_id p = id ->
  let db1 := snd (ProjectRoutes.toggleFeatured db id now) in
  let db2 := snd (ProjectRoutes.toggleFeatured db1 id now') in
  status (fst (ProjectRoutes.toggleFeatured db id now)) = 200 /\
  status (fst (ProjectRoutes.toggleFeatured db1 id now')) = 200 /\
  projects db2
    = map (fun x => if p_id x =? id
                    then ProjectRoutes.set_featured (p_isFeatured x) now' x
                    else x)
          (projects db) /\
  map p_isFeatured (projects db2) = map p_isFeatured (projects db) /\
  (forall x, In x (projects db) -> p_id x <> id -> In x (projects db1)).
Proof.
  intros Huniq Hin Hid db1 db2.
  destruct (@toggleFeatured_rows db id now Huniq) as (Hrows1 & Hstatus1 & _).
  assert (Huniq1 : project_ids_unique db1).
  { unfold project_ids_unique. subst db1. rewrite Hrows1, map_map.
    erewrite map_ext; [exact Huniq|].
    intros x. unfold flip_featured. now destruct (p_id x =? id). }
  destruct (@toggleFeatured_rows db1 id now' Huniq1) as (Hrows2 & Hstatus2 & _).
  assert (Hboth : projects db2
    = map (fun x => if p_id x =? id
                    then ProjectRoutes.set_featured (p_isFeatured x) now' x
                    else x) (projects db)).
  { subst db2. rewrite Hrows2. subst db1. rewrite Hrows1, map_map.
    apply map_ext. intros x. unfold flip_featured.
    destruct (p_id x =? id) eqn:E; [|now rewrite E].
    cbn [ProjectRoutes.set_featured p_id p_isFeatured]. rewrite E.
    unfold ProjectRoutes.set_featured.
    cbn [p_id p_title p_description p_videoUrl p_videoTitle p_repositoryUrl
         p_technologies p_isFeatured p_isActive p_order p_authorId p_createdAt].
    now rewrite negb_involutive. }
  split; [apply Hstatus1; eauto|].
  split.
  { apply Hstatus2. exists (flip_featured id now p). split.
    - subst db1. rewrite Hrows1. now apply in_map.
    - unfold flip_featured. now destruct (p_id p =? id). }
  split; [exact Hboth|]. split.
  - rewrite Hboth, map_map. apply map_ext. intros x.
    now destruct (p_id x =? id).
  - intros x Hx Hne. subst db1. rewrite Hrows1.
    apply in_map_iff. exists x. split; [|exact Hx].
    unfold flip_featured. apply Nat.eqb_neq in Hne. now rewrite Hne.
Qed.

Lemma toggleFeatured_twice_restores_witness :
  map p_isFeatured
      (projects (snd (ProjectRoutes.toggleFeatured
                        (snd (ProjectRoutes.toggleFeatured db_projects
                                (p_id old_demo) 10))
                        (p_id old_demo) 20)))
  = map p_isFeatured (projects db_projects).
Proof.
  apply (@toggleFeatured_twice_restores db_projects (p_id old_demo) 10 20 old_demo).
  - unfold project_ids_unique. vm_compute. repeat constructor; simpl; intuition discriminate.
  - vm_compute. tauto.
  - reflexivity.
Defined.

(** X20.  A deleted project is no longer served.  After a [DELETE] that was
    answered 200, [GET /api/projects/:id] answers 404 for that
    identifier and answers for every other identifier what it answered
    before; the row is still there, so a second [DELETE] of the same
    project is answered 200 again. *)
Theorem deleted_project_not_served (db : Db) (id : nat) (now : Z) :
  status (fst (ProjectRoutes.deleteProject db id now)) = 200 ->
  let db1 := snd (ProjectRoutes.deleteProject db id now) in
  ProjectRoutes.getProject db1 id = fail 404 "Proyecto no encontrado" /\
  (forall id', id' <> id ->
               ProjectRoutes.getProject db1 id' = ProjectRoutes.getProject db id') /\
  (forall now', status (fst (ProjectRoutes.deleteProject db1 id now')) = 200).
Proof.
  unfold ProjectRoutes.deleteProject.
  destruct (find (fun p => p_id p =? id) (projects db)) as [p|] eqn:Hfind;
    [|discriminate].
  intros _. cbn [snd]. split; [|split].
  - unfold ProjectRoutes.getProject.
    cbn [projects ProjectRoutes.set_projects].
    replace (find _ (ProjectRoutes.updateProject id (ProjectRoutes.deactivate now)
                       (projects db))) with (@None Project); [reflexivity|].
    symmetry. apply find_none_iff. intros x Hx.
    unfold ProjectRoutes.updateProject in Hx. apply in_map_iff in Hx.
    destruct Hx as (y & <- & _).
    destruct (p_id y =? id) eqn:E.
    + apply andb_false_r.
    + rewrite E. reflexivity.
  - intros id' Hne. unfold ProjectRoutes.getProject.
    cbn [projects ProjectRoutes.set_projects].
    unfold ProjectRoutes.updateProject. rewrite find_map_fixed.
    + destruct (find _ (projects db)); reflexivity.
    + intros x. destruct (p_id x =? id) eqn:E; [|reflexivity].
      apply Nat.eqb_eq in E. cbn [ProjectRoutes.deactivate p_id].
      replace (p_id x =? id') with false; [reflexivity|].
      symmetry. apply Nat.eqb_neq. congruence.
    + intros x Hx. apply andb_true_iff in Hx. destruct Hx as [Hx _].
      apply Nat.eqb_eq in Hx. subst id'.
      apply Nat.eqb_neq in Hne. now rewrite Hne.
  - intros now'. cbn [projects ProjectRoutes.set_projects].
    rewrite (@find_project_updated id _ _ p); [reflexivity|reflexivity|exact Hfind].
Qed.

Lemma deleted_project_not_served_witness :
  ProjectRoutes.getProject (snd (ProjectRoutes.deleteProject db_projects 10 50)) 10
  = fail 404 "Proyecto no encontrado".
Proof.
  apply (@deleted_project_not_served db_projects 10 50). reflexivity.
Defined.












(* ================================================================== *)
(** * More of the contact routes *)






(** X25.  [PATCH /api/contacts/:id/status] keeps the date of the first
    response.  Whatever status is asked for, valid or not, the request
    leaves the [respondedAt] of every contact as it was, unless the status
    asked for is [RESPONDED] and the stored status of the contact is not:
    marking a responded contact as responded again does not move the
    date, and moving it to another status does not clear it. *)
Theorem patchStatus_keeps_first_response_date
        (db : Db) (id : nat) (status : option string) (now : Z) :
  (forall c, ContactRoutes.findContact db id = Some c ->
             status = Some "RESPONDED" -> c_status c = "RESPONDED") ->
  map c_respondedAt (contacts (snd (ContactRoutes.patchStatus db id status now)))
  = map c_respondedAt (contacts db).
Proof.
  intros Hkeep. unfold ContactRoutes.patchStatus.
  destruct (negb (truthy status) || _); [reflexivity|].
  destruct (ContactRoutes.findContact db id) as [c|] eqn:Hfind; [|reflexivity].
  cbn [snd ContactRoutes.updateContact ContactRoutes.set_contacts contacts].
  apply update_keeps_respondedAt.
  unfold ContactRoutes.patchUpdateData. cbn [ContactRoutes.upd_respondedAt].
  destruct (String.eqb (Validators.toString status) "RESPONDED") eqn:E;
    [|reflexivity].
  apply String.eqb_eq in E.
  destruct status as [s|]; [|discriminate E]. cbn in E. subst s.
  rewrite (Hkeep c eq_refl eq_refl). reflexivity.
Qed.

Lemma patchStatus_keeps_first_response_date_witness :
  let db1 := snd (ContactRoutes.patchStatus db_contact 7 (Some "RESPONDED") 100) in
  map c_respondedAt
      (contacts (snd (ContactRoutes.patchStatus db1 7 (Some "RESPONDED") 900)))
  = [Some 100%Z].
Proof.
  cbv zeta.
  rewrite (@patchStatus_keeps_first_response_date
             (snd (ContactRoutes.patchStatus db_contact 7 (Some "RESPONDED") 100))
             7 (Some "RESPONDED") 900).
  - reflexivity.
  - intros c [= <-] _. reflexivity.
Defined.

(** X26.  Contacts are deleted for good.  After a [DELETE /api/contacts/:id]
    that was answered 200 no contact has the identifier,
    [GET /api/contacts/:id] and a second [DELETE] answer 404 for it, and
    every other contact is stored and served as before. *)
Theorem deleted_contact_is_gone (db : Db) (id : nat) :
  status (fst (ContactRoutes.deleteContact db id)) = 200 ->
  let db1 := snd (ContactRoutes.deleteContact db id) in
  (forall c, In c (contacts db1) <-> In c (contacts db) /\ c_id c <> id) /\
  ContactRoutes.getContact db1 id = ContactRoutes.not_found /\
  ContactRoutes.deleteContact db1 id = (ContactRoutes.not_found, db1) /\
  (forall id', id' <> id ->
               ContactRoutes.getContact db1 id' = ContactRoutes.getContact db id').
Proof.
  unfold ContactRoutes.deleteContact at 1 2.
  destruct (ContactRoutes.findContact db id) as [c|] eqn:Hfind; [|discriminate].
  intros _. cbn [snd].
  set (db1 := ContactRoutes.set_contacts db _ _).
  assert (Hrows : forall x, In x (contacts db1) <-> In x (contacts db) /\ c_id x <> id).
  { intros x. subst db1. cbn [contacts ContactRoutes.set_contacts].
    unfold deleteMany. rewrite filter_In, negb_true_iff, Nat.eqb_neq. reflexivity. }
  assert (Hnone : ContactRoutes.findContact db1 id = None).
  { unfold ContactRoutes.findContact. apply find_none_iff. intros x Hx.
    apply Hrows in Hx. now apply Nat.eqb_neq. }
  split; [exact Hrows|]. split; [|split].
  - unfold ContactRoutes.getContact. now rewrite Hnone.
  - unfold ContactRoutes.deleteContact. now rewrite Hnone.
  - intros id' Hne. unfold ContactRoutes.getContact, ContactRoutes.findContact.
    subst db1. cbn [contacts ContactRoutes.set_contacts]. unfold deleteMany.
    rewrite find_filter; [reflexivity|].
    intros x _ Hx. apply Nat.eqb_eq in Hx. apply negb_true_iff, Nat.eqb_neq.
    congruence.
Qed.

Lemma deleted_contact_is_gone_witness :
  ContactRoutes.getContact (snd (ContactRoutes.deleteContact db_contact 7)) 7
  = ContactRoutes.not_found.
Proof.
  apply (@deleted_contact_is_gone db_contact 7). reflexivity.
Defined.

Lemma jget_stats (keys : list string) (count : string -> nat) (s : string) :
  jget s (JObj (map (fun g => (fst g, JNum (Z.of_nat (snd g))))
                    (map (fun k => (k, count k)) keys)))
  = if in_dec string_dec s keys then Some (JNum (Z.of_nat (count s))) else None.
Proof.
  unfold jget. rewrite map_map. cbn [fst snd].
  induction keys as [|k keys IH]; cbn [map find fst]; [reflexivity|].
  destruct (String.eqb k s) eqn:E.
  - apply String.eqb_eq in E. subst k. cbn [snd].
    destruct (in_dec string_dec s (s :: keys)) as [_|Hno]; [reflexivity|].
    exfalso. apply Hno. now left.
  - rewrite IH. apply String.eqb_neq in E.
    destruct (in_dec string_dec s keys) as [Hin|Hno],
             (in_dec string_dec s (k :: keys)) as [Hin'|Hno'];
      try reflexivity.
    + exfalso. apply Hno'. now right.
    + exfalso. destruct Hin' as [->|Hin']; [now apply E|now apply Hno].
Qed.

(** X27.  The statistics of [GET /api/contacts] count the whole table,
    whatever the filter and the page of the request: for every status,
    [data.stats] has an entry exactly when some stored contact has that
    status, and the entry is the number of stored contacts with it;
    [data.pagination.total] is the number of contacts that match the
    filter. *)
Theorem listContacts_stats_cover_the_table
        (status_before : string -> string -> bool) (db : Db)
        (q : ContactRoutes.ContactQuery) (s : string) :
  let r := ContactRoutes.listContacts status_before db q in
  jpath ["data"; "stats"; s] (body r)
    = (if 0 <? ContactRoutes.countStatus s (contacts db)
       then Some (JNum (Z.of_nat (ContactRoutes.countStatus s (contacts db))))
       else None) /\
  jpath ["data"; "pagination"; "total"] (body r)
    = Some (JNum (Z.of_nat (length (filter (ContactRoutes.contactWhere q)
                                           (contacts db))))).
Proof.
  cbv zeta. split; [|reflexivity].
  unfold ContactRoutes.listContacts. cbn [body].
  change (jpath ["data"; "stats"; s] _)
    with (match jget s (ContactRoutes.statusStats (contacts db)) with
          | Some v => Some v
          | None => None
          end).
  unfold ContactRoutes.statusStats, ContactRoutes.groupByStatus.
  rewrite jget_stats.
  destruct (in_dec string_dec s (nodup string_dec (map c_status (contacts db))))
    as [Hin|Hno].
  - apply nodup_In, in_map_iff in Hin. destruct Hin as (c & Hs & Hc).
    assert (Hpos : 0 < ContactRoutes.countStatus s (contacts db)).
    { unfold ContactRoutes.countStatus.
      assert (Hf : In c (filter (fun c0 => String.eqb (c_status c0) s) (contacts db))).
      { apply filter_In. split; [exact Hc|]. now apply String.eqb_eq. }
      destruct (filter _ (contacts db)); [contradiction|simpl; lia]. }
    apply Nat.ltb_lt in Hpos. now rewrite Hpos.
  - assert (Hzero : ContactRoutes.countStatus s (contacts db) = 0).
    { unfold ContactRoutes.countStatus.
      rewrite filter_none; [reflexivity|].
      intros c Hc. apply String.eqb_neq. intros Hs. apply Hno.
      apply nodup_In, in_map_iff. eauto. }
    now rewrite Hzero.
Qed.

(* ================================================================== *)
(** * More of the API client *)

Lemma request_sent (net : ApiClient.Network) (c : ApiClient.Client)
      (endpoint : string) (o : ApiClient.Options) :
  ApiClient.baseURL (snd (ApiClient.request net c endpoint o)) = ApiClient.baseURL c /\
  exists rest,
    ApiClient.sent (snd (ApiClient.request net c endpoint o))
      = ApiClient.sent c ++ first_request c endpoint o :: rest /\
    length rest <= 2.
Proof.
  rewrite request_unfold. cbv zeta.
  set (c1 := ApiClient.mkClient (ApiClient.baseURL c) (ApiClient.accessToken c)
               (ApiClient.refreshToken c) (ApiClient.localStorage c)
               (ApiClient.sent c ++ [first_request c endpoint o])).
  pose proof (renewToken_cases net c1) as Hcases.
  destruct (net (ApiClient.sent c) (first_request c endpoint o)) as [response|e];
    [|split; [reflexivity|exists []; split; [reflexivity|simpl; lia]]].
  destruct ((ApiClient.f_status response =? 401)
            && ApiClient.value_truthy (ApiClient.refreshToken c));
    [|split; [reflexivity|exists []; split; [reflexivity|simpl; lia]]].
  destruct Hcases as [(a & r & _ & ->)|[_ ->]];
    cbn [fst snd ApiClient.sent ApiClient.accessToken ApiClient.baseURL];
    (split; [reflexivity|]).
  - eexists [_; _]. split; [|simpl; lia].
    subst c1. cbn [ApiClient.sent]. rewrite <- !app_assoc. reflexivity.
  - eexists [_]. split; [|simpl; lia].
    subst c1. cbn [ApiClient.sent]. rewrite <- !app_assoc. reflexivity.
Qed.

(** X28.  [logout] always signs the client out.  Whatever the network does
    -- an error, a refusal, a renewal in between -- the client ends with
    both tokens null, the two items removed from the local storage and
    [isAuthenticated] false.  It has sent the logout request first, a
    POST to [/auth/logout] whose body is the refresh token it held, and
    at most two more requests. *)
Theorem logout_always_signs_out (net : ApiClient.Network) (c : ApiClient.Client) :
  let o := ApiClient.mkOptions None (Some "POST")
             (Some (ApiClient.stringify
                      [("refreshToken", ApiClient.refreshToken c)])) in
  let c' := ApiClient.logout net c in
  ApiClient.isAuthenticated c' = false /\
  ApiClient.accessToken c' = Some JNull /\
  ApiClient.refreshToken c' = Some JNull /\
  ApiClient.localStorage c' = ApiClient.mkStorage None None /\
  ApiClient.baseURL c' = ApiClient.baseURL c /\
  exists rest,
    ApiClient.sent c' = ApiClient.sent c ++ first_request c "/auth/logout" o :: rest /\
    length rest <= 2.
Proof.
  cbv zeta. unfold ApiClient.logout.
  pose proof (@request_sent net c "/auth/logout"
                (ApiClient.mkOptions None (Some "POST")
                   (Some (ApiClient.stringify
                            [("refreshToken", ApiClient.refreshToken c)]))))
    as [Hbase Hsent].
  destruct (ApiClient.request net c "/auth/logout" _) as [res c1].
  cbn [snd] in Hbase, Hsent.
  unfold ApiClient.clearTokens, ApiClient.isAuthenticated.
  cbn [ApiClient.accessToken ApiClient.refreshToken ApiClient.localStorage
       ApiClient.baseURL ApiClient.sent ApiClient.value_truthy].
  repeat (split; [reflexivity|]). split; [exact Hbase|exact Hsent].
Qed.

Lemma register_status (ms : string -> option Z) (env : Env)
      (bcrypt_hash : string -> string) (db : Db)
      (b : AuthRoutes.RegisterBody) (now : Z) :
  status (fst (AuthRoutes.register ms env bcrypt_hash db b now)) <> 401.
Proof.
  unfold AuthRoutes.register.
  destruct (AuthRoutes.findUserByEmail db (AuthRoutes.reg_email b));
    [discriminate|].
  cbn [AuthRoutes.createUser u_id].
  destruct (AuthRoutes.generateTokens ms env (nextId db) now) as [[at_ rt]|];
    [|discriminate].
  destruct (createRefreshToken _ _ _ _ _) as [[r db2]|]; discriminate.
Qed.

(** X29.  Registration does not sign the client in.  When the server's answer
    to [POST /api/auth/register] reaches the client, [register] returns
    its body and leaves the client's tokens and local storage as they
    were, also when the answer is 201 and carries an access and a
    refresh token; exactly one request has been sent. *)
Theorem client_register_stores_no_token
        (net : ApiClient.Network) (c : ApiClient.Client) (userData : Json)
        (ms : string -> option Z) (env : Env) (bcrypt_hash : string -> string)
        (db : Db) (b : AuthRoutes.RegisterBody) (now : Z) :
  let o := ApiClient.mkOptions None (Some "POST") (Some userData) in
  let answer := fst (AuthRoutes.register ms env bcrypt_hash db b now) in
  net (ApiClient.sent c) (first_request c "/auth/register" o)
    = Ok (ApiClient.delivered answer) ->
  let out := ApiClient.register net c userData in
  fst out = Ok (body answer) /\
  ApiClient.accessToken (snd out) = ApiClient.accessToken c /\
  ApiClient.refreshToken (snd out) = ApiClient.refreshToken c /\
  ApiClient.localStorage (snd out) = ApiClient.localStorage c /\
  ApiClient.sent (snd out)
    = ApiClient.sent c ++ [first_request c "/auth/register" o] /\
  (status answer = 201 ->
   exists a r, jpath ["data"; "accessToken"] (body answer) = Some (JTok a) /\
               jpath ["data"; "refreshToken"] (body answer) = Some (JTok r)).
Proof.
  cbv zeta. intros Hnet. unfold ApiClient.register.
  rewrite request_unfold. cbv zeta. rewrite Hnet.
  pose proof (register_status ms env bcrypt_hash db b now) as Hstatus.
  cbn [ApiClient.delivered ApiClient.f_status].
  apply Nat.eqb_neq in Hstatus. rewrite Hstatus. cbn [andb fst snd].
  cbn [ApiClient.json ApiClient.f_json ApiClient.accessToken
       ApiClient.refreshToken ApiClient.localStorage ApiClient.sent].
  repeat (split; [reflexivity|]).
  unfold AuthRoutes.register.
  destruct (AuthRoutes.findUserByEmail db (AuthRoutes.reg_email b));
    [discriminate|].
  cbn [AuthRoutes.createUser u_id].
  destruct (AuthRoutes.generateTokens ms env (nextId db) now) as [[at_ rt]|];
    [|discriminate].
  destruct (createRefreshToken _ _ _ _ _) as [[r db2]|]; [|discriminate].
  intros _. exists at_, rt. split; reflexivity.
Qed.

Lemma client_register_stores_no_token_witness :
  let answer := fst (AuthRoutes.register sample_ms sample_env sample_hash db_ana
                       eve_register 7000) in
  status answer = 201 /\
  ApiClient.accessToken
    (snd (ApiClient.register (net_delivering answer) client_signed_out
            (JObj [("email", JStr "eve@x.com")])))
  = Some JNull.
Proof.
  cbv zeta. split; [reflexivity|].
  apply (@client_register_stores_no_token
           (net_delivering (fst (AuthRoutes.register sample_ms sample_env
                                   sample_hash db_ana eve_register 7000)))
           client_signed_out (JObj [("email", JStr "eve@x.com")])
           sample_ms sample_env sample_hash db_ana eve_register 7000).
  reflexivity.
Defined.

(** X30.  The client keeps the tokens the login route hands out.  When the
    server's answer to [POST /api/auth/login] reaches the client and is
    200, [login] returns its body and the client holds, in memory and in
    the local storage, the access and the refresh token of that answer,
    and is authenticated.  When the answer is a rejection and the client
    holds no refresh token, the body is returned and nothing is stored. *)
Theorem client_login_keeps_the_server_tokens
        (net : ApiClient.Network) (c : ApiClient.Client)
        (email password : string)
        (ms : string -> option Z) (env : Env)
        (bcrypt_compare : string -> string -> bool) (db : Db) (now : Z) :
  let o := ApiClient.mkOptions None (Some "POST")
             (Some (ApiClient.stringify [("email", Some (JStr email));
                                         ("password", Some (JStr password))])) in
  let answer := fst (AuthRoutes.login ms env bcrypt_compare db
                       (AuthRoutes.mkLoginBody email password) now) in
  net (ApiClient.sent c) (first_request c "/auth/login" o)
    = Ok (ApiClient.delivered answer) ->
  let out := ApiClient.login net c email password in
  (status answer = 200 ->
   exists a r,
     jpath ["data"; "accessToken"] (body answer) = Some (JTok a) /\
     jpath ["data"; "refreshToken"] (body answer) = Some (JTok r) /\
     fst out = Ok (body answer) /\
     ApiClient.accessToken (snd out) = Some (JTok a) /\
     ApiClient.refreshToken (snd out) = Some (JTok r) /\
     ApiClient.localStorage (snd out)
       = ApiClient.mkStorage (Some (Some (JTok a))) (Some (Some (JTok r))) /\
     ApiClient.isAuthenticated (snd out) = true) /\
  (status answer <> 200 ->
   ApiClient.value_truthy (ApiClient.refreshToken c) = false ->
   fst out = Ok (body answer) /\
   ApiClient.accessToken (snd out) = ApiClient.accessToken c /\
   ApiClient.refreshToken (snd out) = ApiClient.refreshToken c /\
   ApiClient.localStorage (snd out) = ApiClient.localStorage c).
Proof.
  cbv zeta. intros Hnet. unfold ApiClient.login.
  rewrite request_unfold. cbv zeta. rewrite Hnet. clear Hnet.
  cbn [ApiClient.delivered ApiClient.f_status].
  unfold AuthRoutes.login. cbn [AuthRoutes.login_email AuthRoutes.login_password].
  destruct (AuthRoutes.findUserByEmail db email) as [user|].
  2:{ cbn [fst status body fail Nat.eqb andb]. split; [discriminate|].
      intros _ ->. cbn [andb fst snd ApiClient.json ApiClient.f_json
        ApiClient.f_ok ApiClient.f_status Nat.leb andb
        ApiClient.accessToken ApiClient.refreshToken ApiClient.localStorage].
      repeat split. }
  destruct (negb (u_isActive user)).
  { cbn [fst status body fail Nat.eqb andb]. split; [discriminate|].
    intros _ ->. cbn [andb fst snd ApiClient.json ApiClient.f_json
      ApiClient.f_ok ApiClient.f_status Nat.leb andb
      ApiClient.accessToken ApiClient.refreshToken ApiClient.localStorage].
    repeat split. }
  destruct (negb (bcrypt_compare password (u_password user))).
  { cbn [fst status body fail Nat.eqb andb]. split; [discriminate|].
    intros _ ->. cbn [andb fst snd ApiClient.json ApiClient.f_json
      ApiClient.f_ok ApiClient.f_status Nat.leb andb
      ApiClient.accessToken ApiClient.refreshToken ApiClient.localStorage].
    repeat split. }
  destruct (AuthRoutes.generateTokens ms env (u_id user) now) as [[a r]|] eqn:Htokens.
  2:{ cbn. split; [discriminate|]. intros _ _. repeat split. }
  destruct (createRefreshToken _ _ _ _ _) as [[row db2]|].
  2:{ cbn. split; [discriminate|]. intros _ _. repeat split. }
  split; [|intros H; exfalso; apply H; reflexivity].
  intros _. exists a, r.
  assert (Ha : exists key p, a = Jwt.Signed key p).
  { unfold AuthRoutes.generateTokens in Htokens.
    destruct (Jwt.sign ms (AuthRoutes.userId_only (u_id user)) (JWT_SECRET env)
                (AuthRoutes.accessOptions env) now) as [a'|] eqn:Hsign;
      [|discriminate Htokens].
    destruct (Jwt.sign ms (AuthRoutes.userId_only (u_id user))
                (REFRESH_TOKEN_SECRET env) (AuthRoutes.refreshOptions env) now);
      [|discriminate Htokens].
    cbn [bind] in Htokens. injection Htokens as -> _.
    apply sign_ok in Hsign. destruct Hsign as (key & span & _ & _ & _ & ->).
    eauto. }
  destruct Ha as (key & p & ->).
  cbn. repeat split.
Qed.

Lemma client_login_keeps_the_server_tokens_witness :
  let answer := fst (AuthRoutes.login sample_ms sample_env sample_compare db_ana
                       ana_login 5000) in
  ApiClient.refreshToken
    (snd (ApiClient.login (net_delivering answer) client_signed_out
            "ana@x.com" "Abcdef1"))
  = Some (JTok (route_refresh 1 5000)).
Proof.
  cbv zeta.
  destruct (@client_login_keeps_the_server_tokens
              (net_delivering (fst (AuthRoutes.login sample_ms sample_env
                                      sample_compare db_ana ana_login 5000)))
              client_signed_out "ana@x.com" "Abcdef1"
              sample_ms sample_env sample_compare db_ana 5000 eq_refl)
    as [Hok _].
  destruct (Hok eq_refl) as (a & r & _ & Hr & _ & _ & -> & _).
  injection Hr as <-. reflexivity.
Defined.
